(** * Drawing detector: a shallow embedding of the detection engine

  The development follows the JavaScript sources of the detectors:
  the region merger shared by the pixel analyzers, the pixel tracers,
  the text-driven analyzers (missing references, overlapping text) and
  the geotechnical extractor and verifier.

  Conventions.
  - Canvas pixels, pixel counts and the boxes of the pixel regions are
    integers ([Z]); the numbers of PDF text items and viewports, and what
    is computed from them, are binary64 Number values.
  - A JavaScript object used as a record is a [Record]; a field that the
    source leaves out of an object literal is an [option] that is [None].
  - A loop over array indices with a [processed] index set is a recursion
    over the list of the entries that are not yet processed. *)

From Stdlib Require Import ZArith QArith Qround List Bool Lia Lqa String Ascii SpecFloat.
From stdpp Require Import base list strings gmap pretty.
Import ListNotations.

Local Open Scope Z_scope.

(** ** Regions *)

Module Region.

(** The object literal built by the tracers and by the merger:
    [{ x, y, width, height, pixelCount }], with the fields that only
    [traceBlackRegion] adds ([detectionMethod], [isCanvasCoords]). *)
Record t : Type := mk {
  x : Z;
  y : Z;
  width : Z;
  height : Z;
  pixelCount : Z;
  detectionMethod : option string;
  isCanvasCoords : option bool
}.

(** [{ x, y, width, height, pixelCount }] *)
Definition box (x y width height pixelCount : Z) : t :=
  mk x y width height pixelCount None None.

Definition eq_dec (a b : t) : {a = b} + {a <> b}.
Proof. repeat decide equality. Defined.

End Region.

#[global] Instance region_eq_dec : EqDecision Region.t := Region.eq_dec.

(** ** The region merger

  [mergeNearbyElements] (red elements, distance 15), [mergeNearbyHighlights]
  (highlights, distance 20) and [mergeNearbyRegions] (overlapping text,
  distance 10) are the same function up to the constant [mergeDistance]. *)

Module Merger.

Import Region.

(** [Math.max(element.x - (other.x + other.width),
             other.x - (element.x + element.width), 0)] *)
Definition horizontalDistance (element other : Region.t) : Z :=
  Z.max (Z.max (x element - (x other + width other))
               (x other - (x element + width element))) 0.

Definition verticalDistance (element other : Region.t) : Z :=
  Z.max (Z.max (y element - (y other + height other))
               (y other - (y element + height element))) 0.

(** The test of the inner loop. *)
Definition near (mergeDistance : Z) (element other : Region.t) : bool :=
  (horizontalDistance element other <=? mergeDistance)
  && (verticalDistance element other <=? mergeDistance).

(** The object assigned to [element] when the test succeeds. *)
Definition union (element other : Region.t) : Region.t :=
  let minX := Z.min (x element) (x other) in
  let minY := Z.min (y element) (y other) in
  let maxX := Z.max (x element + width element) (x other + width other) in
  let maxY := Z.max (y element + height element) (y other + height other) in
  {| x := minX; y := minY;
     width := maxX - minX; height := maxY - minY;
     pixelCount := pixelCount element + pixelCount other;
     detectionMethod := None; isCanvasCoords := None |}.

(** The inner [for (j = i + 1; ...)] loop. [rest] lists the entries after
    [i] that are not in [processed]; the result is the final [element], the
    entries that stay unprocessed, and whether a merge happened. *)
Fixpoint absorb (mergeDistance : Z) (element : Region.t) (rest : list Region.t)
  : Region.t * list Region.t * bool :=
  match rest with
  | [] => (element, [], false)
  | other :: tl =>
      if near mergeDistance element other
      then let '(e, r, _) := absorb mergeDistance (union element other) tl in
           (e, r, true)
      else let '(e, r, m) := absorb mergeDistance element tl in
           (e, other :: r, m)
  end.

(** One run of the body of [while (merged)]: the outer [for (i ...)] loop.
    The recursion is on the entries left unprocessed, which are never more
    than the entries of the list, so [fuel = length currentElements] is
    enough (lemma [mergePassF_spec]). *)
Fixpoint mergePassF (fuel : nat) (mergeDistance : Z) (currentElements : list Region.t)
  : list Region.t * bool :=
  match fuel with
  | O => (currentElements, false)
  | S fuel' =>
      match currentElements with
      | [] => ([], false)
      | element :: rest =>
          let '(e, rest', m) := absorb mergeDistance element rest in
          let '(newElements, m') := mergePassF fuel' mergeDistance rest' in
          (e :: newElements, m || m')
      end
  end.

Definition mergePass (mergeDistance : Z) (currentElements : list Region.t)
  : list Region.t * bool :=
  mergePassF (length currentElements) mergeDistance currentElements.

(** The [while (merged)] loop. Every pass that merges shortens the list, so
    [length elements] passes are enough (lemma [mergeLoop_spec]). *)
Fixpoint mergeLoop (fuel : nat) (mergeDistance : Z) (currentElements : list Region.t)
  : list Region.t :=
  match fuel with
  | O => currentElements
  | S fuel' =>
      let '(newElements, merged) := mergePass mergeDistance currentElements in
      if merged then mergeLoop fuel' mergeDistance newElements else newElements
  end.

Definition mergeNearby (mergeDistance : Z) (elements : list Region.t) : list Region.t :=
  match elements with
  | [] => elements
  | _ => mergeLoop (length elements) mergeDistance elements
  end.

(** No two boxes at different positions are within [mergeDistance] of each
    other on both axes. *)
Definition pairwiseApart (mergeDistance : Z) (l : list Region.t) : Prop :=
  forall (i j : nat) (a b : Region.t),
    i <> j -> l !! i = Some a -> l !! j = Some b ->
    ~ (horizontalDistance a b <= mergeDistance /\ verticalDistance a b <= mergeDistance).

Definition mergeNearbyElements := mergeNearby 15.
Definition mergeNearbyHighlights := mergeNearby 20.
Definition mergeNearbyRegions := mergeNearby 10.

End Merger.

(** ** Pixel buffers

    The [ImageData] of a canvas: [data] holds four bytes (R, G, B, A) per
    pixel, row by row. A read outside the array is [undefined] in the source
    ([None] here); every pixel test is a conjunction of numeric comparisons on
    the three colour channels, and every comparison with [undefined] or [NaN]
    is false. *)

Module Pixels.

Record ImageData : Type := mkImage {
  data : list Z;
  width : Z;
  height : Z
}.

(** [data[idx]] *)
Definition get (data : list Z) (idx : Z) : option Z :=
  if idx <? 0 then None else data !! Z.to_nat idx.

(** The channels read at [idx = (y * width + x) * 4]. *)
Definition rgbAt (data : list Z) (width x y : Z) : option (Z * Z * Z) :=
  let idx := (y * width + x) * 4 in
  match get data idx, get data (idx + 1), get data (idx + 2) with
  | Some r, Some g, Some b => Some (r, g, b)
  | _, _, _ => None
  end.

Definition satisfies (pred : Z -> Z -> Z -> bool) (p : option (Z * Z * Z)) : bool :=
  match p with
  | Some (r, g, b) => pred r g b
  | None => false
  end.

(** The values of [for (v = first; v < limit; v += stride)], [stride > 0]. *)
Definition range (first limit stride : Z) : list Z :=
  map (fun k => first + stride * Z.of_nat k)
      (seq 0 (Z.to_nat ((limit - first + stride - 1) / stride))).

(** The seed positions of a page scan, rows outermost:
    [for (y = 0; y < height; y += dy) for (x = 0; x < width; x += dx)]. *)
Definition scan (width height dx dy : Z) : list (Z * Z) :=
  flat_map (fun y => map (fun x => (x, y)) (range 0 width dx)) (range 0 height dy).

(** *** The region tracer

    [traceElement], [traceHighlightedArea] and [traceBlackRegion] are the
    same breadth-first flood fill; they differ in the pixel test and in the
    pixel budget. The set [visited] is shared by all the traces of one page
    scan, so it is threaded through. *)

Record TraceState : Type := mkTrace {
  minX : Z; maxX : Z;
  minY : Z; maxY : Z;
  count : Z;
  queue : list (Z * Z);
  visited : gset (Z * Z)
}.

(** One turn of [while (queue.length > 0 && pixelCount < budget)];
    [None] when the loop condition fails. *)
Definition traceStep (pred : Z -> Z -> Z -> bool) (budget : Z)
    (data : list Z) (width height : Z) (st : TraceState) : option TraceState :=
  match queue st with
  | [] => None
  | (x, y) :: rest =>
      if budget <=? count st then None
      else if bool_decide ((x, y) ∈ visited st)
              || (x <? 0) || (width <=? x) || (y <? 0) || (height <=? y)
      then Some (mkTrace (minX st) (maxX st) (minY st) (maxY st) (count st)
                         rest (visited st))
      else if satisfies pred (rgbAt data width x y)
      then Some (mkTrace (Z.min (minX st) x) (Z.max (maxX st) x)
                         (Z.min (minY st) y) (Z.max (maxY st) y)
                         (count st + 1)
                         (rest ++ [(x + 1, y); (x - 1, y); (x, y + 1); (x, y - 1)])
                         ({[ (x, y) ]} ∪ visited st))
      else Some (mkTrace (minX st) (maxX st) (minY st) (maxY st) (count st)
                         rest (visited st))
  end.

Fixpoint traceLoop (fuel : nat) (pred : Z -> Z -> Z -> bool) (budget : Z)
    (data : list Z) (width height : Z) (st : TraceState) : TraceState :=
  match fuel with
  | O => st
  | S fuel' =>
      match traceStep pred budget data width height st with
      | None => st
      | Some st' => traceLoop fuel' pred budget data width height st'
      end
  end.

(** Every turn takes one entry off the queue and adds four only when it
    counts a pixel, so [4 * (budget - count) + queue.length] turns are
    enough (lemma [traceLoop_done]). *)
Definition traceFuel (budget : Z) (st : TraceState) : nat :=
  (4 * Z.to_nat (budget - count st) + length (queue st))%nat.

(** The flood fill from [(startX, startY)]: the bounding box and pixel count
    of the region, and the updated [visited] set. *)
Definition trace (pred : Z -> Z -> Z -> bool) (budget : Z)
    (data : list Z) (width height startX startY : Z) (visited : gset (Z * Z))
  : Region.t * gset (Z * Z) :=
  let st0 := mkTrace startX startX startY startY 0 [(startX, startY)] visited in
  let st := traceLoop (traceFuel budget st0) pred budget data width height st0 in
  (Region.box (minX st) (minY st) (maxX st - minX st) (maxY st - minY st) (count st),
   Pixels.visited st).

(** The seed loop shared by the [find...WithProgress] functions: at every
    scan position whose pixel passes [pred] and is not yet visited, trace the
    region and keep it when [keep] accepts it. [tag] adds the fields that the
    tracer of the analyzer puts on its result. *)
Definition seedStep (pred : Z -> Z -> Z -> bool) (budget : Z)
    (tag : Region.t -> Region.t) (keep : Region.t -> bool)
    (data : list Z) (width height : Z)
    (acc : list Region.t * gset (Z * Z)) (p : Z * Z)
  : list Region.t * gset (Z * Z) :=
  let '(elements, visited) := acc in
  let '(x, y) := p in
  if satisfies pred (rgbAt data width x y) && negb (bool_decide ((x, y) ∈ visited))
  then let '(element, visited') := trace pred budget data width height x y visited in
       let element := tag element in
       if keep element then (elements ++ [element], visited') else (elements, visited')
  else (elements, visited).

Definition findRegions (pred : Z -> Z -> Z -> bool) (budget : Z)
    (tag : Region.t -> Region.t) (keep : Region.t -> bool)
    (dx dy : Z) (data : list Z) (width height : Z) : list Region.t :=
  fst (fold_left (seedStep pred budget tag keep data width height)
                 (scan width height dx dy) ([], ∅)).

End Pixels.

(** ** Quotients of integers

    The pixel analyzers divide one integer by another and compare the
    quotient with a decimal constant. A JavaScript division by zero gives
    [Infinity], [-Infinity] or [NaN]; a comparison with [NaN] is false. For
    the integers that arise from a page (sums of bytes, pixel counts, box
    sizes) the comparison of the correctly rounded quotient with the rounded
    constant agrees with the comparison of the exact values, which is what is
    modelled. *)

Module JsNum.

Inductive t : Type :=
| Fin (q : Q)
| PosInf
| NegInf
| NaN.

(** [a / b] for integers [a] and [b]. *)
Definition div (a b : Z) : t :=
  if b =? 0 then (if a =? 0 then NaN else if 0 <? a then PosInf else NegInf)
  else Fin (inject_Z a / inject_Z b)%Q.

Definition Qltb (a b : Q) : bool := negb (Qle_bool b a).

(** [v < c] *)
Definition ltb (v : t) (c : Q) : bool :=
  match v with
  | Fin q => Qltb q c
  | NegInf => true
  | PosInf | NaN => false
  end.

(** [v > c] *)
Definition gtb (v : t) (c : Q) : bool :=
  match v with
  | Fin q => Qltb c q
  | PosInf => true
  | NegInf | NaN => false
  end.

End JsNum.

(** ** Promises and detection results *)

(** The state in which the promise returned by an analyzer ends up. *)
Inductive Promise (A : Type) : Type :=
| Resolved (a : A)
| Rejected (message : string)
| Pending.

Arguments Resolved {A} a.
Arguments Rejected {A} message.
Arguments Pending {A}.

(** [{ detected, count, locations, message }] *)
Record DetectionResult (L : Type) : Type := mkResult {
  detected : bool;
  count : nat;
  locations : list L;
  message : string
}.

Arguments mkResult {L} detected count locations message.
Arguments detected {L} d.
Arguments count {L} d.
Arguments locations {L} d.
Arguments message {L} d.

(** The invariant of a detection result: [detected == (count > 0)] and
    [locations.length == count]. *)
Definition wellFormed {L : Type} (r : DetectionResult L) : Prop :=
  detected r = (0 <? count r)%nat /\ count r = length (locations r).

(** What an analyzer call leaves behind: the promise and the arguments of
    the calls to [onProgress], in order. *)
Record Run (A : Type) : Type := mkRun {
  promise : Promise A;
  progress : list nat
}.

Arguments mkRun {A} promise progress.
Arguments promise {A} r.
Arguments progress {A} r.

(** [if (onProgress) onProgress(n)] *)
Definition report (onProgress : bool) (n : nat) : list nat :=
  if onProgress then [n] else [].

(** The template literal [`${n}`] for a count. *)
Definition showNat (n : nat) : string := pretty n.

(** ** Red-element analyzer *)

Module RedElements.

Import Pixels.

(** [(r > 150 && r > g * 1.3 && r > b * 1.3) ||
     (r > 100 && r > g * 1.5 && r > b * 1.5 && r > 50) ||
     (r > 80 && r > g * 2 && r > b * 2)]; on bytes, [r > g * 1.3] holds
    exactly when [10 r > 13 g]. *)
Definition isReddish (r g b : Z) : bool :=
  ((150 <? r) && (13 * g <? 10 * r) && (13 * b <? 10 * r))
  || ((100 <? r) && (3 * g <? 2 * r) && (3 * b <? 2 * r) && (50 <? r))
  || ((80 <? r) && (2 * g <? r) && (2 * b <? r)).

Definition traceElement := trace isReddish 100000.

(** First pass: seeds on every other row and column, regions of more than
    50 pixels are kept. Second pass: the merger. *)
Definition findRedElementsWithProgress (data : list Z) (width height : Z)
    (onProgress : bool) : list Region.t * list nat :=
  let elements :=
    findRegions isReddish 100000 (fun e => e)
                (fun e => 50 <? Region.pixelCount e) 2 2 data width height in
  let mergedElements := Merger.mergeNearbyElements elements in
  (mergedElements, report onProgress (length mergedElements)).

(** [img] is the decoded page image, [None] when the image fails to load
    ([img.onerror]). *)
Definition detectRedElements (img : option ImageData) (onProgress : bool)
  : Run (DetectionResult Region.t) :=
  match img with
  | Some pixels =>
      let '(elements, calls) :=
        findRedElementsWithProgress (data pixels) (width pixels) (height pixels)
                                    onProgress in
      mkRun (Resolved
               (mkResult (0 <? length elements)%nat
                         (length elements)
                         elements
                         (if (0 <? length elements)%nat
                          then "Found " ++ showNat (length elements) ++ " red element(s)"
                          else "No red elements detected")%string))
            calls
  | None =>
      mkRun (Rejected "Failed to load image for red elements detection") []
  end.

End RedElements.

(** ** Highlight analyzer *)

Module Highlights.

Import Pixels.

(** [isGreyHighlight || isColorHighlight], with [avg = (r + g + b) / 3]. *)
Definition isHighlight (r g b : Z) : bool :=
  let maxDiff := Z.max (Z.max (Z.abs (r - g)) (Z.abs (g - b))) (Z.abs (r - b)) in
  let isGreyHighlight := (maxDiff <? 40) && (360 <? r + g + b) && (r + g + b <? 540) in
  let isColorHighlight :=
    ((200 <? r) && (200 <? g) && (b <? 150))
    || ((r <? 150) && (200 <? g) && (b <? 150))
    || ((r <? 150) && (g <? 150) && (200 <? b))
    || ((200 <? r) && (g <? 150) && (200 <? b)) in
  isGreyHighlight || isColorHighlight.

Definition isBlack (r g b : Z) : bool := (r <? 80) && (g <? 80) && (b <? 80).

Definition traceHighlightedArea := trace isHighlight 100000.

(** The number of positions of [ps] whose pixel passes [pred]. *)
Definition countPixels (pred : Z -> Z -> Z -> bool) (data : list Z) (width : Z)
    (ps : list (Z * Z)) : Z :=
  Z.of_nat (length (filter (fun p => satisfies pred (rgbAt data width (fst p) (snd p)) = true) ps)).

(** [samples > 0 ? black / samples : 0], compared with [0.15]. *)
Definition edgeIsBlack (black samples : Z) : bool :=
  if 0 <? samples then JsNum.gtb (JsNum.div black samples) (15 # 100) else false.

Definition isRectangularOrTrapezoidal (data : list Z) (width height : Z)
    (area : Region.t) : bool :=
  let ax := Region.x area in
  let ay := Region.y area in
  let aw := Region.width area in
  let ah := Region.height area in
  let xs := range ax (Z.min (ax + aw) width) 2 in
  let ys := range ay (Z.min (ay + ah) height) 2 in
  let greyPixelsInBox :=
    countPixels isHighlight data width
                (flat_map (fun y => map (fun x => (x, y)) xs) ys) in
  let sampledTotal := ((aw + 1) / 2) * ((ah + 1) / 2) in
  let fillRatio := JsNum.div greyPixelsInBox sampledTotal in
  let totalArea := aw * ah in
  if totalArea <? 1200 then false
  else
    let outlineOffset := 2 in
    let topY := Z.max 0 (ay - outlineOffset) in
    let bottomY := Z.min (height - 1) (ay + ah + outlineOffset) in
    let leftX := Z.max 0 (ax - outlineOffset) in
    let rightX := Z.min (width - 1) (ax + aw + outlineOffset) in
    let top := if topY <? height then map (fun x => (x, topY)) xs else [] in
    let bottom := if 0 <=? bottomY then map (fun x => (x, bottomY)) xs else [] in
    let left := if leftX <? width then map (fun y => (leftX, y)) ys else [] in
    let right := if 0 <=? rightX then map (fun y => (rightX, y)) ys else [] in
    let edge ps :=
      edgeIsBlack (countPixels isBlack data width ps) (Z.of_nat (length ps)) in
    let edgesWithBlackOutline :=
      length (filter (fun ps => edge ps = true) [top; bottom; left; right]) in
    let aspectRatio := JsNum.div aw ah in
    if (2 <=? edgesWithBlackOutline)%nat && JsNum.ltb aspectRatio 3
    then false
    else JsNum.gtb fillRatio (48 # 100).

(** [meetsSize && isBoxShaped] *)
Definition keepHighlight (data : list Z) (width height : Z) (element : Region.t) : bool :=
  (100 <? Region.pixelCount element)
  && (((15 <? Region.width element) && (5 <? Region.height element))
      || ((5 <? Region.width element) && (15 <? Region.height element)))
  && isRectangularOrTrapezoidal data width height element.

Definition findHighlightedTextWithProgress (data : list Z) (width height : Z)
    (onProgress : bool) : list Region.t * list nat :=
  let elements :=
    findRegions isHighlight 100000 (fun e => e) (keepHighlight data width height)
                1 1 data width height in
  let mergedElements := Merger.mergeNearbyHighlights elements in
  (mergedElements, report onProgress (length mergedElements)).

(** [img] is the decoded page image; the source installs no [onerror]
    handler, so the promise stays pending when the image fails to load. *)
Definition detectHighlights (img : option ImageData) (onProgress : bool)
  : Run (DetectionResult Region.t) :=
  match img with
  | Some pixels =>
      let '(elements, calls) :=
        findHighlightedTextWithProgress (data pixels) (width pixels) (height pixels)
                                        onProgress in
      mkRun (Resolved
               (mkResult (0 <? length elements)%nat
                         (length elements)
                         elements
                         (if (0 <? length elements)%nat
                          then "Found " ++ showNat (length elements) ++ " highlighted area(s)"
                          else "No highlights detected")%string))
            calls
  | None => mkRun Pending []
  end.

End Highlights.

(** ** Strings

    A string is a sequence of code units; the type holds the code units
    below 256. White space and case conversion are those of the language
    on this range: the white space of [trim] and of [\s] is tab, line feed,
    vertical tab, form feed, carriage return, space and the no-break space
    U+00A0; case conversion acts on [a-z], [A-Z] and on the letters of
    U+00C0 to U+00FE. The code units U+00B5, U+00DF and U+00FF, whose
    upper-case forms are not single code units of the range, are left as
    they are. *)

Module Text.

Definition code (c : ascii) : nat := nat_of_ascii c.

Definition inRange (lo hi c : ascii) : bool :=
  (code lo <=? code c)%nat && (code c <=? code hi)%nat.

(** Tab, line feed, vertical tab, form feed, carriage return, space,
    no-break space. *)
Definition isSpace (c : ascii) : bool :=
  ((9 <=? code c)%nat && (code c <=? 13)%nat) || (code c =? 32)%nat
  || (code c =? 160)%nat.

Definition isDigit (c : ascii) : bool := inRange "0" "9" c.
Definition isUpper (c : ascii) : bool := inRange "A" "Z" c.
Definition isLower (c : ascii) : bool := inRange "a" "z" c.

(** [\w] *)
Definition isWord (c : ascii) : bool :=
  isUpper c || isLower c || isDigit c || (code c =? code "_")%nat.

(** The letters U+00E0 to U+00FE, the division sign U+00F7 apart, and
    their capitals U+00C0 to U+00DE, the multiplication sign U+00D7
    apart. *)
Definition isLower1 (c : ascii) : bool :=
  (224 <=? code c)%nat && (code c <=? 254)%nat && negb (code c =? 247)%nat.

Definition isUpper1 (c : ascii) : bool :=
  (192 <=? code c)%nat && (code c <=? 222)%nat && negb (code c =? 215)%nat.

Definition upper (c : ascii) : ascii :=
  if isLower c || isLower1 c then ascii_of_nat (code c - 32) else c.

Definition lower (c : ascii) : ascii :=
  if isUpper c || isUpper1 c then ascii_of_nat (code c + 32) else c.

Definition chars (s : string) : list ascii := list_ascii_of_string s.
Definition str (l : list ascii) : string := string_of_list_ascii l.

Definition toUpperCase (s : string) : string := str (map upper (chars s)).
Definition toLowerCase (s : string) : string := str (map lower (chars s)).

Fixpoint dropSpaces (l : list ascii) : list ascii :=
  match l with
  | c :: tl => if isSpace c then dropSpaces tl else l
  | [] => []
  end.

(** [s.trim()] *)
Definition trim (s : string) : string :=
  str (rev (dropSpaces (rev (dropSpaces (chars s))))).

Fixpoint startsWith (p l : list ascii) : bool :=
  match p, l with
  | [], _ => true
  | a :: p', b :: l' => bool_decide (a = b) && startsWith p' l'
  | _ :: _, [] => false
  end.

Fixpoint includesL (p l : list ascii) : bool :=
  startsWith p l || match l with [] => false | _ :: tl => includesL p tl end.

(** [s.includes(p)] *)
Definition includes (s p : string) : bool := includesL (chars p) (chars s).

(** [s.substring(a, b)] for [0 <= a]; both indices are clamped to the
    length, and swapped when [a > b]. *)
Definition substring (s : string) (a b : nat) : string :=
  let n := String.length s in
  let a' := Nat.min a n in
  let b' := Nat.min b n in
  let lo := Nat.min a' b' in
  let hi := Nat.max a' b' in
  str (take (hi - lo) (drop lo (chars s))).

End Text.

(** ** Regular expressions

    The fragment of the ECMAScript pattern language that the sources use,
    with its backtracking semantics: a matcher takes the current state and a
    continuation, alternatives are tried left to right, a greedy quantifier
    tries its body before the continuation and a lazy one after. The flags
    [m], [s], [u] and [y] are never set in the sources. *)

Module Regex.

Import Text.

(** A member of a character class. *)
Inductive item : Type :=
| IChar (c : ascii)
| IRange (lo hi : ascii)
| ICode (n : N)   (* a character without case, given by its code unit *)
| IDigit          (* [\d] *)
| ISpace          (* [\s] *)
| IWord.          (* [\w] *)

Inductive t : Type :=
| Eps
| Chr (c : ascii)
| Dot                                       (* [.] *)
| Cls (negated : bool) (items : list item)  (* [[...]], [[^...]], [\d], [\s] *)
| Seq (r1 r2 : t)
| Alt (r1 r2 : t)
| Rep (r : t) (min : nat) (max : option nat) (greedy : bool)
| Group (i : nat) (r : t)                   (* the [i]-th capturing group *)
| Bol                                       (* [^] *)
| Eol                                       (* [$] *)
| WordB.                                    (* [\b] *)

(** The literal characters of [s] in sequence. *)
Fixpoint litL (l : list ascii) : t :=
  match l with
  | [] => Eps
  | [c] => Chr c
  | c :: tl => Seq (Chr c) (litL tl)
  end.

Definition lit (s : string) : t := litL (chars s).

Fixpoint seqs (rs : list t) : t :=
  match rs with
  | [] => Eps
  | [r] => r
  | r :: tl => Seq r (seqs tl)
  end.

Definition digit : t := Cls false [IDigit].
Definition space : t := Cls false [ISpace].
Definition star (r : t) : t := Rep r 0 None true.
Definition plus (r : t) : t := Rep r 1 None true.
Definition opt (r : t) : t := Rep r 0 (Some 1%nat) true.
Definition lazyStar (r : t) : t := Rep r 0 None false.
Definition between (lo hi : nat) (r : t) : t := Rep r lo (Some hi) true.

(** The capturing groups inside a pattern. *)
Fixpoint groupsOf (r : t) : list nat :=
  match r with
  | Seq r1 r2 | Alt r1 r2 => groupsOf r1 ++ groupsOf r2
  | Rep r _ _ _ => groupsOf r
  | Group i r => i :: groupsOf r
  | _ => []
  end.

Definition nGroups (r : t) : nat := fold_right Nat.max 0%nat (groupsOf r).

Record State : Type := mkState {
  pos : nat;                           (* the end index *)
  rest : list ascii;                   (* the input from [pos] on *)
  prev : option ascii;                 (* the character before [pos] *)
  caps : list (nat * (nat * nat))      (* group, start index, end index *)
}.

Definition K : Type := State -> option State.

Definition canon (ignoreCase : bool) (c : ascii) : ascii :=
  if ignoreCase then upper c else c.

(** Some member of the class has the same canonical form as [ch]. *)
Definition itemMatches (ignoreCase : bool) (it : item) (ch : ascii) : bool :=
  match it with
  | IChar c => bool_decide (canon ignoreCase c = canon ignoreCase ch)
  | IRange lo hi =>
      inRange lo hi ch
      || (ignoreCase && (inRange lo hi (upper ch) || inRange lo hi (lower ch)))
  | ICode n => (N.of_nat (code ch) =? n)%N
  | IDigit => isDigit ch
  | ISpace => isSpace ch
  | IWord => isWord ch
  end.

Definition isLineTerminator (c : ascii) : bool :=
  (code c =? 10)%nat || (code c =? 13)%nat.

(** Consume one character that passes [ok]. *)
Definition char (ok : ascii -> bool) (x : State) (k : K) : option State :=
  match rest x with
  | ch :: tl => if ok ch then k (mkState (S (pos x)) tl (Some ch) (caps x)) else None
  | [] => None
  end.

Definition isWordAt (c : option ascii) : bool :=
  match c with Some ch => isWord ch | None => false end.

Definition clearCaps (inner : list nat) (x : State) : State :=
  mkState (pos x) (rest x) (prev x)
          (filter (fun c => fst c ∉ inner) (caps x)).

(** RepeatMatcher: an iteration that is not required and matches the empty
    string is rejected, so [min] plus the number of characters left bounds
    the number of iterations. *)
Definition repeatMatcher (m : State -> K -> option State) (inner : list nat)
  : nat -> nat -> option nat -> bool -> State -> K -> option State :=
  fix go (fuel min : nat) (max : option nat) (greedy : bool) (x : State) (k : K) :=
    match fuel with
    | O => None
    | S fuel' =>
        match max with
        | Some O => k x
        | _ =>
            let d : K := fun y =>
              if (min =? 0)%nat && (pos y =? pos x)%nat then None
              else go fuel' (Nat.pred min) (option_map Nat.pred max) greedy y k in
            let xr := clearCaps inner x in
            if negb (min =? 0)%nat then m xr d
            else if greedy
            then match m xr d with Some z => Some z | None => k x end
            else match k x with Some z => Some z | None => m xr d end
        end
    end.

Fixpoint matcher (ignoreCase : bool) (r : t) (x : State) (k : K) {struct r}
  : option State :=
  match r with
  | Eps => k x
  | Chr c => char (fun ch => bool_decide (canon ignoreCase c = canon ignoreCase ch)) x k
  | Dot => char (fun ch => negb (isLineTerminator ch)) x k
  | Cls negated items =>
      char (fun ch => xorb negated (existsb (fun it => itemMatches ignoreCase it ch) items)) x k
  | Seq r1 r2 => matcher ignoreCase r1 x (fun y => matcher ignoreCase r2 y k)
  | Alt r1 r2 =>
      match matcher ignoreCase r1 x k with
      | Some z => Some z
      | None => matcher ignoreCase r2 x k
      end
  | Rep r min max greedy =>
      repeatMatcher (matcher ignoreCase r) (groupsOf r)
                    (min + length (rest x) + 1) min max greedy x k
  | Group i r =>
      matcher ignoreCase r x
              (fun y => k (mkState (pos y) (rest y) (prev y)
                                   ((i, (pos x, pos y)) :: caps y)))
  | Bol => if (pos x =? 0)%nat then k x else None
  | Eol => match rest x with [] => k x | _ => None end
  | WordB =>
      if xorb (isWordAt (prev x)) (isWordAt (head (rest x))) then k x else None
  end.

(** A match: [match.index], [match[0]] and [match[1]], [match[2]], ... *)
Record Match : Type := mkMatch {
  index : nat;
  text : string;
  groups : list (option string)
}.

Definition slice (input : list ascii) (a b : nat) : string :=
  str (take (b - a) (drop a input)).

Definition capture (input : list ascii) (caps : list (nat * (nat * nat))) (i : nat)
  : option string :=
  match List.find (fun c => (fst c =? i)%nat) caps with
  | Some (_, (a, b)) => Some (slice input a b)
  | None => None
  end.

Definition toMatch (r : t) (input : list ascii) (start : nat) (x : State) : Match :=
  mkMatch start (slice input start (pos x))
          (map (capture input (caps x)) (seq 1 (nGroups r))).

(** The leftmost match that starts at [i] or later; [rest] is the input from
    [i] on and [prev] the character before it. *)
Fixpoint search (ignoreCase : bool) (r : t) (input : list ascii)
    (i : nat) (prev : option ascii) (rest : list ascii) : option Match :=
  match matcher ignoreCase r (mkState i rest prev []) Some with
  | Some x => Some (toMatch r input i x)
  | None =>
      match rest with
      | [] => None
      | ch :: tl => search ignoreCase r input (S i) (Some ch) tl
      end
  end.

(** RegExpBuiltinExec from [lastIndex]. *)
Definition execFrom (ignoreCase : bool) (r : t) (input : list ascii) (lastIndex : nat)
  : option Match :=
  if (length input <? lastIndex)%nat then None
  else search ignoreCase r input lastIndex
              (match lastIndex with O => None | S j => input !! j end)
              (drop lastIndex input).

(** [pattern.test(s)] for a pattern without the [g] flag. *)
Definition test (ignoreCase : bool) (r : t) (s : string) : bool :=
  match execFrom ignoreCase r (chars s) 0 with Some _ => true | None => false end.

Fixpoint matchAllFrom (fuel : nat) (ignoreCase : bool) (r : t) (input : list ascii)
    (lastIndex : nat) : list Match :=
  match fuel with
  | O => []
  | S fuel' =>
      match execFrom ignoreCase r input lastIndex with
      | None => []
      | Some m =>
          let e := (index m + String.length (text m))%nat in
          m :: matchAllFrom fuel' ignoreCase r input
                 (if (String.length (text m) =? 0)%nat then S e else e)
      end
  end.

(** [[...s.matchAll(pattern)]] for a pattern with the [g] flag whose
    [lastIndex] is 0. Every match moves [lastIndex] forward, so
    [s.length + 1] searches find them all. *)
Definition matchAll (ignoreCase : bool) (r : t) (s : string) : list Match :=
  matchAllFrom (String.length s + 1) ignoreCase r (chars s) 0.

(** [[...s.matchAll(pattern)]] for a pattern with the [g] flag whose
    [lastIndex] is [lastIndex]: the search runs on a copy of the pattern
    that starts with this [lastIndex]. *)
Definition matchAllAt (ignoreCase : bool) (r : t) (s : string) (lastIndex : nat)
  : list Match :=
  matchAllFrom (String.length s + 1) ignoreCase r (chars s) lastIndex.

(** [s.match(pattern)] for a pattern with the [g] flag: the matched strings,
    or [null] when there is none. The result carries no [index]. *)
Definition matchGlobal (ignoreCase : bool) (r : t) (s : string) : option (list string) :=
  match matchAll ignoreCase r s with
  | [] => None
  | ms => Some (map text ms)
  end.

(** *** Declarative reading

    [Sem ic r x y]: the pattern [r] matches the input between the states
    [x] and [y]; an iteration of a quantifier that is not required matches
    at least one character. It is the relation that the backtracking matcher
    explores: whenever the matcher succeeds, it has called its continuation
    on a state related to the start state (lemma [matcher_sound]), and it
    succeeds whenever its continuation succeeds on some related state (lemma
    [matcher_complete]). *)

Definition advance (x : State) (ch : ascii) (tl : list ascii) : State :=
  mkState (S (pos x)) tl (Some ch) (caps x).

Definition setCap (i : nat) (x y : State) : State :=
  mkState (pos y) (rest y) (prev y) ((i, (pos x, pos y)) :: caps y).

Inductive Sem (ic : bool) : t -> State -> State -> Prop :=
| SemEps x : Sem ic Eps x x
| SemChr c x ch tl :
    rest x = ch :: tl -> canon ic c = canon ic ch ->
    Sem ic (Chr c) x (advance x ch tl)
| SemDot x ch tl :
    rest x = ch :: tl -> isLineTerminator ch = false ->
    Sem ic Dot x (advance x ch tl)
| SemCls negated items x ch tl :
    rest x = ch :: tl ->
    xorb negated (existsb (fun it => itemMatches ic it ch) items) = true ->
    Sem ic (Cls negated items) x (advance x ch tl)
| SemSeq r1 r2 x y z :
    Sem ic r1 x y -> Sem ic r2 y z -> Sem ic (Seq r1 r2) x z
| SemAltL r1 r2 x y : Sem ic r1 x y -> Sem ic (Alt r1 r2) x y
| SemAltR r1 r2 x y : Sem ic r2 x y -> Sem ic (Alt r1 r2) x y
| SemRepStop r min max greedy x :
    min = 0%nat \/ max = Some 0%nat ->
    Sem ic (Rep r min max greedy) x x
| SemRepStep r min max greedy x y z :
    max <> Some 0%nat ->
    Sem ic r (clearCaps (groupsOf r) x) y ->
    (min = 0%nat -> pos y <> pos x) ->
    Sem ic (Rep r (Nat.pred min) (option_map Nat.pred max) greedy) y z ->
    Sem ic (Rep r min max greedy) x z
| SemGroup i r x y : Sem ic r x y -> Sem ic (Group i r) x (setCap i x y)
| SemBol x : pos x = 0%nat -> Sem ic Bol x x
| SemEol x : rest x = [] -> Sem ic Eol x x
| SemWordB x :
    xorb (isWordAt (prev x)) (isWordAt (head (rest x))) = true ->
    Sem ic WordB x x.

(** The character before the position reached after [skipped], when the
    character before [skipped] is [before]. *)
Definition prevOf (before : option ascii) (skipped : list ascii) : option ascii :=
  match last skipped with
  | Some ch => Some ch
  | None => before
  end.

(** The group [i] is set. *)
Definition hasCap (i : nat) (x : State) : Prop :=
  exists ab, In (i, ab) (caps x).

(** Every match of [r] sets the group [i]. *)
Fixpoint defines (i : nat) (r : t) : bool :=
  match r with
  | Seq r1 r2 => defines i r1 || defines i r2
  | Alt r1 r2 => defines i r1 && defines i r2
  | Group j r => (j =? i)%nat || defines i r
  | _ => false
  end.

(** The groups that a match of [r] may reset: those inside a quantifier. *)
Fixpoint resets (r : t) : list nat :=
  match r with
  | Seq r1 r2 | Alt r1 r2 => resets r1 ++ resets r2
  | Rep r _ _ _ => groupsOf r
  | Group _ r => resets r
  | _ => []
  end.

End Regex.

(** ** Numbers

    The Number values of the text items, of the viewports and of the
    geotechnical comparison are IEEE 754 binary64 values; they are modelled
    by [spec_float] with 53 bits of precision, with the operations of the
    Standard Library, which round to nearest, ties to even. *)

Module Float.

Definition prec : Z := 53.
Definition emax : Z := 1024.

Definition t : Type := spec_float.

Definition add : t -> t -> t := SFadd prec emax.
Definition sub : t -> t -> t := SFsub prec emax.
Definition abs : t -> t := SFabs.
Definition leb : t -> t -> bool := SFleb.
Definition ltb : t -> t -> bool := SFltb.
Definition eqb : t -> t -> bool := SFeqb.

Definition isNaN (v : t) : bool :=
  match v with S754_nan => true | _ => false end.

(** The Number value of the rational [n / d]: the quotient, rounded once. *)
Definition ofRatio (negative : bool) (n : N) (d : positive) : t :=
  match n with
  | N0 => S754_zero negative
  | Npos p => SFdiv prec emax (S754_finite negative p 0) (S754_finite false d 0)
  end.

(** The Number value of [digits * 10 ^ exponent]. *)
Definition ofDecimal (negative : bool) (digits : N) (exponent : Z) : t :=
  match exponent with
  | Zneg e => ofRatio negative digits (Pos.pow 10 e)
  | Z0 => ofRatio negative digits 1
  | Zpos e => ofRatio negative (digits * Npos (Pos.pow 10 e)) 1
  end.

(** [Math.min(a, b)] for two numbers that are not [NaN]. *)
Definition min (a b : t) : t := if ltb b a then b else a.

Definition mul : t -> t -> t := SFmul prec emax.
Definition div : t -> t -> t := SFdiv prec emax.

(** [Math.sqrt]: the square root of IEEE 754, correctly rounded, which is
    what the engines compute. *)
Definition sqrt : t -> t := SFsqrt prec emax.

(** The Number value of an integer. *)
Definition ofZ (z : Z) : t := ofDecimal (z <? 0) (Z.abs_N z) 0.

(** [v || 0]: [NaN] and the two zeros are falsy. *)
Definition orZero (v : t) : t :=
  match v with
  | S754_nan | S754_zero _ => S754_zero false
  | _ => v
  end.

(** [Math.max(a, b)]: [NaN] when an argument is; [+0] is above [-0]. *)
Definition mathMax (a b : t) : t :=
  match SFcompare a b with
  | None => S754_nan
  | Some Lt => b
  | Some Gt => a
  | Some Eq =>
      match a, b with
      | S754_zero true, S754_zero false => b
      | _, _ => a
      end
  end.

(** [Math.min(a, b)]: [NaN] when an argument is; [-0] is below [+0]. *)
Definition mathMin (a b : t) : t :=
  match SFcompare a b with
  | None => S754_nan
  | Some Lt => a
  | Some Gt => b
  | Some Eq =>
      match a, b with
      | S754_zero false, S754_zero true => b
      | _, _ => a
      end
  end.

(** The integer [n], with the sign [negative] when it is zero. *)
Definition integer (negative : bool) (n : Z) : t :=
  if n =? 0 then S754_zero negative else ofZ n.

(** [Math.floor(x)]. A finite number with a negative exponent is below
    [2 ^ 53] in magnitude, so that its integer part is a Number. *)
Definition floor (x : t) : t :=
  match x with
  | S754_finite negative m e =>
      if 0 <=? e then x
      else
        let q := Z.pos m / 2 ^ (- e) in
        let whole := Z.pos m mod 2 ^ (- e) =? 0 in
        if negative then integer true (- (if whole then q else q + 1))
        else integer false q
  | _ => x
  end.

(** [Math.ceil(x)] *)
Definition ceil (x : t) : t :=
  match x with
  | S754_finite negative m e =>
      if 0 <=? e then x
      else
        let q := Z.pos m / 2 ^ (- e) in
        let whole := Z.pos m mod 2 ^ (- e) =? 0 in
        if negative then integer true (- q)
        else integer false (if whole then q else q + 1)
  | _ => x
  end.

(** *** [parseFloat]

    The longest prefix of the trimmed string that is a decimal literal:
    an optional sign, then [Infinity] or digits with an optional fraction
    and an optional exponent; [NaN] when there is none. *)

Fixpoint spanDigits (l : list ascii) : list ascii * list ascii :=
  match l with
  | c :: tl =>
      if Text.isDigit c
      then let '(ds, r) := spanDigits tl in (c :: ds, r)
      else ([], l)
  | [] => ([], [])
  end.

Definition digitValue (c : ascii) : N := N.of_nat (Text.code c - 48).

Definition digitsValue (ds : list ascii) : N :=
  fold_left (fun acc c => (acc * 10 + digitValue c)%N) ds 0%N.

(** The exponent part at the head of [l], when it is complete. *)
Definition exponentPart (l : list ascii) : Z :=
  match l with
  | c :: tl =>
      if bool_decide (c = "e"%char) || bool_decide (c = "E"%char)
      then
        let '(negative, tl') :=
          match tl with
          | s :: tl' =>
              if bool_decide (s = "-"%char) then (true, tl')
              else if bool_decide (s = "+"%char) then (false, tl')
              else (false, tl)
          | [] => (false, tl)
          end in
        match spanDigits tl' with
        | ([], _) => 0
        | (ds, _) =>
            if negative then - Z.of_N (digitsValue ds) else Z.of_N (digitsValue ds)
        end
      else 0
  | [] => 0
  end.

Definition parseUnsigned (negative : bool) (l : list ascii) : t :=
  if Text.startsWith (Text.chars "Infinity") l then S754_infinity negative
  else
    let '(ip, r1) := spanDigits l in
    let '(fp, r2) :=
      match r1 with
      | c :: tl => if bool_decide (c = "."%char) then spanDigits tl else ([], r1)
      | [] => ([], r1)
      end in
    match ip, fp with
    | [], [] => S754_nan
    | _, _ =>
        ofDecimal negative (digitsValue (ip ++ fp))
                  (exponentPart r2 - Z.of_nat (length fp))
    end.

Definition parseFloat (s : string) : t :=
  match Text.dropSpaces (Text.chars s) with
  | c :: tl =>
      if bool_decide (c = "-"%char) then parseUnsigned true tl
      else if bool_decide (c = "+"%char) then parseUnsigned false tl
      else parseUnsigned false (c :: tl)
  | [] => S754_nan
  end.

(** *** [Number.prototype.toString]

    For a finite [x > 0]: the least [k] such that some integer [s] of [k]
    digits and some [n] give the Number value [x] for [s * 10 ^ (n - k)];
    among the candidates [s] the one closest to [x]. *)

(** [m * 2 ^ e] as a fraction of positive integers. *)
Definition fraction (m : positive) (e : Z) : positive * positive :=
  match e with
  | Zneg p => (m, Pos.pow 2 p)
  | Z0 => (m, 1%positive)
  | Zpos p => ((m * Pos.pow 2 p)%positive, 1%positive)
  end.

Definition pow10 (n : Z) : Z := 10 ^ n.

(** [num / den < 10 ^ n] *)
Definition belowPow10 (num den : positive) (n : Z) : bool :=
  if 0 <=? n then Zpos num <? Zpos den * pow10 n
  else Zpos num * pow10 (- n) <? Zpos den.

(** The [n] with [10 ^ (n - 1) <= num / den < 10 ^ n], searched upwards
    from [n]. *)
Fixpoint magnitudeFrom (fuel : nat) (num den : positive) (n : Z) : Z :=
  match fuel with
  | O => n
  | S fuel' => if belowPow10 num den n then n else magnitudeFrom fuel' num den (n + 1)
  end.

Definition magnitude (num den : positive) : Z := magnitudeFrom 700 num den (-330).

(** The candidates of [k] digits: [s] and [n] with
    [s * 10 ^ (n - k)] just below and just above [num / den]. *)
Definition candidates (num den : positive) (n : Z) (k : Z) : list (Z * Z) :=
  let scaledNum := if 0 <=? n - k then Zpos num else Zpos num * pow10 (k - n) in
  let scaledDen := if 0 <=? n - k then Zpos den * pow10 (n - k) else Zpos den in
  let lo := scaledNum / scaledDen in
  let twice := 2 * (scaledNum - lo * scaledDen) in
  let hi := if lo + 1 =? pow10 k then (pow10 (k - 1), n + 1) else (lo + 1, n) in
  (* the closer candidate first; the even one first on a tie *)
  if (twice <? scaledDen) || ((twice =? scaledDen) && Z.even lo)
  then [(lo, n); hi] else [hi; (lo, n)].

Definition roundTrips (x : t) (k : Z) (c : Z * Z) : bool :=
  let '(s, n) := c in
  (pow10 (k - 1) <=? s) && eqb (ofDecimal false (Z.to_N s) (n - k)) x.

Fixpoint shortest (fuel : nat) (x : t) (num den : positive) (n : Z) (k : Z)
  : Z * Z * Z :=
  match fuel with
  | O => (0, n, k)
  | S fuel' =>
      match List.find (roundTrips x k) (candidates num den n k) with
      | Some (s, n') => (s, n', k)
      | None => shortest fuel' x num den n (k + 1)
      end
  end.

Fixpoint digitsOf (fuel : nat) (s : Z) (acc : list ascii) : list ascii :=
  match fuel with
  | O => acc
  | S fuel' =>
      let acc' := ascii_of_nat (48 + Z.to_nat (s mod 10)) :: acc in
      if s <? 10 then acc' else digitsOf fuel' (s / 10) acc'
  end.

Definition showZ (z : Z) : list ascii := digitsOf 400 (Z.abs z) [].

Definition layout (ds : list ascii) (n k : Z) : list ascii :=
  if (k <=? n) && (n <=? 21) then ds ++ repeat "0"%char (Z.to_nat (n - k))
  else if (0 <? n) && (n <=? 21)
  then take (Z.to_nat n) ds ++ "."%char :: drop (Z.to_nat n) ds
  else if (-6 <? n) && (n <=? 0)
  then "0"%char :: "."%char :: repeat "0"%char (Z.to_nat (- n)) ++ ds
  else
    let e := n - 1 in
    let sign := if e <? 0 then "-"%char else "+"%char in
    match ds with
    | [d] => d :: "e"%char :: sign :: showZ e
    | d :: tl => d :: "."%char :: tl ++ "e"%char :: sign :: showZ e
    | [] => []
    end.

Definition toString (x : t) : string :=
  match x with
  | S754_nan => "NaN"
  | S754_zero _ => "0"
  | S754_infinity negative => if negative then "-Infinity" else "Infinity"
  | S754_finite negative m e =>
      let '(num, den) := fraction m e in
      let '(s, n, k) :=
        shortest 17 (S754_finite false m e) num den (magnitude num den) 1 in
      Text.str ((if negative then ["-"%char] else []) ++ layout (showZ s) n k)
  end%string.

End Float.

(** ** PDF pages

    The page objects handed to the text-driven analyzers. The numbers of a
    text item and of a viewport are Number values. *)

Module Pdf.

(** A six-entry transform array [[t0, t1, t2, t3, t4, t5]]. *)
Record Transform : Type := mkTransform {
  t0 : Float.t; t1 : Float.t; t2 : Float.t; t3 : Float.t; t4 : Float.t; t5 : Float.t
}.

Record TextItem : Type := mkItem {
  str : string;
  transform : Transform;
  width : Float.t;
  height : Float.t
}.

Record Viewport : Type := mkViewport {
  vtransform : Transform;
  scale : Float.t;
  vwidth : Float.t;
  vheight : Float.t
}.

(** [textItems] is [None] when the page object has no such property. *)
Record Page : Type := mkPage {
  textItems : option (list TextItem);
  viewport : Viewport
}.

(** A transform, an item and a viewport with integer entries. *)
Definition transformZ (a b c d e f : Z) : Transform :=
  mkTransform (Float.ofZ a) (Float.ofZ b) (Float.ofZ c) (Float.ofZ d) (Float.ofZ e)
              (Float.ofZ f).

Definition itemZ (str : string) (fontSize x y width height : Z) : TextItem :=
  mkItem str (transformZ fontSize 0 0 fontSize x y) (Float.ofZ width) (Float.ofZ height).

(** The viewport of a page of [width] by [height] units at [scale]:
    [[scale, 0, 0, -scale, 0, height * scale]]. *)
Definition viewportZ (scale width height : Z) : Viewport :=
  mkViewport (transformZ scale 0 0 (- scale) 0 (height * scale))
             (Float.ofZ scale) (Float.ofZ (width * scale)) (Float.ofZ (height * scale)).

End Pdf.

(** ** Missing-reference analyzer *)

Module NoRefs.

Import Pdf Regex.

(** The object pushed for a match. *)
Record Location : Type := mkLocation {
  x : Float.t;
  y : Float.t;
  width : Float.t;
  height : Float.t;
  text : string;
  detectionMethod : string;
  isCanvasCoords : bool
}.

(** [/^-{1,4}\/-{1,4}[.,;:]?$/] *)
Definition noRefPattern : Regex.t :=
  seqs [Bol;
        between 1 4 (Chr "-"); Chr "/"; between 1 4 (Chr "-");
        opt (Cls false [IChar "."; IChar ","; IChar ";"; IChar ":"]);
        Eol].

(** The placeholders as the design describes them: one to four dashes, a
    slash, one to four dashes, and at most one trailing punctuation mark. *)
Definition dashes (n : nat) : string := Text.str (repeat "-"%char n).

Definition isPlaceholder (s : string) : Prop :=
  exists (m n : nat) (p : string),
    (1 <= m <= 4)%nat /\ (1 <= n <= 4)%nat
    /\ In p [""; "."; ","; ";"; ":"]%string
    /\ s = (dashes m ++ "/" ++ dashes n ++ p)%string.

(** The body of the loop for an item whose trimmed text matches. *)
Definition locate (viewport : Viewport) (item : TextItem) : Location :=
  let viewportTransform := vtransform viewport in
  let pdfX := t4 (transform item) in
  let pdfY := t5 (transform item) in
  let canvasX := Float.add (Float.mul (t0 viewportTransform) pdfX) (t4 viewportTransform) in
  let canvasY := Float.add (Float.mul (t3 viewportTransform) pdfY) (t5 viewportTransform) in
  let scale := Pdf.scale viewport in
  let width := Float.ceil (Float.mul (Pdf.width item) scale) in
  let height := Float.ceil (Float.mul (Pdf.height item) scale) in
  {| x := Float.floor canvasX;
     y := Float.sub (Float.floor canvasY) height;
     width := width;
     height := height;
     text := Text.trim (str item);
     detectionMethod := "pdf-text";
     isCanvasCoords := true |}.

Definition isNoRef (item : TextItem) : bool :=
  Regex.test false noRefPattern (Text.trim (str item)).

(** A placeholder between two no-break spaces. *)
Definition paddedItem : TextItem :=
  itemZ (String (ascii_of_nat 160) ("-/---" ++ String (ascii_of_nat 160) ""))
        10 100 100 30 10.

(** An item whose position and width, multiplied by 3, round to 1. *)
Definition thirdItem : TextItem :=
  mkItem "-/---"
         (mkTransform (Float.ofZ 10) (Float.ofZ 0) (Float.ofZ 0) (Float.ofZ 10)
                      (Float.parseFloat "0.3333333333333333") (Float.ofZ 100))
         (Float.parseFloat "0.33333333333333337") (Float.ofZ 10).

Definition detectNoRefsFromPDF (pdfPage : option Page) : list Location :=
  match pdfPage with
  | Some page =>
      match textItems page with
      | Some items =>
          flat_map (fun item => if isNoRef item then [locate (viewport page) item] else [])
                   items
      | None => []
      end
  | None => []
  end.

Definition detectNoRefs (onProgress : bool) (pdfPage : option Page)
  : Run (DetectionResult Location) :=
  let '(elements, calls) :=
    match pdfPage with
    | Some page =>
        match textItems page with
        | Some _ =>
            let elements := detectNoRefsFromPDF pdfPage in
            (elements, report onProgress (length elements))
        | None => ([], [])
        end
    | None => ([], [])
    end in
  mkRun (Resolved
           (mkResult (0 <? length elements)%nat
                     (length elements)
                     elements
                     (if (0 <? length elements)%nat
                      then "Found " ++ showNat (length elements) ++ " missing reference(s) (-/---)"
                      else "No missing references detected")%string))
        calls.

End NoRefs.

(** ** Overlapping-text analyzer *)

(** The object that the PDF-text method pushes for a pair of items. *)
Module TextOverlap.

Record t : Type := mk {
  x : Float.t;
  y : Float.t;
  width : Float.t;
  height : Float.t;
  text1 : string;
  text2 : string;
  pixelCount : Float.t;
  detectionMethod : string;
  isCanvasCoords : bool
}.

Definition eq_dec (a b : t) : {a = b} + {a <> b}.
Proof. repeat decide equality. Defined.

End TextOverlap.

Module OverlappingText.

Import Pdf Regex.

(** *** PDF-text method *)

(** [/[a-zA-Z0-9]/] *)
Definition alphanumeric : Regex.t :=
  Cls false [IRange "a" "z"; IRange "A" "Z"; IRange "0" "9"].

(** The array [item.transform] is present in every item. *)
Definition isLikelyText (item : TextItem) : bool :=
  let text := Text.trim (str item) in
  if (String.length text =? 0)%nat then false
  else if (String.length text =? 1)%nat && negb (Regex.test false alphanumeric text)
  then false
  else if Float.ltb (height item) (Float.ofZ 4) || Float.ltb (width item) (Float.ofZ 4)
  then false
  else if Float.ltb (Float.abs (t0 (transform item))) (Float.ofZ 4) then false
  else true.

(** [/^\d{3}[A-Z]{1,2}\d{3}$/i] *)
Definition standalonePattern : Regex.t :=
  seqs [Bol; Rep digit 3 (Some 3%nat) true;
        between 1 2 (Cls false [IRange "A" "Z"]);
        Rep digit 3 (Some 3%nat) true; Eol].

Definition isStandaloneDetailReference (text : string) : bool :=
  Regex.test true standalonePattern text.

Record Bubble : Type := mkBubble {
  bx : Float.t;
  by_ : Float.t;
  bwidth : Float.t;
  bheight : Float.t;
  centerX : Float.t;
  centerY : Float.t;
  radius : Float.t
}.

Definition half : Float.t := Float.ofDecimal false 5 (-1).

(** The exclusion zone around a standalone detail reference. *)
Definition bubbleRegion (item : TextItem) : Bubble :=
  let x := t4 (transform item) in
  let y := t5 (transform item) in
  let width := Pdf.width item in
  let height := Pdf.height item in
  let padding := Float.mul (Float.mathMax width height) half in
  {| bx := Float.sub x padding;
     by_ := Float.sub y (Float.mul height (Float.ofZ 2));
     bwidth := Float.add width (Float.mul padding (Float.ofZ 2));
     bheight := Float.mul height (Float.ofZ 3);
     centerX := Float.add x (Float.div width (Float.ofZ 2));
     centerY := Float.sub y (Float.mul height half);
     radius := Float.mathMax width (Float.mul height (Float.ofZ 2)) |}.

Definition findCalloutBubbles (textItems : list TextItem) : list Bubble :=
  flat_map (fun item =>
              if isStandaloneDetailReference (Text.trim (str item))
              then [bubbleRegion item] else [])
           textItems.

(** The test of one bubble in [isInsideBubble]: the point is in the
    bounding box of the bubble, or nearer to its centre than its radius. *)
Definition insideOne (cx cy : Float.t) (bubble : Bubble) : bool :=
  (Float.leb (bx bubble) cx && Float.leb cx (Float.add (bx bubble) (bwidth bubble))
   && Float.leb (by_ bubble) cy && Float.leb cy (Float.add (by_ bubble) (bheight bubble)))
  || (let dx := Float.sub cx (centerX bubble) in
      let dy := Float.sub cy (centerY bubble) in
      let distance := Float.sqrt (Float.add (Float.mul dx dx) (Float.mul dy dy)) in
      Float.ltb distance (radius bubble)).

Definition isInsideBubble (x y width height : Float.t) (bubbles : list Bubble) : bool :=
  let cx := Float.add x (Float.div width (Float.ofZ 2)) in
  let cy := Float.add y (Float.div height (Float.ofZ 2)) in
  existsb (insideOne cx cy) bubbles.

Definition itemInsideBubble (item : TextItem) (bubbles : list Bubble) : bool :=
  isInsideBubble (t4 (transform item)) (t5 (transform item))
                 (width item) (height item) bubbles.

Definition isFalsePositiveOverlap (item1 item2 : TextItem) : bool :=
  let text1 := Text.trim (str item1) in
  let text2 := Text.trim (str item2) in
  (String.length text1 <=? 2)%nat && (String.length text2 <=? 2)%nat.

(** The body of the inner loop once neither item is skipped: the region
    pushed for the pair, if any. *)
Definition overlapOf (viewport : Viewport) (item1 item2 : TextItem)
  : option TextOverlap.t :=
  let x1 := t4 (transform item1) in
  let y1 := t5 (transform item1) in
  let x2 := t4 (transform item2) in
  let y2 := t5 (transform item2) in
  let horizontalOverlap :=
    negb (Float.ltb (Float.add x1 (width item1)) x2
          || Float.ltb (Float.add x2 (width item2)) x1) in
  let verticalOverlap :=
    negb (Float.ltb (Float.add y1 (height item1)) y2
          || Float.ltb (Float.add y2 (height item2)) y1) in
  if horizontalOverlap && verticalOverlap then
    let overlapX := Float.mathMax x1 x2 in
    let overlapY := Float.mathMax y1 y2 in
    let overlapWidth :=
      Float.sub (Float.mathMin (Float.add x1 (width item1)) (Float.add x2 (width item2)))
                overlapX in
    let overlapHeight :=
      Float.sub (Float.mathMin (Float.add y1 (height item1)) (Float.add y2 (height item2)))
                overlapY in
    if Float.ltb (Float.ofZ 5) overlapWidth && Float.ltb (Float.ofZ 5) overlapHeight then
      let viewportTransform := vtransform viewport in
      let scale := Pdf.scale viewport in
      let canvasX :=
        Float.add (Float.mul (t0 viewportTransform) overlapX) (t4 viewportTransform) in
      let canvasY :=
        Float.add (Float.mul (t3 viewportTransform) overlapY) (t5 viewportTransform) in
      let scaledHeight := Float.ceil (Float.mul overlapHeight scale) in
      Some {| TextOverlap.x := Float.floor canvasX;
              TextOverlap.y := Float.sub (Float.floor canvasY) scaledHeight;
              TextOverlap.width := Float.ceil (Float.mul overlapWidth scale);
              TextOverlap.height := scaledHeight;
              TextOverlap.text1 := str item1;
              TextOverlap.text2 := str item2;
              TextOverlap.pixelCount :=
                Float.ceil (Float.mul (Float.mul (Float.mul overlapWidth overlapHeight) scale)
                                      scale);
              TextOverlap.detectionMethod := "pdf-text";
              TextOverlap.isCanvasCoords := true |}
    else None
  else None.

(** One turn of the inner loop. *)
Definition checkPair (viewport : Viewport) (bubbles : list Bubble)
    (item1 item2 : TextItem) : list TextOverlap.t :=
  if itemInsideBubble item2 bubbles then []
  else if isFalsePositiveOverlap item1 item2 then []
  else match overlapOf viewport item1 item2 with
       | Some r => [r]
       | None => []
       end.

(** The outer loop over [i], with the inner loop over [j > i]. *)
Fixpoint checkPairs (viewport : Viewport) (bubbles : list Bubble)
    (items : list TextItem) : list TextOverlap.t :=
  match items with
  | [] => []
  | item1 :: rest =>
      (if itemInsideBubble item1 bubbles then []
       else flat_map (checkPair viewport bubbles item1) rest)
      ++ checkPairs viewport bubbles rest
  end.

Definition detectOverlapsFromPDF (pdfPage : option Page) : list TextOverlap.t :=
  match pdfPage with
  | Some page =>
      match textItems page with
      | Some allItems =>
          let textItems := List.filter isLikelyText allItems in
          let bubbles := findCalloutBubbles allItems in
          checkPairs (viewport page) bubbles textItems
      | None => []
      end
  | None => []
  end.

(** The centre of the box of an item, as [isInsideBubble] computes it. *)
Definition centreX (item : TextItem) : Float.t :=
  Float.add (t4 (transform item)) (Float.div (width item) (Float.ofZ 2)).

Definition centreY (item : TextItem) : Float.t :=
  Float.add (t5 (transform item)) (Float.div (height item) (Float.ofZ 2)).

(** The exclusion zone of an anchor as the design describes it: the box of
    the anchor, extended upward by twice its height and padded by half of
    its larger side to the left and to the right. The coordinates of the
    items are PDF coordinates, with the origin at the bottom left, and the
    box of an item reaches from [y] up to [y + height]: upward is the side
    of larger [y]. [item] is in the zone when the centre of its box is. *)
Definition inUpwardZone (anchor item : TextItem) : bool :=
  let x := t4 (transform anchor) in
  let y := t5 (transform anchor) in
  let padding := Float.mul (Float.mathMax (width anchor) (height anchor)) half in
  Float.leb (Float.sub x padding) (centreX item)
  && Float.leb (centreX item) (Float.add (Float.add x (width anchor)) padding)
  && Float.leb y (centreY item)
  && Float.leb (centreY item)
               (Float.add (Float.add y (height anchor))
                          (Float.mul (height anchor) (Float.ofZ 2))).

(** A numbered bubble: the reference [630SX001] and the bubble number [3]
    whose box intersects the box of the reference by 10 x 8 PDF units. *)
Definition bubbleReference : TextItem := itemZ "630SX001" 10 100 100 40 10.

Definition bubbleNumber : TextItem := itemZ "3" 10 115 102 10 10.

Definition bubblePage : Page :=
  mkPage (Some [bubbleNumber; bubbleReference]) (viewportZ 3 600 800).

(** Two notes that overlap each other above the left end of a reference
    whose box is 40 x 10 at (100, 100): their centres, (81, 114) and
    (83, 116), are less than the height of the reference above its box,
    and within its padding of 20 on the left. *)
Definition noteA : TextItem := itemZ "NOTE A" 10 71 110 20 8.

Definition noteB : TextItem := itemZ "NOTE B" 10 73 112 20 8.

Definition notesPage : Page :=
  mkPage (Some [bubbleReference; noteA; noteB]) (viewportZ 3 600 800).

(** The same notes below the left end of the reference, with their centres
    at (81, 86) and (83, 88). *)
Definition noteBelowA : TextItem := itemZ "NOTE A" 10 71 82 20 8.

Definition noteBelowB : TextItem := itemZ "NOTE B" 10 73 84 20 8.

Definition notesBelowPage : Page :=
  mkPage (Some [bubbleReference; noteBelowA; noteBelowB]) (viewportZ 3 600 800).

(** *** Pixel method *)

Import Pixels.

Definition isBlack (r g b : Z) : bool := (r <? 80) && (g <? 80) && (b <? 80).

Definition tagPixel (e : Region.t) : Region.t :=
  {| Region.x := Region.x e; Region.y := Region.y e;
     Region.width := Region.width e; Region.height := Region.height e;
     Region.pixelCount := Region.pixelCount e;
     Region.detectionMethod := Some "pixel"%string;
     Region.isCanvasCoords := Some true |}.

Definition traceBlackRegion (data : list Z) (width height startX startY : Z)
    (visited : gset (Z * Z)) : Region.t * gset (Z * Z) :=
  let '(e, v) := trace isBlack 10000 data width height startX startY visited in
  (tagPixel e, v).

(** [blackCount / totalCount] over the box, clipped to the image. *)
Definition calculateDensity (data : list Z) (width height : Z) (element : Region.t)
  : JsNum.t :=
  let xs := range (Region.x element)
                  (Z.min (Region.x element + Region.width element) width) 1 in
  let ys := range (Region.y element)
                  (Z.min (Region.y element + Region.height element) height) 1 in
  let ps := flat_map (fun y => map (fun x => (x, y)) xs) ys in
  let totalCount := Z.of_nat (length ps) in
  let blackCount := Highlights.countPixels isBlack data width ps in
  JsNum.div blackCount totalCount.

(** The number of changes between black and not black along a scanline,
    starting from not black. *)
Fixpoint transitions (prevBlack : bool) (blacks : list bool) : nat :=
  match blacks with
  | [] => 0
  | b :: tl => ((if eqb b prevBlack then 0 else 1) + transitions b tl)%nat
  end.

Definition isOverlappingText (data : list Z) (width height : Z) (element : Region.t)
  : bool :=
  let density := calculateDensity data width height element in
  if JsNum.ltb density (32 # 100) || JsNum.gtb density (7 # 10) then false
  else
    let aspectRatio := JsNum.div (Region.width element) (Region.height element) in
    if JsNum.ltb aspectRatio 2 || JsNum.gtb aspectRatio 15 then false
    else if (Region.height element <? 10) || (35 <? Region.height element) then false
    else if Region.width element <? 30 then false
    else
      let sampleLines := Z.min 5 (Region.height element) in
      let xs := range (Region.x element)
                      (Z.min (Region.x element + Region.width element) width) 2 in
      let lineVaries (i : Z) : bool :=
        let y := Region.y element + (Region.height element * i) / sampleLines in
        if height <=? y then false
        else (6 <=? transitions false
                      (map (fun x => satisfies isBlack (rgbAt data width x y)) xs))%nat in
      let linesWithVariation :=
        length (List.filter lineVaries (range 0 sampleLines 1)) in
      (3 <=? linesWithVariation)%nat.

(** Seeds on every third row and sixth column; the regions that look like
    overlapping text are merged. *)
Definition findOverlappingText (data : list Z) (width height : Z) : list Region.t :=
  let elements :=
    findRegions isBlack 10000 tagPixel (isOverlappingText data width height)
                6 3 data width height in
  Merger.mergeNearbyRegions elements.

Definition findOverlappingTextWithProgress (data : list Z) (width height : Z)
    (onProgress : bool) : list Region.t * list nat :=
  let mergedElements := findOverlappingText data width height in
  (mergedElements, report onProgress (length mergedElements)).

(** [elements.some(e => e.text1 && e.text2)] *)
Definition hasTextInfo (elements : list TextOverlap.t) : bool :=
  existsb (fun e =>
             negb (String.length (TextOverlap.text1 e) =? 0)%nat
             && negb (String.length (TextOverlap.text2 e) =? 0)%nat)
          elements.

Definition detectOverlappingTextPDF (pdfPage : option Page) (onProgress : bool)
  : Run (DetectionResult TextOverlap.t) :=
  let '(elements, calls) :=
    match pdfPage with
    | Some page =>
        match textItems page with
        | Some _ =>
            let elements := detectOverlapsFromPDF pdfPage in
            (elements, report onProgress (length elements))
        | None => ([], [])
        end
    | None => ([], [])
    end in
  let message :=
    (if (0 <? length elements)%nat
     then if hasTextInfo elements
          then "Found " ++ showNat (length elements)
               ++ " overlapping text region(s) with text content (PDF analysis)"
          else "Found " ++ showNat (length elements)
               ++ " overlapping text region(s) (PDF analysis)"
     else "No overlapping text detected (PDF analysis)")%string in
  mkRun (Resolved (mkResult (0 <? length elements)%nat (length elements) elements message))
        calls.

Definition detectOverlappingTextPixel (imageData : ImageData) (onProgress : bool)
  : Run (DetectionResult Region.t) :=
  let '(elements, calls) :=
    findOverlappingTextWithProgress (data imageData) (Pixels.width imageData)
                                    (Pixels.height imageData) onProgress in
  mkRun (Resolved
           (mkResult (0 <? length elements)%nat
                     (length elements)
                     elements
                     (if (0 <? length elements)%nat
                      then "Found " ++ showNat (length elements)
                           ++ " overlapping text region(s) (pixel analysis)"
                      else "No overlapping text detected (pixel analysis)")%string))
        calls.

(** An entry of the array that the main function returns: an object of
    the PDF-text method or one of the pixel method. *)
Inductive Element : Type :=
| FromText (o : TextOverlap.t)
| FromPixels (r : Region.t).

Definition element_eq_dec (a b : Element) : {a = b} + {a <> b}.
Proof. decide equality; [apply TextOverlap.eq_dec|apply Region.eq_dec]. Defined.

(** The main function: both methods, results concatenated. The two
    branches on [hasTextInfo] build the same message. *)
Definition detectOverlappingText (imageData : ImageData) (onProgress : bool)
    (pdfPage : option Page) : Run (DetectionResult Element) :=
  let pdfElements :=
    match pdfPage with
    | Some page =>
        match textItems page with
        | Some _ => detectOverlapsFromPDF pdfPage
        | None => []
        end
    | None => []
    end in
  let pixelElements :=
    findOverlappingText (data imageData) (Pixels.width imageData)
                        (Pixels.height imageData) in
  let allElements := map FromText pdfElements ++ map FromPixels pixelElements in
  let message :=
    (if (0 <? length allElements)%nat
     then "Found " ++ showNat (length allElements) ++ " overlapping text region(s) ("
          ++ showNat (length pdfElements) ++ " PDF, "
          ++ showNat (length pixelElements) ++ " pixel)"
     else "No overlapping text detected")%string in
  mkRun (Resolved (mkResult (0 <? length allElements)%nat (length allElements)
                            allElements message))
        (report onProgress (length allElements)).

End OverlappingText.

(** ** Geotechnical patterns (geotechPatterns.js) *)

Module Config.

(** An entry of [SEISMIC_PATTERNS]. Every pattern carries the flags [gi]. *)
Record t : Type := mk {
  label : string;
  fullName : string;
  patterns : list Regex.t;
  type : string;
  validValues : option (list string)
}.

End Config.

Module GeotechPatterns.

Import Regex.

(** [\s*] and [\s+] *)
Definition ws0 : Regex.t := star space.
Definition ws1 : Regex.t := plus space.

(** The words of a phrase, separated by [\s+]. *)
Fixpoint words (ws : list string) : Regex.t :=
  match ws with
  | [] => Eps
  | [w] => lit w
  | w :: tl => Seq (lit w) (Seq ws1 (words tl))
  end.

(** [.*?] *)
Definition any : Regex.t := lazyStar Dot.

(** [[=:]] and [[=:,]] *)
Definition eqColon : Regex.t := Cls false [IChar "="; IChar ":"].
Definition eqColonComma : Regex.t := Cls false [IChar "="; IChar ":"; IChar ","].

(** [[_\s]?] *)
Definition sep : Regex.t := opt (Cls false [IChar "_"; ISpace]).

(** [[-–]]: the hyphen and the en dash U+2013. *)
Definition dash : Regex.t := Cls false [IChar "-"; ICode 8211%N].

(** The capturing groups for numbers: [\d+\.?\d+] (A), [\d+\.?\d* ] (B),
    [\d+\.\d+] (C), [\d{1,2}(?:\.\d+)?] (D) and [\d{1,2}\.\d+] (E). *)
Definition numA : Regex.t := Group 1 (seqs [plus digit; opt (Chr "."); plus digit]).
Definition numB : Regex.t := Group 1 (seqs [plus digit; opt (Chr "."); star digit]).
Definition numC : Regex.t := Group 1 (seqs [plus digit; Chr "."; plus digit]).
Definition numD : Regex.t :=
  Group 1 (seqs [between 1 2 digit; opt (seqs [Chr "."; plus digit])]).
Definition numE : Regex.t := Group 1 (seqs [between 1 2 digit; Chr "."; plus digit]).

(** [([A-F])\b] and [(I{1,3}|IV)\b] *)
Definition classAF : Regex.t := Seq (Group 1 (Cls false [IRange "A" "F"])) WordB.
Definition roman : Regex.t :=
  Seq (Group 1 (Alt (between 1 3 (Chr "I")) (lit "IV"))) WordB.

(** The six patterns shared by [Sds] and [Sd1], and the five shared by [Sms]
    and [Sm1], for the two letters [xy] after the [S]. *)
Definition spectral (xy : string) : list Regex.t :=
  [ seqs [Chr "S"; ws0; lit xy; ws0; Chr ":"; ws0; numA];
    seqs [lit ("S" ++ xy); ws0; Chr ":"; ws0; numA];
    seqs [Chr "S"; sep; lit xy; ws0; Chr "="; ws0; numB];
    seqs [lit ("S_" ++ xy); ws1; numC; ws0; Chr "g"];
    seqs [lit ("S" ++ xy); ws1; numC; ws0; Chr "g"];
    seqs [Chr "S"; ws1; lit xy; ws1; numC; ws0; Chr "g"] ]%string.

Definition modified (xy : string) : list Regex.t :=
  [ seqs [Chr "S"; ws0; lit xy; ws0; Chr ":"; ws0; numA];
    seqs [lit ("S" ++ xy); ws0; Chr ":"; ws0; numA];
    seqs [lit ("S_" ++ xy); ws1; numC; ws0; Chr "g"];
    seqs [lit ("S" ++ xy); ws1; numC; ws0; Chr "g"];
    seqs [Chr "S"; ws1; lit xy; ws1; numC; ws0; Chr "g"];
    seqs [lit ("S_" ++ xy); ws0; Chr "="; ws0; numC];
    seqs [lit ("S" ++ xy); ws0; Chr "="; ws0; numC] ]%string.

(** [1\s*[-–]\s*Second] *)
Definition oneSecond : Regex.t := seqs [Chr "1"; ws0; dash; ws0; lit "Second"].

Definition Sds : Config.t :=
  Config.mk "Sds" "Design Spectral Response Acceleration (Short Period)"
    (spectral "DS" ++
     [ seqs [words ["Design"; "Spectral"; "Response"; "Acceleration"]; ws1; any;
             Chr "("; any; lit "short"; any; lit "period"; any; Chr ")"; any;
             eqColon; ws0; numC];
       seqs [words ["Short"; "Period"; "Design"; "Spectral"; "Response"; "Acceleration"];
             ws0; eqColon; ws0; numC];
       seqs [words ["Adjusted"; "Short"; "Period"; "Spectral"; "Acceleration"];
             ws0; eqColon; ws0; numC] ])
    "numeric" None.

Definition Sd1 : Config.t :=
  Config.mk "Sd1" "Design Spectral Response Acceleration (1-Second)"
    (spectral "D1" ++
     [ seqs [words ["Design"; "Spectral"; "Response"; "Acceleration"]; ws1; any;
             Chr "("; any; Chr "1"; any; lit "second"; any; Chr ")"; any;
             eqColon; ws0; numC];
       seqs [oneSecond; ws1; words ["Design"; "Spectral"; "Response"; "Acceleration"];
             ws0; eqColon; ws0; numC];
       seqs [lit "Adjusted"; ws1; oneSecond; ws1; words ["Spectral"; "Acceleration"];
             ws0; eqColon; ws0; numC] ])
    "numeric" None.

Definition Sms : Config.t :=
  Config.mk "Sms" "Site-Modified MCER Spectral Response (Short Period)"
    (modified "MS") "numeric" None.

Definition Sm1 : Config.t :=
  Config.mk "Sm1" "Site-Modified MCER Spectral Response (1-Second)"
    (modified "M1") "numeric" None.

Definition Ss : Config.t :=
  Config.mk "Ss" "MCER Spectral Response Acceleration (Short Period)"
    [ seqs [words ["Mapped"; "Spectral"; "Response"; "Acceleration"; "at"; "0.2-second";
                   "period"]; opt (Chr ","); ws1;
            Chr "S"; Cls false [IChar "s"; IChar "S"]; ws1; numD; ws0; Chr "g"];
      seqs [WordB; Chr "S"; ws1; Chr "S"; ws0; eqColonComma; ws0; numD; ws0;
            opt (Chr "g"); WordB];
      seqs [WordB; lit "SS"; ws0; eqColonComma; ws0; numD; ws0; opt (Chr "g"); WordB];
      seqs [WordB; lit "Ss"; ws0; Chr "="; ws0; numD; WordB];
      seqs [lit "MCER"; ws1; any; words ["Short"; "Period"]; ws1; any; eqColon; ws0; numE];
      seqs [words ["Mapped"; "Spectral"; "Acceleration"]; ws1; any;
            words ["Short"; "Period"]; any; eqColon; ws0; numE];
      seqs [lit "Risk"; ws0; dash; ws0; lit "Targeted"; ws1; any;
            words ["Short"; "Period"]; any; eqColon; ws0; numE] ]
    "numeric" None.

(** The class [[1₁]] of the first pattern holds the digit and the subscript
    one U+2081. *)
Definition S1 : Config.t :=
  Config.mk "S1" "MCER Spectral Response Acceleration (1-Second)"
    [ seqs [words ["Mapped"; "Spectral"; "Response"; "Acceleration"; "at"; "1.0-second";
                   "period"]; opt (Chr ","); ws1;
            Chr "S"; Cls false [IChar "1"; ICode 8321%N]; ws1; numD; ws0; Chr "g"];
      seqs [WordB; Chr "S"; ws1; Chr "1"; ws0; eqColonComma; ws0; numD; ws0;
            opt (Chr "g"); WordB];
      seqs [WordB; lit "S1"; ws0; eqColonComma; ws0; numD; ws0; opt (Chr "g"); WordB];
      seqs [lit "MCER"; ws1; any; oneSecond; any; eqColon; ws0; numE];
      seqs [words ["Mapped"; "Spectral"; "Acceleration"]; ws1; any; oneSecond; any;
            eqColon; ws0; numE];
      seqs [lit "Risk"; ws0; dash; ws0; lit "Targeted"; ws1; any; oneSecond; any;
            eqColon; ws0; numE] ]
    "numeric" None.

Definition Fa : Config.t :=
  Config.mk "Fa" "Site Coefficient (Short Period)"
    [ seqs [lit "Site"; ws1; lit "Coefficient"; opt (Chr ","); ws1; lit "Fa"; ws1; numC];
      seqs [lit "FA"; ws0; eqColonComma; ws0; numC];
      seqs [Chr "F"; sep; Chr "A"; ws0; eqColonComma; ws0; numC];
      seqs [words ["Site"; "Coefficient"]; ws1; any; words ["Short"; "Period"]; any;
            eqColon; ws0; numC];
      seqs [words ["Site"; "Class"; "Modification"; "Factor"]; ws1; any; lit "0.2"; any;
            eqColon; ws0; numC];
      seqs [lit "FPGA"; ws0; eqColon; ws0; numC] ]
    "numeric" None.

Definition Fv : Config.t :=
  Config.mk "Fv" "Site Coefficient (1-Second)"
    [ seqs [lit "FV"; ws0; eqColon; ws0; numC];
      seqs [Chr "F"; sep; Chr "V"; ws0; eqColon; ws0; numC];
      seqs [words ["Site"; "Coefficient"]; ws1; any; oneSecond; any; eqColon; ws0; numC];
      seqs [words ["Site"; "Class"; "Modification"; "Factor"]; ws1; any; lit "1.0"; any;
            eqColon; ws0; numC] ]
    "numeric" None.

Definition siteClass : Config.t :=
  Config.mk "Site Class" "Site Classification"
    [ seqs [words ["Site"; "Class"]; ws1; classAF];
      seqs [words ["Site"; "Class"]; ws0; eqColon; ws0; classAF];
      seqs [words ["Site"; "Classification"]; ws0; eqColon; ws0; classAF];
      seqs [words ["ASCE"; "7"]; any; words ["Site"; "Class"]; ws0; eqColon; ws0; classAF];
      seqs [words ["Seismic"; "Site"; "Class"]; ws0; eqColon; ws0; classAF];
      seqs [words ["The"; "site"; "class"; "is"]; ws1; classAF] ]
    "category" (Some ["A"; "B"; "C"; "D"; "E"; "F"]).

Definition riskCategory : Config.t :=
  Config.mk "Risk Category" "Risk Category"
    [ seqs [words ["RISK"; "CATEGORY:"]; ws0; roman];
      seqs [words ["Risk"; "Category"]; ws0; eqColon; ws0; roman];
      seqs [words ["Seismic"; "Risk"; "Category"]; ws0; eqColon; ws0; roman];
      seqs [words ["ASCE"; "7"]; any; words ["Risk"; "Category"]; ws0; eqColon; ws0; roman];
      seqs [words ["Occupancy"; "Category"]; ws0; eqColon; ws0; roman];
      seqs [words ["The"; "risk"; "category"; "is"]; ws1; roman] ]
    "category" (Some ["I"; "II"; "III"; "IV"]).

Definition seismicDesignCategory : Config.t :=
  Config.mk "SDC" "Seismic Design Category"
    [ seqs [words ["Seismic"; "Design"; "Category"; "for"; "Risk"; "Category"];
            lazyStar (Cls true [IChar ","; IChar (ascii_of_nat 10)]); classAF];
      seqs [words ["SEISMIC"; "DESIGN"; "CATEGORY:"]; ws0; classAF];
      seqs [words ["Seismic"; "Design"; "Category"]; ws1; classAF];
      seqs [words ["Seismic"; "Design"; "Category"]; ws0; eqColon; ws0; classAF];
      seqs [lit "SDC"; ws0; eqColon; ws0; classAF] ]
    "category" (Some ["A"; "B"; "C"; "D"; "E"; "F"]).

(** The table, in the order of its keys. *)
Definition SEISMIC_PATTERNS : list (string * Config.t) :=
  [ ("Sds", Sds); ("Sd1", Sd1); ("Sms", Sms); ("Sm1", Sm1); ("Ss", Ss); ("S1", S1);
    ("Fa", Fa); ("Fv", Fv); ("siteClass", siteClass); ("riskCategory", riskCategory);
    ("seismicDesignCategory", seismicDesignCategory) ]%string.

(** [SEISMIC_PATTERNS[key]] *)
Definition lookup (key : string) : option Config.t :=
  snd <$> List.find (fun kc => String.eqb (fst kc) key) SEISMIC_PATTERNS.

Definition normalizeValue (value : string) (type : string) : string :=
  if String.eqb type "numeric" then
    let num := Float.parseFloat value in
    if Float.isNaN num then value else Float.toString num
  else if String.eqb type "category" then Text.trim (Text.toUpperCase value)
  else Text.trim value.

Definition valuesMatch (value1 value2 : string) (type : string) : bool :=
  if String.eqb type "numeric" then
    let num1 := Float.parseFloat value1 in
    let num2 := Float.parseFloat value2 in
    if Float.isNaN num1 || Float.isNaN num2 then false
    else Float.leb (Float.abs (Float.sub num1 num2)) (Float.ofDecimal false 5 (-3))
  else if String.eqb type "category"
  then String.eqb (Text.trim (Text.toUpperCase value1)) (Text.trim (Text.toUpperCase value2))
  else String.eqb (Text.trim value1) (Text.trim value2).

End GeotechPatterns.

(** ** Geotechnical extractor (geotechExtractor.js) *)

(** A page of extracted text, as [extractTextFromPDF] builds it. *)
Module TextPage.

Record Item : Type := mkItem {
  text : string;
  x : Float.t;
  y : Float.t;
  width : Float.t;
  height : Float.t
}.

Record t : Type := mk {
  pageNumber : nat;
  items : option (list Item);
  fullText : string
}.

End TextPage.

(** An entry of the object returned by [extractSeismicValues]. *)
Module Extracted.

Record t : Type := mk {
  label : string;
  fullName : string;
  value : option string;
  pageNumber : option nat;
  confidence : Float.t;
  type : string
}.

End Extracted.

(** A thrown error. *)
Record Error : Type := mkError {
  errorName : string;
  errorMessage : string
}.

Inductive Result (A : Type) : Type :=
| Ok (a : A)
| Throw (e : Error).

Arguments Ok {A} a.
Arguments Throw {A} e.

Module GeotechExtractor.

Import Regex.

(** [!s] for a string, [undefined] or [null]. *)
Definition falsy (s : option string) : bool :=
  match s with
  | Some v => (String.length v =? 0)%nat
  | None => true
  end.

(** [match[1]] *)
Definition group1 (m : Match) : option string :=
  match groups m with
  | g :: _ => g
  | [] => None
  end.

(** The priority of a match from the text within 100 characters of its
    start: 2 near [SITE SPECIFIC], 1 away from [ASCE] and [SECTION 11],
    0 otherwise. *)
Definition priority (fullText : string) (m : Match) : Z :=
  let contextStart := (index m - 100)%nat in
  let contextEnd := Nat.min (String.length fullText) (index m + 100) in
  let context := Text.toUpperCase (Text.substring fullText contextStart contextEnd) in
  if Text.includes context "SITE SPECIFIC" || Text.includes context "SITE-SPECIFIC" then 2
  else if negb (Text.includes context "ASCE") && negb (Text.includes context "SECTION 11")
  then 1
  else 0.

(** The matches that the loop does not skip: a non-empty first group that,
    for a category with a list of valid values, is one of them. *)
Definition accepted (config : Config.t) (m : Match) : bool :=
  match group1 m with
  | Some rawValue =>
      negb (String.length rawValue =? 0)%nat
      && (if String.eqb (Config.type config) "category"
          then match Config.validValues config with
               | Some valid =>
                   existsb (String.eqb (Text.trim (Text.toUpperCase rawValue))) valid
               | None => true
               end
          else true)
  | None => false
  end.

(** One turn of the loop over the matches of a page. *)
Definition better (config : Config.t) (fullText : string)
    (best : option Match * Z) (m : Match) : option Match * Z :=
  if accepted config m
  then if snd best <? priority fullText m then (Some m, priority fullText m) else best
  else best.

(** [bestMatch] after the loop, starting from [null] and priority [-1]. *)
Definition bestMatch (config : Config.t) (fullText : string) (matches : list Match)
  : option Match :=
  fst (fold_left (better config fullText) matches (None, -1)).

(** [calculateConfidence] *)
Definition calculateConfidence (matchedText label : string) : Float.t :=
  let confidence := Float.ofDecimal false 5 (-1) in
  let confidence :=
    if Text.includes (Text.toLowerCase matchedText) (Text.toLowerCase label)
    then Float.add confidence (Float.ofDecimal false 3 (-1)) else confidence in
  let confidence :=
    if Text.includes matchedText "=" || Text.includes matchedText ":"
    then Float.add confidence (Float.ofDecimal false 2 (-1)) else confidence in
  Float.min confidence (Float.ofDecimal false 1 0).

(** What is stored for a parameter when a page yields a best match. *)
Definition found (config : Config.t) (page : TextPage.t) (m : Match) : Extracted.t :=
  Extracted.mk (Config.label config) (Config.fullName config)
    (Some (GeotechPatterns.normalizeValue (default ""%string (group1 m)) (Config.type config)))
    (Some (TextPage.pageNumber page))
    (calculateConfidence (text m) (Config.label config))
    (Config.type config).

(** The loop over the pages for one pattern: the first page with a best
    match. *)
Fixpoint searchPages (config : Config.t) (pattern : Regex.t) (pages : list TextPage.t)
  : option Extracted.t :=
  match pages with
  | [] => None
  | page :: rest =>
      match bestMatch config (TextPage.fullText page)
                      (matchAll true pattern (TextPage.fullText page)) with
      | Some m => Some (found config page m)
      | None => searchPages config pattern rest
      end
  end.

(** The loop over the patterns of one parameter: the first pattern that is
    found on some page. *)
Fixpoint searchPatterns (config : Config.t) (patterns : list Regex.t)
    (pages : list TextPage.t) : option Extracted.t :=
  match patterns with
  | [] => None
  | pattern :: rest =>
      match searchPages config pattern pages with
      | Some e => Some e
      | None => searchPatterns config rest pages
      end
  end.

Definition notFound (config : Config.t) : Extracted.t :=
  Extracted.mk (Config.label config) (Config.fullName config) None None
               (S754_zero false) (Config.type config).

Definition extractOne (config : Config.t) (pages : list TextPage.t) : Extracted.t :=
  match searchPatterns config (Config.patterns config) pages with
  | Some e => e
  | None => notFound config
  end.

Definition extractSeismicValues (pages : list TextPage.t) : list (string * Extracted.t) :=
  map (fun kc => (fst kc, extractOne (snd kc) pages)) GeotechPatterns.SEISMIC_PATTERNS.

(** [extractedValues[key]] *)
Definition valueOf (key : string) (values : list (string * Extracted.t)) : option Extracted.t :=
  snd <$> List.find (fun kv => String.eqb (fst kv) key) values.

(** The Sds value extracted from a one-page report. *)
Definition sdsOf (fullText : string) : option (option string) :=
  Extracted.value <$> valueOf "Sds" (extractSeismicValues [TextPage.mk 1 (Some []) fullText]).

(** The report page of the design example. *)
Definition reportExample : string :=
  "SDS (ASCE 11.4): 1.20 SDS (Site Specific): 0.95".

(** The same values in the table format that the first pattern reads; the
    whole text lies within 100 characters of the start of either match. *)
Definition reportNear : string :=
  "ASCE 11.4 SDS: 1.20 Site Specific SDS: 0.95".

(** The same, with 120 hyphens between the two columns: [Site Specific]
    starts more than 100 characters after the start of the first match. *)
Definition reportApart : string :=
  ("ASCE 7 Section 11.4 SDS: 1.20 "
   ++ "------------------------------------------------------------"
   ++ "------------------------------------------------------------"
   ++ " Site Specific SDS: 0.95")%string.

(** *** The general notes section *)

Record NotesSection : Type := mkNotes {
  notesPageNumber : nat;
  notesText : string;
  startIndex : option nat;
  fallback : bool
}.

Definition headingPatterns : list Regex.t :=
  [ seqs [lit "LATERAL"; GeotechPatterns.ws1; lit "LOADS"; GeotechPatterns.ws1; lit "SEISMIC:"];
    lit "SEISMIC:";
    seqs [lit "GENERAL"; GeotechPatterns.ws1; lit "NOTE"; opt (Chr "S")];
    seqs [lit "GEN."; GeotechPatterns.ws1; lit "NOTE"; opt (Chr "S")];
    seqs [lit "STRUCTURAL"; GeotechPatterns.ws1; lit "NOTE"; opt (Chr "S")];
    seqs [lit "SEISMIC"; GeotechPatterns.ws1; lit "DESIGN"; GeotechPatterns.ws1; lit "CRITERIA"] ].

(** The section cut out of a page on which a heading pattern matches. The
    patterns carry the [g] flag, so [page.fullText.match(pattern)] is the
    array of the matched strings, which has no [index]: [startIndex] is
    [undefined], [startIndex + 2000] is [NaN], and [substring] takes both
    for 0. *)
Definition sectionOf (page : TextPage.t) (matched : list string) : NotesSection :=
  let startIndex : option nat := None in
  let endIndex : option nat := (fun i => i + 2000)%nat <$> startIndex in
  mkNotes (TextPage.pageNumber page)
          (Text.substring (TextPage.fullText page) (default 0%nat startIndex)
                          (default 0%nat endIndex))
          startIndex false.

Definition headingOn (page : TextPage.t) : option NotesSection :=
  sectionOf page <$>
    head (omap (fun pattern => matchGlobal true pattern (TextPage.fullText page))
               headingPatterns).

Definition findGeneralNotesSection (pages : list TextPage.t) : option NotesSection :=
  match head (omap headingOn pages) with
  | Some section => Some section
  | None =>
      match pages with
      | first :: _ =>
          Some (mkNotes (TextPage.pageNumber first) (TextPage.fullText first)
                        (Some 0%nat) true)
      | [] => None
      end
  end.

(** *** Comparison with the notes *)

Record MatchEntry : Type := mkMatchEntry {
  m_parameter : string;
  m_label : string;
  m_value : option string;
  m_foundValue : option string
}.

Record MismatchEntry : Type := mkMismatchEntry {
  mm_parameter : string;
  mm_label : string;
  mm_expectedValue : option string;
  mm_foundValue : option string
}.

Record MissingEntry : Type := mkMissingEntry {
  ms_parameter : string;
  ms_label : string;
  ms_expectedValue : option string
}.

Record Comparison : Type := mkComparison {
  matches : list MatchEntry;
  mismatches : list MismatchEntry;
  missing : list MissingEntry
}.

(** The module is an ES module: it has no binding for [require], and the
    evaluation of the identifier throws a [ReferenceError] (worded as V8
    words it). *)
Definition require (specifier : string) : Result (string -> string -> string -> bool) :=
  Throw (mkError "ReferenceError" "require is not defined").


Definition requireError : Error := mkError "ReferenceError" "require is not defined".

(** The parameter [key] has an expected value and one of its patterns
    matches somewhere in the notes. *)
Definition foundInNotes (notesText : string) (key : string) (expected : Extracted.t) : Prop :=
  falsy (Extracted.value expected) = false
  /\ exists config pattern,
       GeotechPatterns.lookup key = Some config
       /\ In pattern (Config.patterns config)
       /\ matchAll true pattern notesText <> [].

(** The entry pushed to [results.missing]. *)
Definition missingEntry (ke : string * Extracted.t) : MissingEntry :=
  mkMissingEntry (fst ke) (Extracted.label (snd ke)) (Extracted.value (snd ke)).

(** [normalizeValue(matches[0][1], config.type)], where the group may be
    [undefined]: [parseFloat(undefined)] is [NaN] and the value is returned
    as it is, while [undefined.toUpperCase()] throws. *)
Definition normalizeFound (raw : option string) (type : string) : Result (option string) :=
  match raw with
  | Some value => Ok (Some (GeotechPatterns.normalizeValue value type))
  | None =>
      if String.eqb type "numeric" then Ok None
      else Throw (mkError "TypeError"
                          "Cannot read properties of undefined (reading 'toUpperCase')")
  end.

(** The loop over [config.patterns]: the first group of the first match of
    the first pattern that matches. *)
Fixpoint firstInNotes (patterns : list Regex.t) (notesText : string)
  : option (option string) :=
  match patterns with
  | [] => None
  | pattern :: rest =>
      match matchAll true pattern notesText with
      | m :: _ => Some (group1 m)
      | [] => firstInNotes rest notesText
      end
  end.

(** One turn of the loop over [Object.entries(expectedValues)]. *)
Definition compareOne (notesText : string) (results : Comparison)
    (key : string) (expected : Extracted.t) : Result Comparison :=
  if falsy (Extracted.value expected) then Ok results
  else
    match GeotechPatterns.lookup key with
    | None =>
        Throw (mkError "TypeError"
                       "Cannot read properties of undefined (reading 'patterns')")
    | Some config =>
        match firstInNotes (Config.patterns config) notesText with
        | Some raw =>
            match normalizeFound raw (Config.type config) with
            | Throw e => Throw e
            | Ok foundValue =>
                match require "./geotechPatterns.js" with
                | Throw e => Throw e
                | Ok valuesMatch =>
                    if valuesMatch (default ""%string (Extracted.value expected))
                                   (default ""%string foundValue)
                                   (Extracted.type expected)
                    then Ok (mkComparison
                               (matches results
                                ++ [mkMatchEntry key (Extracted.label expected)
                                                 (Extracted.value expected) foundValue])
                               (mismatches results) (missing results))
                    else Ok (mkComparison
                               (matches results)
                               (mismatches results
                                ++ [mkMismatchEntry key (Extracted.label expected)
                                                    (Extracted.value expected) foundValue])
                               (missing results))
                end
            end
        | None =>
            Ok (mkComparison (matches results) (mismatches results)
                             (missing results
                              ++ [mkMissingEntry key (Extracted.label expected)
                                                 (Extracted.value expected)]))
        end
    end.

Fixpoint compareLoop (notesText : string) (results : Comparison)
    (entries : list (string * Extracted.t)) : Result Comparison :=
  match entries with
  | [] => Ok results
  | (key, expected) :: rest =>
      match compareOne notesText results key expected with
      | Ok results' => compareLoop notesText results' rest
      | Throw e => Throw e
      end
  end.

Definition compareValuesInNotes (notesText : string)
    (expectedValues : list (string * Extracted.t)) : Result Comparison :=
  compareLoop notesText (mkComparison [] [] []) expectedValues.

End GeotechExtractor.

(** ** Geotechnical verifier (geotechVerification.js) *)

Module GeotechVerification.

Import Regex GeotechExtractor.

(** [geotechData]: [extractedValues] is [None] when the property is
    missing. *)
Record GeotechData : Type := mkData {
  extractedValues : option (list (string * Extracted.t))
}.

Record Position : Type := mkPosition {
  px : Float.t;
  py : Float.t;
  pwidth : Float.t;
  pheight : Float.t
}.

(** A match or a mismatch with the box that is drawn for it. *)
Record Located (A : Type) : Type := mkLocated {
  entry : A;
  lx : Float.t;
  ly : Float.t;
  lwidth : Float.t;
  lheight : Float.t
}.

Arguments mkLocated {A} entry lx ly lwidth lheight.

Record Verification : Type := mkVerification {
  detected : bool;
  count : nat;
  matches : list (Located MatchEntry);
  mismatches : list (Located MismatchEntry);
  missing : list MissingEntry;
  notesPageNumber : option nat;
  message : string
}.

(** The result of the early returns and of the [catch] branch. *)
Definition nothing (message : string) : Verification :=
  mkVerification false 0 [] [] [] None message.

Definition searchTerms (parameterKey : string) : list string :=
  if String.eqb parameterKey "Sds" then ["SDS"; "S_DS"; "S DS"]
  else if String.eqb parameterKey "Sd1" then ["SD1"; "S_D1"; "S D1"]
  else if String.eqb parameterKey "Sms" then ["SMS"; "S_MS"; "S MS"]
  else if String.eqb parameterKey "Sm1" then ["SM1"; "S_M1"; "S M1"]
  else if String.eqb parameterKey "Ss" then ["SS"; "S_S"; "S S"; "Ss"]
  else if String.eqb parameterKey "S1" then ["S1"; "S_1"; "S 1"]
  else if String.eqb parameterKey "Fa" then ["FA"; "F_A"; "F A"]
  else if String.eqb parameterKey "Fv" then ["FV"; "F_V"; "F V"]
  else if String.eqb parameterKey "siteClass"
  then ["SITE CLASS"; "Site Class"; "SITE"; "CLASS"]
  else if String.eqb parameterKey "riskCategory"
  then ["RISK CATEGORY"; "Risk Category"; "RISK"]
  else if String.eqb parameterKey "seismicDesignCategory"
  then ["SEISMIC DESIGN CATEGORY"; "Seismic Design Category"; "SDC"; "CATEGORY"]
  else [].

(** [/[\d\.]+|[A-F]|I{1,3}|IV/] *)
Definition valuePattern : Regex.t :=
  Alt (plus (Cls false [IDigit; IChar "."]))
      (Alt (Cls false [IRange "A" "F"])
           (Alt (between 1 3 (Chr "I")) (lit "IV"))).

(** The state of the loop over the next items: [maxX] and
    [combinedHeight]. *)
Definition widen (acc : Float.t * Float.t) (nextItem : TextPage.Item) : Float.t * Float.t :=
  let '(maxX, combinedHeight) := acc in
  let rightEdge :=
    Float.add (Float.orZero (TextPage.x nextItem)) (Float.orZero (TextPage.width nextItem)) in
  (if Float.ltb maxX rightEdge then rightEdge else maxX,
   Float.mathMax combinedHeight (Float.orZero (TextPage.height nextItem))).

(** The box for the label [item], followed by the items [next]: widened to
    the right edge of the value-like items among the next nine. *)
Definition positionAt (item : TextPage.Item) (next : list TextPage.Item) : Position :=
  let values := List.filter (fun n => Regex.test false valuePattern (TextPage.text n))
                            (take 9 next) in
  let '(maxX, combinedHeight) :=
    fold_left widen values
              (Float.add (TextPage.x item) (TextPage.width item),
               Float.orZero (TextPage.height item)) in
  let combinedWidth := Float.sub maxX (TextPage.x item) in
  mkPosition (Float.orZero (TextPage.x item)) (Float.orZero (TextPage.y item))
             (Float.mathMax combinedWidth (Float.ofZ 100))
             (Float.mathMax combinedHeight (Float.ofZ 20)).

(** The loop over the items for one search term. *)
Fixpoint findTerm (searchTerm : string) (textItems : list TextPage.Item) : option Position :=
  match textItems with
  | [] => None
  | item :: rest =>
      if Text.includes (Text.toUpperCase (TextPage.text item)) (Text.toUpperCase searchTerm)
      then Some (positionAt item rest)
      else findTerm searchTerm rest
  end.

(** The parameters [label] and [config] of the source are not used by it. *)
Definition findParameterPosition (textItems : list TextPage.Item) (parameterKey : string)
  : option Position :=
  head (omap (fun searchTerm => findTerm searchTerm textItems) (searchTerms parameterKey)).

(** [map(...)] followed by [filter(Boolean)]. *)
Definition locateAll {A : Type} (parameter : A -> string) (SCALE : Float.t)
    (textItems : list TextPage.Item) (entries : list A) : list (Located A) :=
  omap (fun e =>
          match findParameterPosition textItems (parameter e) with
          | Some position =>
              Some (mkLocated e (Float.mul (px position) SCALE)
                              (Float.mul (py position) SCALE)
                              (Float.mul (pwidth position) SCALE)
                              (Float.mul (pheight position) SCALE))
          | None => None
          end)
       entries.

(** The body of the [try] block. *)
Definition verify (values : list (string * Extracted.t)) (pdfPages : list TextPage.t)
    (onProgress : bool) : Result (Verification * list nat) :=
  match findGeneralNotesSection pdfPages with
  | None => Ok (nothing "GENERAL NOTES section not found in drawing", [])
  | Some notesSection =>
      match compareValuesInNotes (notesText notesSection) values with
      | Throw e => Throw e
      | Ok comparison =>
          let totalIssues :=
            (length (GeotechExtractor.mismatches comparison)
             + length (GeotechExtractor.missing comparison))%nat in
          let SCALE := Float.ofZ 3 in
          let pdfTextItems :=
            match pdfPages with
            | first :: _ => default [] (TextPage.items first)
            | [] => []
            end in
          let matchesWithLocations :=
            locateAll m_parameter SCALE pdfTextItems
                      (GeotechExtractor.matches comparison) in
          let mismatchesWithLocations :=
            locateAll mm_parameter SCALE pdfTextItems
                      (GeotechExtractor.mismatches comparison) in
          Ok (mkVerification
                (0 <? totalIssues)%nat totalIssues
                matchesWithLocations mismatchesWithLocations
                (GeotechExtractor.missing comparison)
                (Some (GeotechExtractor.notesPageNumber notesSection))
                (if (0 <? totalIssues)%nat
                 then "Found " ++ showNat (length (GeotechExtractor.mismatches comparison))
                      ++ " mismatch(es) and "
                      ++ showNat (length (GeotechExtractor.missing comparison))
                      ++ " missing value(s)"
                 else "All " ++ showNat (length (GeotechExtractor.matches comparison))
                      ++ " seismic value(s) verified successfully")%string,
              report onProgress totalIssues)
      end
  end.

(** [geotechData] and [pdfPages] may be [null] ([None]). The image data is
    not used. *)
Definition detectGeotechMismatches (geotechData : option GeotechData)
    (pdfPages : option (list TextPage.t)) (onProgress : bool) : Run Verification :=
  match geotechData with
  | None => mkRun (Resolved (nothing "No geotechnical report data available for verification")) []
  | Some gd =>
      match extractedValues gd with
      | None =>
          mkRun (Resolved (nothing "No geotechnical report data available for verification")) []
      | Some values =>
          match pdfPages with
          | None | Some [] =>
              mkRun (Resolved
                       (nothing "Text verification requires PDF upload (images not supported)"))
                    []
          | Some pages =>
              match verify values pages onProgress with
              | Ok (result, calls) => mkRun (Resolved result) calls
              | Throw e =>
                  mkRun (Resolved (nothing ("Verification error: " ++ errorMessage e))) []
              end
          end
      end
  end.

End GeotechVerification.

(** ** Text of a PDF (pdfTextExtractor.js)

    A document as pdf.js hands it over: for every page the items of its
    text content and the height of its viewport at scale 1. Reading the
    file, opening the document or a page may fail; the outcome of these
    steps is the argument of [extractTextFromPDF]. *)

Module PdfText.

Record RawPage : Type := mkRaw {
  rawItems : list Pdf.TextItem;
  viewportHeight : Float.t
}.

(** The object built for an item: the text, and the position with the
    vertical coordinate flipped. *)
Definition toItem (viewportHeight : Float.t) (item : Pdf.TextItem) : TextPage.Item :=
  TextPage.mkItem (Pdf.str item)
                  (Pdf.t4 (Pdf.transform item))
                  (Float.sub viewportHeight (Pdf.t5 (Pdf.transform item)))
                  (Pdf.width item)
                  (Pdf.height item).

(** [l.join(sep)] for an array of strings. *)
Fixpoint join (sep : string) (l : list string) : string :=
  match l with
  | [] => ""
  | [s] => s
  | s :: tl => s ++ sep ++ join sep tl
  end.

(** The object pushed for the page [pageNum]. *)
Definition pageOf (pageNum : nat) (raw : RawPage) : TextPage.t :=
  let items := map (toItem (viewportHeight raw)) (rawItems raw) in
  TextPage.mk pageNum (Some items) (join " " (map TextPage.text items)).

(** The loop [for (pageNum = 1; pageNum <= numPages; pageNum++)]. *)
Definition extractPages (pdf : list RawPage) : list TextPage.t :=
  imap (fun i raw => pageOf (S i) raw) pdf.

Definition extractTextFromPDF (pdf : Result (list RawPage)) : Result (list TextPage.t) :=
  match pdf with
  | Ok pages => Ok (extractPages pages)
  | Throw error =>
      Throw (mkError "Error" ("Failed to extract text from PDF: " ++ errorMessage error))
  end.

(** An entry of the result of [searchTextInPages]. *)
Record Found : Type := mkFound {
  pageNumber : nat;
  matched : string;
  capturedGroups : list (option string);
  index : nat
}.

(** [pattern] is given by its flag [i], its flag [g], its [lastIndex] and
    its source. [matchAll] throws a [TypeError] for a pattern without the
    flag [g], when the first page is searched; for one with the flag it
    searches every page on a copy of the pattern, from the [lastIndex] of
    the pattern, which it leaves as it is. *)
Definition searchTextInPages (pages : list TextPage.t)
    (ignoreCase global : bool) (lastIndex : nat) (pattern : Regex.t)
  : Result (list Found) :=
  if global then
    Ok (flat_map
          (fun page =>
             map (fun m => mkFound (TextPage.pageNumber page) (Regex.text m)
                                   (Regex.groups m) (Regex.index m))
                 (Regex.matchAllAt ignoreCase pattern (TextPage.fullText page) lastIndex))
          pages)
  else
    match pages with
    | [] => Ok []
    | _ :: _ =>
        Throw (mkError "TypeError"
                       "String.prototype.matchAll called with a non-global RegExp argument")
    end.

End PdfText.

(** ** Boxes and pixel sets

    The notions in which the properties of the merger and of the tracers are
    phrased. *)

Module Geometry.

Import Region.

(** The sum of the [pixelCount] fields. *)
Definition totalPixels (l : list Region.t) : Z :=
  fold_right (fun e s => pixelCount e + s) 0 l.

(** The box of [inner] lies within the box of [outer]. *)
Definition contains (outer inner : Region.t) : Prop :=
  x outer <= x inner /\ y outer <= y inner
  /\ x inner + width inner <= x outer + width outer
  /\ y inner + height inner <= y outer + height outer.

(** The four sides of [b] are sides of boxes of [l]. *)
Definition spannedBy (l : list Region.t) (b : Region.t) : Prop :=
  (exists a, In a l /\ x b = x a)
  /\ (exists a, In a l /\ y b = y a)
  /\ (exists a, In a l /\ x b + width b = x a + width a)
  /\ (exists a, In a l /\ y b + height b = y a + height a).

End Geometry.

Module Flood.

Import Pixels.

Definition inImage (width height : Z) (p : Z * Z) : Prop :=
  0 <= fst p < width /\ 0 <= snd p < height.

(** The pixel at [p] passes the test of the tracer. *)
Definition passes (pred : Z -> Z -> Z -> bool) (data : list Z) (width : Z)
    (p : Z * Z) : bool :=
  satisfies pred (rgbAt data width (fst p) (snd p)).

(** The positions pushed on the queue for a counted pixel. *)
Definition neighbours (p : Z * Z) : list (Z * Z) :=
  [(fst p + 1, snd p); (fst p - 1, snd p); (fst p, snd p + 1); (fst p, snd p - 1)].

(** A pixel that a trace may count: inside the image, passing the test, and
    not visited by an earlier trace. *)
Definition fresh (pred : Z -> Z -> Z -> bool) (data : list Z) (width height : Z)
    (visited : gset (Z * Z)) (p : Z * Z) : Prop :=
  inImage width height p /\ passes pred data width p = true /\ p ∉ visited.

(** [q] is joined to [seed] by a chain of fresh pixels, each next to the one
    before. *)
Inductive reachable (ok : Z * Z -> Prop) (seed : Z * Z) : Z * Z -> Prop :=
| reach_seed : ok seed -> reachable ok seed seed
| reach_step p q :
    reachable ok seed p -> In q (neighbours p) -> ok q -> reachable ok seed q.

(** The pixels of a region lie in its box. *)
Definition inBox (r : Region.t) (p : Z * Z) : Prop :=
  Region.x r <= fst p <= Region.x r + Region.width r
  /\ Region.y r <= snd p <= Region.y r + Region.height r.

(** The box of a region has a non-negative width and height and lies in
    the image. *)
Definition boxInImage (width height : Z) (e : Region.t) : Prop :=
  0 <= Region.x e /\ 0 <= Region.y e /\ 0 <= Region.width e /\ 0 <= Region.height e
  /\ Region.x e + Region.width e < width /\ Region.y e + Region.height e < height.

End Flood.

(** ** Detail references and bubble numbers (overlapping-text analyzer) *)

Module References.

Import Regex.

Definition isLetter (c : ascii) : bool := Text.isUpper c || Text.isLower c.

(** [/^[0-9A-Z]$/i] *)
Definition bubblePattern : Regex.t :=
  seqs [Bol; Cls false [IRange "0" "9"; IRange "A" "Z"]; Eol].

Definition isBubbleNumber (text : string) : bool :=
  Regex.test true bubblePattern text.

(** Three digits, one or two letters, three digits. *)
Definition isDetailReference (s : string) : Prop :=
  exists ds1 ls ds2,
    Text.chars s = ds1 ++ ls ++ ds2
    /\ length ds1 = 3%nat /\ Forall (fun c => Text.isDigit c = true) ds1
    /\ (1 <= length ls <= 2)%nat /\ Forall (fun c => isLetter c = true) ls
    /\ length ds2 = 3%nat /\ Forall (fun c => Text.isDigit c = true) ds2.

End References.

(** ** Overlaps of text boxes (overlapping-text analyzer)

    The quantities that [detectOverlapsFromPDF] computes for a pair of
    items, under the names the source gives them. *)

Module Overlap.

Import Pdf.

Definition horizontalOverlap (item1 item2 : TextItem) : bool :=
  negb (Float.ltb (Float.add (t4 (transform item1)) (width item1)) (t4 (transform item2))
        || Float.ltb (Float.add (t4 (transform item2)) (width item2)) (t4 (transform item1))).

Definition verticalOverlap (item1 item2 : TextItem) : bool :=
  negb (Float.ltb (Float.add (t5 (transform item1)) (height item1)) (t5 (transform item2))
        || Float.ltb (Float.add (t5 (transform item2)) (height item2)) (t5 (transform item1))).

Definition overlapX (item1 item2 : TextItem) : Float.t :=
  Float.mathMax (t4 (transform item1)) (t4 (transform item2)).

Definition overlapY (item1 item2 : TextItem) : Float.t :=
  Float.mathMax (t5 (transform item1)) (t5 (transform item2)).

Definition overlapWidth (item1 item2 : TextItem) : Float.t :=
  Float.sub (Float.mathMin (Float.add (t4 (transform item1)) (width item1))
                           (Float.add (t4 (transform item2)) (width item2)))
            (overlapX item1 item2).

Definition overlapHeight (item1 item2 : TextItem) : Float.t :=
  Float.sub (Float.mathMin (Float.add (t5 (transform item1)) (height item1))
                           (Float.add (t5 (transform item2)) (height item2)))
            (overlapY item1 item2).

(** Two boxes whose intersection is 5 units wide and 10 high: 7.8 wide at
    0.5 and 50 wide at 3.3. *)
Definition edgeA : TextItem :=
  mkItem "NOTE A"
         (mkTransform (Float.ofZ 10) (Float.ofZ 0) (Float.ofZ 0) (Float.ofZ 10)
                      (Float.parseFloat "0.5") (Float.ofZ 100))
         (Float.parseFloat "7.8") (Float.ofZ 10).

Definition edgeB : TextItem :=
  mkItem "NOTE B"
         (mkTransform (Float.ofZ 10) (Float.ofZ 0) (Float.ofZ 0) (Float.ofZ 10)
                      (Float.parseFloat "3.3") (Float.ofZ 100))
         (Float.parseFloat "50") (Float.ofZ 10).

(** The box and the pixel count of a reported region. *)
Definition geometry (r : TextOverlap.t) : Float.t * Float.t * Float.t * Float.t * Float.t :=
  (TextOverlap.x r, TextOverlap.y r, TextOverlap.width r, TextOverlap.height r,
   TextOverlap.pixelCount r).

End Overlap.

(** ** Headings of the notes (geotechnical extractor) *)

Module Notes.

(** Some heading pattern matches somewhere in the text of the page. *)
Definition hasHeading (page : TextPage.t) : Prop :=
  exists pattern,
    In pattern GeotechExtractor.headingPatterns
    /\ Regex.test true pattern (TextPage.fullText page) = true.

(** The expected values that are not [null] or empty, as entries of
    [results.missing]. *)
Definition allMissing (expectedValues : list (string * Extracted.t))
  : list GeotechExtractor.MissingEntry :=
  map GeotechExtractor.missingEntry
      (List.filter (fun ke => negb (GeotechExtractor.falsy (Extracted.value (snd ke))))
                   expectedValues).

End Notes.

(** ** Labels and values on the drawing (geotechnical verifier) *)

Module Positions.

(** The label test of [findParameterPosition]:
    [itemText.toUpperCase().includes(searchTerm.toUpperCase())]. *)
Definition mentions (item : TextPage.Item) (searchTerm : string) : bool :=
  Text.includes (Text.toUpperCase (TextPage.text item)) (Text.toUpperCase searchTerm).

(** A label 127.4 wide at 0.7. *)
Definition wideLabel : TextPage.Item :=
  TextPage.mkItem "SDS" (Float.parseFloat "0.7") (Float.ofZ 100)
                  (Float.parseFloat "127.4") (Float.ofZ 10).

End Positions.

(** ** The order of matches

    The notions in which the order of the results of [matchAll] is
    phrased. *)

Module MatchOrder.

Import Regex.

(** The end of a match: [match.index + match[0].length]. *)
Definition finish (m : Match) : nat := (index m + String.length (text m))%nat.

(** [m1] starts before [m2] and ends before [m2] starts. *)
Definition before (m1 m2 : Match) : Prop :=
  (index m1 < index m2)%nat /\ (finish m1 <= index m2)%nat.

(** Every match of the list is before all the later ones. *)
Fixpoint inOrder (l : list Match) : Prop :=
  match l with
  | [] => True
  | m :: later => Forall (before m) later /\ inOrder later
  end.

(** Every number of the list is less than all the later ones. *)
Fixpoint increasing (l : list nat) : Prop :=
  match l with
  | [] => True
  | n :: later => Forall (lt n) later /\ increasing later
  end.

End MatchOrder.

(** ** Sample inputs *)

Module Samples.

(** A striped image of 32 by 10 pixels: two black columns followed by two
    white ones, and so on. *)
Definition stripes : list Z :=
  flat_map (fun i => if i mod 4 <? 2 then [0; 0; 0; 255] else [255; 255; 255; 255])
           (seqZ 0 320).

End Samples.

(** ** Summary of the results (DetectionResults.jsx, ImageVisualization.jsx) *)

Module Summary.

Local Open Scope nat_scope.

(** The detectors of a page result, in the order of
    [Object.keys(overallSummary)]. *)
Inductive Key : Type :=
| redElements
| highlights
| noRefs
| overlappingText
| geotechVerification.

Definition keys : list Key :=
  [redElements; highlights; noRefs; overlappingText; geotechVerification].

Definition sameKey (k1 k2 : Key) : bool :=
  match k1, k2 with
  | redElements, redElements
  | highlights, highlights
  | noRefs, noRefs
  | overlappingText, overlappingText
  | geotechVerification, geotechVerification => true
  | _, _ => false
  end.

(** What the summary reads of [pageResult[key]]: [detected], and [count],
    which is [None] when it is [undefined]. *)
Record Entry : Type := mkEntry {
  detected : bool;
  count : option nat
}.

(** A page result; [entry key] is [None] when [pageResult[key]] is
    missing. *)
Record PageResult : Type := mkPageResult {
  pageNumber : nat;
  entry : Key -> option Entry
}.

(** [{ detected, count }] of [overallSummary]. *)
Record Cell : Type := mkCell {
  anyDetected : bool;
  total : nat
}.

Definition Overall : Type := Key -> Cell.

Definition initial : Overall := fun _ => mkCell false 0.

(** [overallSummary[key] = cell] *)
Definition set (summary : Overall) (key : Key) (cell : Cell) : Overall :=
  fun k => if sameKey k key then cell else summary k.

(** The body of the inner [forEach]. *)
Definition addEntry (pageResult : PageResult) (summary : Overall) (key : Key) : Overall :=
  let summary1 :=
    match entry pageResult key with
    | Some e =>
        if detected e then set summary key (mkCell true (total (summary key))) else summary
    | None => summary
    end in
  match entry pageResult key with
  | Some e =>
      match count e with
      | Some n =>
          set summary1 key (mkCell (anyDetected (summary1 key)) (total (summary1 key) + n))
      | None => summary1
      end
  | None => summary1
  end.

Definition addPage (summary : Overall) (pageResult : PageResult) : Overall :=
  fold_left (addEntry pageResult) keys summary.

Definition overallSummary (results : list PageResult) : Overall :=
  fold_left addPage results initial.

(** [pageResult[key]?.count || 0] *)
Definition countOrZero (e : option Entry) : nat :=
  match e with
  | Some e => default 0%nat (count e)
  | None => 0
  end.

(** [pageResult[key] && pageResult[key].detected], as a condition. *)
Definition isDetected (e : option Entry) : bool :=
  match e with
  | Some e => detected e
  | None => false
  end.

(** The last cell of the row of a page in the summary table. *)
Definition totalIssues (pageResult : PageResult) : nat :=
  countOrZero (entry pageResult redElements)
  + countOrZero (entry pageResult highlights)
  + countOrZero (entry pageResult noRefs)
  + countOrZero (entry pageResult overlappingText)
  + countOrZero (entry pageResult geotechVerification).

(** The last cell of the row [TOTAL]:
    [Object.values(overallSummary).reduce((sum, s) => sum + s.count, 0)]. *)
Definition grandTotal (results : list PageResult) : nat :=
  fold_left (fun sum s => sum + total s) (map (overallSummary results) keys) 0%nat.

(** [pageSummary] of the visualization of a page, which leaves the
    verification out. *)
Definition pageSummary (results : PageResult) : list nat :=
  [countOrZero (entry results redElements);
   countOrZero (entry results highlights);
   countOrZero (entry results noRefs);
   countOrZero (entry results overlappingText)].

(** [totalIssues] of the visualization of a page. *)
Definition pageIssues (results : PageResult) : nat :=
  fold_left (fun sum count => sum + count) (pageSummary results) 0%nat.

End Summary.

(** ** Comparison table (GeotechDataDisplay.jsx) *)

Module Display.

Import GeotechPatterns GeotechExtractor GeotechVerification.

Local Open Scope nat_scope.

Inductive Status : Type :=
| StatusMatch
| StatusMismatch
| StatusDrawingOnly
| StatusMissing.

(** The strings of the statuses. *)
Definition statusName (s : Status) : string :=
  match s with
  | StatusMatch => "match"
  | StatusMismatch => "mismatch"
  | StatusDrawingOnly => "drawing-only"
  | StatusMissing => "missing"
  end.

(** An entry of [drawingValuesMap]. *)
Record Row : Type := mkRow {
  value : option string;
  pageNumber : option nat;
  status : Status;
  isRequired : bool
}.

Definition requiredComparisonParams : list string :=
  ["Sds"; "Sd1"; "Ss"; "S1"; "siteClass"; "seismicDesignCategory"].

(** [pdfPages && pdfPages.length > 0] *)
Definition hasDrawingValues (pdfPages : option (list TextPage.t)) : bool :=
  match pdfPages with
  | Some (_ :: _) => true
  | _ => false
  end.

(** [drawingValues]; [None] is [null]. *)
Definition drawingValues (pdfPages : option (list TextPage.t))
  : option (list (string * Extracted.t)) :=
  match pdfPages with
  | Some (page :: pages) => Some (extractSeismicValues (page :: pages))
  | _ => None
  end.

(** The table of the parameters without values, built from
    [SEISMIC_PATTERNS]. *)
Definition blankValues : list (string * Extracted.t) :=
  map (fun kc => (fst kc, notFound (snd kc))) SEISMIC_PATTERNS.

(** [geotechData?.extractedValues || Object.fromEntries(...)] *)
Definition extractedValuesOf (geotechData : option GeotechData)
  : list (string * Extracted.t) :=
  match geotechData with
  | Some data => default blankValues (extractedValues data)
  | None => blankValues
  end.

(** [extractedValues[key]?.value] *)
Definition geotechValueOf (geotechData : option GeotechData) (key : string) : option string :=
  valueOf key (extractedValuesOf geotechData) ≫= Extracted.value.

(** [SEISMIC_PATTERNS[key]?.type || 'numeric'] *)
Definition paramTypeOf (key : string) : string :=
  match lookup key with
  | Some config => if falsy (Some (Config.type config)) then "numeric" else Config.type config
  | None => "numeric"
  end.

(** The entry that the loop adds to [drawingValuesMap] for an entry of
    [drawingValues], if it adds one. *)
Definition rowOf (geotechData : option GeotechData) (key : string) (drawingData : Extracted.t)
  : option Row :=
  let geotechValue := geotechValueOf geotechData key in
  let drawingValue := Extracted.value drawingData in
  let isRequiredParam := existsb (String.eqb key) requiredComparisonParams in
  if negb (falsy drawingValue) then
    let paramType := paramTypeOf key in
    let isMatch :=
      match geotechValue, drawingValue with
      | Some g, Some d =>
          negb (falsy geotechValue) && negb (falsy drawingValue) && valuesMatch g d paramType
      | _, _ => false
      end in
    Some (mkRow drawingValue (Extracted.pageNumber drawingData)
                (if isMatch then StatusMatch
                 else if negb (falsy geotechValue) then StatusMismatch
                 else StatusDrawingOnly)
                isRequiredParam)
  else if negb (falsy geotechValue) && isRequiredParam then
    Some (mkRow None None StatusMissing true)
  else None.

(** [drawingValuesMap], as the list of its entries. The keys of
    [drawingValues] are those of an object, so that every assignment adds
    an entry. *)
Definition drawingValuesMap (geotechData : option GeotechData)
    (pdfPages : option (list TextPage.t)) : list (string * Row) :=
  match drawingValues pdfPages with
  | Some values =>
      omap (fun kv => (fun row => (fst kv, row)) <$> rowOf geotechData (fst kv) (snd kv)) values
  | None => []
  end.

(** [drawingValuesMap[key]] *)
Definition rowAt (key : string) (rows : list (string * Row)) : option Row :=
  snd <$> List.find (fun kr => String.eqb (fst kr) key) rows.

(** [Object.values(drawingValuesMap).filter(test).length] *)
Definition countRows (test : Row -> bool) (rows : list (string * Row)) : nat :=
  length (List.filter (fun kr => test (snd kr)) rows).

Definition hasStatus (s : Status) (v : Row) : bool :=
  String.eqb (statusName (status v)) (statusName s).

Definition drawingFoundCount (rows : list (string * Row)) : nat :=
  countRows (fun v => negb (falsy (value v)) && isRequired v) rows.

Definition matchCount (rows : list (string * Row)) : nat :=
  countRows (fun v => hasStatus StatusMatch v && isRequired v) rows.

Definition mismatchCount (rows : list (string * Row)) : nat :=
  countRows (fun v => hasStatus StatusMismatch v && isRequired v) rows.

Definition missingCount (rows : list (string * Row)) : nat :=
  countRows (fun v => hasStatus StatusMissing v && isRequired v) rows.

Definition requiredTotal : nat := length requiredComparisonParams.

(** [foundCount]: the values of the report that are not [null]. *)
Definition foundCount (geotechData : option GeotechData) : nat :=
  match geotechData with
  | Some _ =>
      length (List.filter (fun kv => match Extracted.value (snd kv) with
                                     | Some _ => true
                                     | None => false
                                     end)
                          (extractedValuesOf geotechData))
  | None => 0
  end.

Definition totalCount (geotechData : option GeotechData) : nat :=
  length (extractedValuesOf geotechData).

(** [getRowClass(key, data)] *)
Definition getRowClass (geotechData : option GeotechData)
    (pdfPages : option (list TextPage.t)) (key : string) (data : Extracted.t) : string :=
  if falsy (Extracted.value data) then "not-found"
  else if negb (hasDrawingValues pdfPages) then "found"
  else
    match rowAt key (drawingValuesMap geotechData pdfPages) with
    | None => "found"
    | Some drawingData =>
        if negb (isRequired drawingData) then "found"
        else if hasStatus StatusMatch drawingData then "status-match"
        else if hasStatus StatusMismatch drawingData then "status-mismatch"
        else if hasStatus StatusMissing drawingData then "status-missing"
        else "found"
    end.

(** [getStatusIcon(key)]: the class of the icon, [None] for [null]. *)
Definition getStatusIcon (geotechData : option GeotechData)
    (pdfPages : option (list TextPage.t)) (key : string) : option string :=
  match rowAt key (drawingValuesMap geotechData pdfPages) with
  | None => None
  | Some drawingData =>
      if negb (isRequired drawingData) then None
      else if hasStatus StatusMatch drawingData then Some "status-icon match"
      else if hasStatus StatusMismatch drawingData then Some "status-icon mismatch"
      else if hasStatus StatusMissing drawingData then Some "status-icon missing"
      else None
  end.

End Display.

(** * Properties *)

(** ** Numbers *)

Module FloatFacts.

Lemma compare_antisym (a b : Float.t) :
  SFcompare b a = option_map CompOpp (SFcompare a b).
Proof.
  destruct a as [sa|sa| |sa ma ea], b as [sb|sb| |sb mb eb]; simpl;
    try reflexivity;
    try (destruct sa; reflexivity); try (destruct sb; reflexivity);
    try (destruct sa, sb; reflexivity).
  destruct sa, sb; simpl; try reflexivity.
  - rewrite (Z.compare_antisym ea eb).
    destruct (ea ?= eb)%Z; simpl; try reflexivity.
    change (Pos.compare_cont Eq mb ma) with (mb ?= ma)%positive.
    change (Pos.compare_cont Eq ma mb) with (ma ?= mb)%positive.
    rewrite (Pos.compare_antisym ma mb). reflexivity.
  - rewrite (Z.compare_antisym ea eb).
    destruct (ea ?= eb)%Z; simpl; try reflexivity.
    change (Pos.compare_cont Eq mb ma) with (mb ?= ma)%positive.
    change (Pos.compare_cont Eq ma mb) with (ma ?= mb)%positive.
    rewrite (Pos.compare_antisym ma mb). reflexivity.
Qed.

(** Two numbers that compare equal are the same, or are both zero. *)
Lemma compare_eq (a b : Float.t) :
  SFcompare a b = Some Eq ->
  a = b \/ (exists sa sb, a = S754_zero sa /\ b = S754_zero sb).
Proof.
  destruct a as [sa|sa| |sa ma ea], b as [sb|sb| |sb mb eb]; simpl;
    try discriminate; try (destruct sa; discriminate); try (destruct sb; discriminate).
  - intros _. right. eauto.
  - destruct sa, sb; try discriminate; intros _; now left.
  - destruct sa, sb; try discriminate.
    + destruct (ea ?= eb)%Z eqn:Ee; try discriminate.
      apply Z.compare_eq in Ee. subst eb.
      change (Pos.compare_cont Eq ma mb) with (ma ?= mb)%positive.
      destruct (ma ?= mb)%positive eqn:Em; try discriminate.
      apply Pos.compare_eq in Em. subst mb. now left.
    + destruct (ea ?= eb)%Z eqn:Ee; try discriminate.
      apply Z.compare_eq in Ee. subst eb.
      change (Pos.compare_cont Eq ma mb) with (ma ?= mb)%positive.
      destruct (ma ?= mb)%positive eqn:Em; try discriminate.
      apply Pos.compare_eq in Em. subst mb. now left.
Qed.

Lemma mathMax_comm (a b : Float.t) : Float.mathMax a b = Float.mathMax b a.
Proof.
  unfold Float.mathMax. rewrite (compare_antisym a b).
  destruct (SFcompare a b) as [[]|] eqn:E; simpl; try reflexivity.
  apply compare_eq in E as [->|(sa & sb & -> & ->)].
  - now destruct b as [[]| | |].
  - now destruct sa, sb.
Qed.

Lemma mathMin_comm (a b : Float.t) : Float.mathMin a b = Float.mathMin b a.
Proof.
  unfold Float.mathMin. rewrite (compare_antisym a b).
  destruct (SFcompare a b) as [[]|] eqn:E; simpl; try reflexivity.
  apply compare_eq in E as [->|(sa & sb & -> & ->)].
  - now destruct b as [[]| | |].
  - now destruct sa, sb.
Qed.

Lemma compare_refl (a : Float.t) : Float.isNaN a = false -> SFcompare a a = Some Eq.
Proof.
  destruct a as [s|s| |s m e]; simpl; try discriminate; intros _.
  - reflexivity.
  - now destruct s.
  - rewrite Z.compare_refl.
    change (Pos.compare_cont Eq m m) with (m ?= m)%positive.
    rewrite Pos.compare_refl. now destruct s.
Qed.

(** [Math.max(a, b)] is [NaN] or at least [b]. *)
Lemma mathMax_ge (a b : Float.t) :
  Float.isNaN (Float.mathMax a b) = true \/ Float.leb b (Float.mathMax a b) = true.
Proof.
  unfold Float.mathMax, Float.leb, SFleb.
  destruct (SFcompare a b) as [[]|] eqn:E; [| | |now left].
  - destruct (Float.isNaN b) eqn:Eb.
    { destruct b; try discriminate. destruct a; discriminate. }
    right.
    assert (H : SFcompare b a = Some Eq) by (rewrite compare_antisym, E; reflexivity).
    destruct a as [[]| | |], b as [[]| | |]; try (now rewrite H);
      try (now rewrite compare_refl).
  - destruct (Float.isNaN b) eqn:Eb.
    { destruct b; try discriminate. destruct a; discriminate. }
    right. now rewrite compare_refl.
  - right. rewrite compare_antisym, E. reflexivity.
Qed.

End FloatFacts.

(** ** Strings *)

Module TextFacts.

Import Text.

Lemma chars_str (l : list ascii) : chars (str l) = l.
Proof. apply list_ascii_of_string_of_list_ascii. Qed.

Lemma str_chars (s : string) : str (chars s) = s.
Proof. apply string_of_list_ascii_of_string. Qed.

Lemma isSpace_upper (c : ascii) : isSpace (upper c) = isSpace c.
Proof. destruct c as [[] [] [] [] [] [] [] []]; reflexivity. Qed.

Lemma upper_upper (c : ascii) : upper (upper c) = upper c.
Proof. destruct c as [[] [] [] [] [] [] [] []]; reflexivity. Qed.

Lemma dropSpaces_map (l : list ascii) : dropSpaces (map upper l) = map upper (dropSpaces l).
Proof.
  induction l as [|c l IH]; simpl; [reflexivity|].
  rewrite isSpace_upper. destruct (isSpace c); [exact IH|reflexivity].
Qed.

Lemma dropSpaces_idem (l : list ascii) : dropSpaces (dropSpaces l) = dropSpaces l.
Proof.
  induction l as [|c l IH]; simpl; [reflexivity|].
  destruct (isSpace c) eqn:E; [exact IH|]. simpl. now rewrite E.
Qed.

Lemma dropSpaces_snoc (l : list ascii) (c : ascii) :
  isSpace c = false -> dropSpaces (l ++ [c]) = dropSpaces l ++ [c].
Proof.
  intros Hc. induction l as [|d l IH]; simpl; [now rewrite Hc|].
  destruct (isSpace d); [exact IH|reflexivity].
Qed.

(** The list without its trailing white space. *)
Definition stripEnd (l : list ascii) : list ascii := rev (dropSpaces (rev l)).

Lemma stripEnd_cons (c : ascii) (l : list ascii) :
  isSpace c = false -> stripEnd (c :: l) = c :: stripEnd l.
Proof.
  intros Hc. unfold stripEnd. simpl. rewrite dropSpaces_snoc by exact Hc.
  rewrite rev_app_distr. reflexivity.
Qed.

Lemma dropSpaces_stripEnd (l : list ascii) :
  dropSpaces (stripEnd (dropSpaces l)) = stripEnd (dropSpaces l).
Proof.
  induction l as [|c l IH]; simpl; [reflexivity|].
  destruct (isSpace c) eqn:E; [exact IH|].
  rewrite stripEnd_cons by exact E. simpl. now rewrite E.
Qed.

Lemma trim_trim (s : string) : trim (trim s) = trim s.
Proof.
  unfold trim. rewrite chars_str. fold (stripEnd (dropSpaces (chars s))).
  rewrite dropSpaces_stripEnd. unfold stripEnd. rewrite rev_involutive.
  now rewrite dropSpaces_idem.
Qed.

Lemma trim_upper (s : string) : trim (toUpperCase s) = toUpperCase (trim s).
Proof.
  unfold trim, toUpperCase. rewrite !chars_str. f_equal.
  rewrite dropSpaces_map, <- map_rev, dropSpaces_map, <- map_rev. reflexivity.
Qed.

Lemma upper_idem (s : string) : toUpperCase (toUpperCase s) = toUpperCase s.
Proof.
  unfold toUpperCase. rewrite chars_str, map_map. f_equal.
  apply map_ext. apply upper_upper.
Qed.

End TextFacts.

(** ** The region merger: fixed point, idempotence, order-independence *)

Module MergerFacts.

Import Region Merger.

Section Distance.

Variable d : Z.

Lemma near_sym (a b : Region.t) : near d a b = near d b a.
Proof.
  unfold near, horizontalDistance, verticalDistance.
  f_equal; f_equal; lia.
Qed.

Lemma union_comm (a b : Region.t) : union a b = union b a.
Proof. unfold union; simpl; f_equal; lia. Qed.

Lemma union_assoc (a b c : Region.t) : union (union a b) c = union a (union b c).
Proof. unfold union; simpl; f_equal; lia. Qed.

(** Growing a box never takes it out of reach. *)
Lemma near_union_l (a b c : Region.t) :
  near d a c = true -> near d (union a b) c = true.
Proof.
  unfold near, horizontalDistance, verticalDistance, union; simpl.
  rewrite !andb_true_iff, !Z.leb_le. lia.
Qed.

Lemma near_union_r (a b c : Region.t) :
  near d b c = true -> near d (union a b) c = true.
Proof. rewrite union_comm. apply near_union_l. Qed.

(** One merge, on the collection seen as a multiset. *)
Inductive step (l l' : list Region.t) : Prop :=
| step_intro a b r :
    l ≡ₚ a :: b :: r -> near d a b = true -> l' ≡ₚ union a b :: r -> step l l'.

Inductive steps : list Region.t -> list Region.t -> Prop :=
| steps_refl l l' : l ≡ₚ l' -> steps l l'
| steps_step l l1 l' : step l l1 -> steps l1 l' -> steps l l'.

(** No merge is possible. *)
Definition normal (l : list Region.t) : Prop :=
  forall a b r, l ≡ₚ a :: b :: r -> near d a b = false.

(** The same, as the outer and inner loops see it. *)
Fixpoint normalL (l : list Region.t) : Prop :=
  match l with
  | [] => True
  | e :: rest => Forall (fun o => near d e o = false) rest /\ normalL rest
  end.

Lemma step_perm_l l k l' : l ≡ₚ k -> step l l' -> step k l'.
Proof.
  intros Hp [a b r H1 H2 H3].
  apply (step_intro k l' a b r); auto. now rewrite <- Hp.
Qed.

Lemma step_perm_r l l' k' : l' ≡ₚ k' -> step l l' -> step l k'.
Proof.
  intros Hp [a b r H1 H2 H3].
  apply (step_intro l k' a b r); auto. now rewrite <- Hp.
Qed.

Lemma step_length l l' : step l l' -> length l = S (length l').
Proof.
  intros [a b r H1 H2 H3].
  rewrite (Permutation_length H1), (Permutation_length H3). reflexivity.
Qed.

Lemma step_cons c l l' : step l l' -> step (c :: l) (c :: l').
Proof.
  intros [a b r H1 H2 H3].
  apply (step_intro _ _ a b (c :: r)); auto.
  - rewrite H1. solve_Permutation.
  - rewrite H3. solve_Permutation.
Qed.

Lemma steps_perm_l l k l' : l ≡ₚ k -> steps l l' -> steps k l'.
Proof.
  intros Hp Hs. destruct Hs as [l l' H | l l1 l' H1 H2].
  - apply steps_refl. now rewrite <- Hp.
  - eapply steps_step; [eapply step_perm_l; eauto | auto].
Qed.

Lemma steps_perm_r l l' k' : l' ≡ₚ k' -> steps l l' -> steps l k'.
Proof.
  intros Hp Hs. induction Hs as [l l' H | l l1 l' H1 H2 IH].
  - apply steps_refl. now rewrite H.
  - eapply steps_step; eauto.
Qed.

Lemma steps_trans l1 l2 l3 : steps l1 l2 -> steps l2 l3 -> steps l1 l3.
Proof.
  intros H12 H23. induction H12 as [l l' H | l l1 l' H1 H2 IH].
  - eapply steps_perm_l; [symmetry; eauto | auto].
  - eapply steps_step; eauto.
Qed.

Lemma steps_cons c l l' : steps l l' -> steps (c :: l) (c :: l').
Proof.
  induction 1 as [l l' H | l l1 l' H1 H2 IH].
  - apply steps_refl. now apply perm_skip.
  - eapply steps_step; [apply step_cons; eauto | auto].
Qed.

Lemma steps_length l l' : steps l l' -> (length l' <= length l)%nat.
Proof.
  induction 1 as [l l' H | l l1 l' H1 H2 IH].
  - now rewrite (Permutation_length H).
  - apply step_length in H1. lia.
Qed.

Lemma perm_cons_cases (x y : Region.t) (l l' : list Region.t) :
  x :: l ≡ₚ y :: l' ->
  (x = y /\ l ≡ₚ l') \/ exists l'', l ≡ₚ y :: l'' /\ l' ≡ₚ x :: l''.
Proof.
  intros H. destruct (decide (x = y)) as [->|Hne].
  - left. split; auto. eapply Permutation_cons_inv; eauto.
  - right. assert (Hy : y ∈ x :: l) by (rewrite H; left).
    apply elem_of_cons in Hy as [Hy|Hy]; [congruence|].
    apply elem_of_Permutation in Hy as [l'' Hl''].
    exists l''. split; auto.
    apply (Permutation_cons_inv (a:=y)). rewrite <- H, Hl''. solve_Permutation.
Qed.

(** *** What the loops compute *)

Lemma absorb_spec (rest : list Region.t) : forall e e' rest' m,
  absorb d e rest = (e', rest', m) ->
  steps (e :: rest) (e' :: rest')
  /\ (length rest' <= length rest)%nat
  /\ (m = true -> (length rest' < length rest)%nat)
  /\ (m = false -> e' = e /\ rest' = rest /\ Forall (fun o => near d e o = false) rest).
Proof.
  induction rest as [|other tl IH]; intros e e' rest' m; simpl.
  - intros [= <- <- <-]. repeat split; auto; try discriminate. now apply steps_refl.
  - destruct (near d e other) eqn:Hn.
    + destruct (absorb d (union e other) tl) as [[e1 r1] m1] eqn:Ha.
      intros [= <- <- <-]. destruct (IH _ _ _ _ Ha) as (Hs & Hl & _ & _).
      repeat split; simpl; try lia; try discriminate.
      eapply steps_step; [|exact Hs].
      now apply (step_intro _ _ e other tl).
    + destruct (absorb d e tl) as [[e1 r1] m1] eqn:Ha.
      intros [= <- <- <-]. destruct (IH _ _ _ _ Ha) as (Hs & Hl & Ht & Hf).
      split; [|split; [|split]]; simpl; try lia.
      * apply (steps_perm_l (other :: e :: tl)); [solve_Permutation|].
        apply (steps_perm_r _ (other :: e1 :: r1)); [solve_Permutation|].
        now apply steps_cons.
      * intros Hm. specialize (Ht Hm). lia.
      * intros Hm. destruct (Hf Hm) as (-> & -> & HF). repeat split; auto.
Qed.

Lemma absorb_none (rest : list Region.t) (e : Region.t) :
  Forall (fun o => near d e o = false) rest -> absorb d e rest = (e, rest, false).
Proof.
  induction 1 as [|other tl Hn _ IH]; simpl; auto.
  now rewrite Hn, IH.
Qed.

Lemma mergePassF_spec (fuel : nat) : forall l l' m,
  (length l <= fuel)%nat ->
  mergePassF fuel d l = (l', m) ->
  steps l l'
  /\ (m = true -> (length l' < length l)%nat)
  /\ (m = false -> l' = l /\ normalL l).
Proof.
  induction fuel as [|fuel IH]; intros l l' m Hlen; simpl.
  - destruct l; [|simpl in Hlen; lia].
    intros [= <- <-]. repeat split; simpl; auto; try discriminate. now apply steps_refl.
  - destruct l as [|element rest].
    + intros [= <- <-]. repeat split; simpl; auto; try discriminate. now apply steps_refl.
    + destruct (absorb d element rest) as [[e rest'] m1] eqn:Ha.
      destruct (absorb_spec _ _ _ _ _ Ha) as (Hs & Hl & Ht & Hf).
      destruct (mergePassF fuel d rest') as [new m2] eqn:Hp.
      simpl in Hlen.
      destruct (IH rest' new m2 ltac:(lia) Hp) as (Hs2 & Ht2 & Hf2).
      intros [= <- <-]. split; [|split].
      * eapply steps_trans; [exact Hs|]. now apply steps_cons.
      * intros Hm. simpl. apply steps_length in Hs2.
        apply orb_true_iff in Hm as [Hm|Hm].
        -- specialize (Ht Hm). lia.
        -- specialize (Ht2 Hm). lia.
      * intros Hm. apply orb_false_iff in Hm as [Hm1 Hm2].
        destruct (Hf Hm1) as (-> & -> & HF). destruct (Hf2 Hm2) as (-> & HN).
        split; simpl; auto.
Qed.

Lemma mergePassF_normal (fuel : nat) : forall l,
  normalL l -> mergePassF fuel d l = (l, false).
Proof.
  induction fuel as [|fuel IH]; intros l Hn; simpl; auto.
  destruct l as [|element rest]; auto.
  destruct Hn as [HF HN]. now rewrite (absorb_none _ _ HF), (IH _ HN).
Qed.

Lemma mergeLoop_spec (fuel : nat) : forall l,
  (length l <= fuel)%nat ->
  steps l (mergeLoop fuel d l) /\ normalL (mergeLoop fuel d l).
Proof.
  induction fuel as [|fuel IH]; intros l Hlen; simpl.
  - destruct l; [|simpl in Hlen; lia]. split; simpl; auto. now apply steps_refl.
  - destruct (mergePass d l) as [new m] eqn:Hp. unfold mergePass in Hp.
    destruct (mergePassF_spec _ _ _ _ (Nat.le_refl _) Hp) as (Hs & Ht & Hf).
    destruct m.
    + specialize (Ht eq_refl). destruct (IH new ltac:(lia)) as [Hs' Hn'].
      split; auto. eapply steps_trans; eauto.
    + destruct (Hf eq_refl) as [-> Hn]. split; auto.
Qed.

Lemma mergeNearby_spec (l : list Region.t) :
  steps l (mergeNearby d l) /\ normalL (mergeNearby d l).
Proof.
  unfold mergeNearby. destruct l as [|e l].
  - split; simpl; auto. now apply steps_refl.
  - now apply mergeLoop_spec.
Qed.

Lemma mergeNearby_normal (l : list Region.t) : normalL l -> mergeNearby d l = l.
Proof.
  intros Hn. unfold mergeNearby. destruct l as [|e l]; auto.
  simpl length. simpl mergeLoop. unfold mergePass.
  now rewrite (mergePassF_normal _ _ Hn).
Qed.

(** *** Normal forms *)

Lemma normalL_normal (l : list Region.t) : normalL l -> normal l.
Proof.
  induction l as [|e rest IH]; intros Hn a b r Hp.
  - apply Permutation_nil_l in Hp. discriminate.
  - destruct Hn as [HF HN]. rewrite Forall_forall in HF.
    apply perm_cons_cases in Hp as [[-> Hp]|(q & Hq1 & Hq2)].
    + apply HF. rewrite Hp. left.
    + apply perm_cons_cases in Hq2 as [[-> Hq2]|(q' & Hq3 & Hq4)].
      * rewrite near_sym. apply HF. rewrite Hq1. left.
      * apply (IH HN a b q'). now rewrite Hq1, Hq4.
Qed.

Lemma normal_perm (l k : list Region.t) : l ≡ₚ k -> normal l -> normal k.
Proof. intros Hp Hn a b r H. apply (Hn a b r). now rewrite Hp. Qed.

Lemma normal_no_step (l l' : list Region.t) : normal l -> step l l' -> False.
Proof.
  intros Hn [a b r H1 H2 H3]. rewrite (Hn a b r H1) in H2. discriminate.
Qed.

Lemma normalL_lookup (l : list Region.t) : normalL l ->
  forall (i j : nat) a b, i <> j -> l !! i = Some a -> l !! j = Some b -> near d a b = false.
Proof.
  induction l as [|e rest IH]; intros Hn i j a b Hij Hi Hj.
  - discriminate.
  - destruct Hn as [HF HN]. rewrite Forall_forall in HF.
    destruct i as [|i], j as [|j]; simpl in Hi, Hj; try congruence.
    + injection Hi as <-. apply HF. eapply list_elem_of_lookup_2; eauto.
    + injection Hj as <-. rewrite near_sym. apply HF. eapply list_elem_of_lookup_2; eauto.
    + apply (IH HN i j); auto.
Qed.

(** *** Confluence of merging *)

Lemma union_rot1 (a b c : Region.t) : union (union a c) b = union (union a b) c.
Proof. now rewrite !union_assoc, (union_comm c b). Qed.

Lemma union_rot2 (a b c : Region.t) : union (union b c) a = union (union a b) c.
Proof. now rewrite (union_comm (union b c) a), union_assoc. Qed.

Lemma union_rot3 (a b c : Region.t) : union (union c a) b = union (union a b) c.
Proof. now rewrite (union_comm c a), union_rot1. Qed.

Lemma union_rot4 (a b c : Region.t) : union (union c b) a = union (union a b) c.
Proof. now rewrite (union_comm c b), union_rot2. Qed.

(** Two merges out of the same collection either agree or can be joined by
    one more merge on each side. *)
Lemma diamond (l l1 l2 : list Region.t) :
  step l l1 -> step l l2 -> l1 ≡ₚ l2 \/ exists l3, step l1 l3 /\ step l2 l3.
Proof.
  intros [a b r Ha Hab H1] [c e r' Hc Hce H2].
  rewrite Ha in Hc.
  apply perm_cons_cases in Hc as [[<- Hc]|(q & Hq1 & Hq2)].
  - apply perm_cons_cases in Hc as [[<- Hc]|(q & Hq1 & Hq2)].
    + left. now rewrite H1, H2, Hc.
    + right. exists (union (union a b) e :: q). split.
      * apply (step_intro _ _ (union a b) e q); auto.
        -- now rewrite H1, Hq1.
        -- now apply near_union_l.
      * apply (step_intro _ _ (union a e) b q); auto.
        -- rewrite H2, Hq2. solve_Permutation.
        -- now apply near_union_l.
        -- now rewrite (union_rot1 a b e).
  - apply perm_cons_cases in Hq1 as [[<- Hq1]|(q3 & Hq3 & Hq4)].
    + rewrite <- Hq1 in Hq2.
      apply perm_cons_cases in Hq2 as [[-> Hq2]|(q2 & Hq5 & Hq6)].
      * left. now rewrite H1, H2, Hq2, union_comm.
      * right. exists (union (union a b) e :: q2). split.
        -- apply (step_intro _ _ (union a b) e q2); auto.
           ++ now rewrite H1, Hq6.
           ++ now apply near_union_r.
        -- apply (step_intro _ _ (union b e) a q2); auto.
           ++ now rewrite H2, Hq5.
           ++ apply near_union_l. now rewrite near_sym.
           ++ now rewrite (union_rot2 a b e).
    + rewrite Hq4 in Hq2.
      apply perm_cons_cases in Hq2 as [[-> Hq2]|(q4 & Hq5 & Hq6)].
      * right. exists (union (union a b) c :: q3). split.
        -- apply (step_intro _ _ (union a b) c q3); auto.
           ++ now rewrite H1, Hq3.
           ++ apply near_union_l. now rewrite near_sym.
        -- apply (step_intro _ _ (union c a) b q3); auto.
           ++ now rewrite H2, Hq2.
           ++ now apply near_union_r.
           ++ now rewrite (union_rot3 a b c).
      * apply perm_cons_cases in Hq6 as [[<- Hq6]|(q5 & Hq7 & Hq8)].
        -- right. exists (union (union a b) c :: q3). split.
           ++ apply (step_intro _ _ (union a b) c q3); auto.
              ** now rewrite H1, Hq3.
              ** apply near_union_r. now rewrite near_sym.
           ++ apply (step_intro _ _ (union c b) a q3); auto.
              ** rewrite H2, Hq5, Hq6. solve_Permutation.
              ** apply near_union_r. now rewrite near_sym.
              ** now rewrite (union_rot4 a b c).
        -- right. exists (union a b :: union c e :: q5). split.
           ++ apply (step_intro _ _ c e (union a b :: q5)); auto.
              ** rewrite H1, Hq3, Hq7. solve_Permutation.
              ** solve_Permutation.
           ++ apply (step_intro _ _ a b (union c e :: q5)); auto.
              ** rewrite H2, Hq5, Hq8. solve_Permutation.
Qed.

(** Normal forms are unique up to the order of the boxes. *)
Lemma normal_unique (n : nat) : forall l n1 n2,
  length l = n ->
  steps l n1 -> normal n1 -> steps l n2 -> normal n2 -> n1 ≡ₚ n2.
Proof.
  induction n as [n IH] using lt_wf_ind. intros l n1 n2 Hlen S1 N1 S2 N2.
  inversion S1 as [? ? P1|? l1 ? St1 S1']; subst;
  inversion S2 as [? ? P2|? l2 ? St2 S2']; subst.
  - now rewrite <- P1, <- P2.
  - exfalso. apply (normal_no_step l l2); auto.
    apply (normal_perm n1); auto. now symmetry.
  - exfalso. apply (normal_no_step l l1); auto.
    apply (normal_perm n2); auto. now symmetry.
  - pose proof (step_length _ _ St1) as L1.
    pose proof (step_length _ _ St2) as L2.
    destruct (diamond _ _ _ St1 St2) as [P|(l3 & St13 & St23)].
    + apply (IH (length l1) ltac:(lia) l1); auto.
      apply (steps_perm_l l2); auto. now symmetry.
    + destruct (mergeNearby_spec l3) as [S3 N3%normalL_normal].
      transitivity (mergeNearby d l3).
      * apply (IH (length l1) ltac:(lia) l1); auto.
        eapply steps_step; eauto.
      * symmetry. apply (IH (length l2) ltac:(lia) l2); auto.
        eapply steps_step; eauto.
Qed.

Lemma mergeNearby_perm (l l' : list Region.t) :
  l ≡ₚ l' -> mergeNearby d l ≡ₚ mergeNearby d l'.
Proof.
  intros Hp.
  destruct (mergeNearby_spec l) as [S1 N1%normalL_normal].
  destruct (mergeNearby_spec l') as [S2 N2%normalL_normal].
  apply (normal_unique (length l) l); auto.
  apply (steps_perm_l l'); auto. now symmetry.
Qed.

Lemma mergeNearby_idem (l : list Region.t) :
  mergeNearby d (mergeNearby d l) = mergeNearby d l.
Proof. apply mergeNearby_normal, mergeNearby_spec. Qed.

Lemma mergeNearby_apart (l : list Region.t) (i j : nat) (a b : Region.t) :
  i <> j -> mergeNearby d l !! i = Some a -> mergeNearby d l !! j = Some b ->
  ~ (horizontalDistance a b <= d /\ verticalDistance a b <= d).
Proof.
  intros Hij Hi Hj [Hh Hv].
  pose proof (normalL_lookup _ (proj2 (mergeNearby_spec l)) i j a b Hij Hi Hj) as Hn.
  unfold near in Hn. apply andb_false_iff in Hn as [Hn|Hn];
    apply Z.leb_gt in Hn; lia.
Qed.

Lemma lookup_normalL (l : list Region.t) :
  (forall (i j : nat) a b, i <> j -> l !! i = Some a -> l !! j = Some b ->
     near d a b = false) ->
  normalL l.
Proof.
  induction l as [|e rest IH]; intros H; simpl; auto. split.
  - apply Forall_forall. intros o Ho.
    apply list_elem_of_lookup_1 in Ho as [k Hk].
    apply (H 0%nat (S k)); auto.
  - apply IH. intros i j a b Hij Hi Hj. apply (H (S i) (S j)); auto.
Qed.

Lemma mergeNearby_fixed_iff (l : list Region.t) :
  mergeNearby d l = l <->
  (forall (i j : nat) a b, i <> j -> l !! i = Some a -> l !! j = Some b ->
     ~ (horizontalDistance a b <= d /\ verticalDistance a b <= d)).
Proof.
  split.
  - intros Hfix i j a b Hij Hi Hj. rewrite <- Hfix in Hi, Hj.
    now apply (mergeNearby_apart l i j).
  - intros H. apply mergeNearby_normal, lookup_normalL.
    intros i j a b Hij Hi Hj. specialize (H i j a b Hij Hi Hj).
    unfold near. apply andb_false_iff.
    destruct (Z.leb_spec (horizontalDistance a b) d); auto.
    destruct (Z.leb_spec (verticalDistance a b) d); auto.
    exfalso. apply H. lia.
Qed.

(** *** What a merge keeps *)

Lemma totalPixels_perm (l l' : list Region.t) :
  l ≡ₚ l' -> Geometry.totalPixels l = Geometry.totalPixels l'.
Proof. induction 1; simpl; lia. Qed.

Lemma steps_totalPixels (l l' : list Region.t) :
  steps l l' -> Geometry.totalPixels l' = Geometry.totalPixels l.
Proof.
  induction 1 as [l l' Hp|l l1 l' [a b r H1 H2 H3] _ IH].
  - symmetry. now apply totalPixels_perm.
  - rewrite IH, (totalPixels_perm _ _ H3), (totalPixels_perm _ _ H1). simpl. lia.
Qed.

Lemma steps_nil (l l' : list Region.t) : steps l l' -> l' = [] -> l = [].
Proof.
  induction 1 as [l l' Hp|l l1 l' [a b r H1 H2 H3] _ IH]; intros ->.
  - now apply Permutation_nil_r in Hp.
  - specialize (IH eq_refl). subst l1. now apply Permutation_nil_cons in H3.
Qed.

Lemma contains_refl (a : Region.t) : Geometry.contains a a.
Proof. unfold Geometry.contains. lia. Qed.

Lemma contains_trans (a b c : Region.t) :
  Geometry.contains a b -> Geometry.contains b c -> Geometry.contains a c.
Proof. unfold Geometry.contains. lia. Qed.

Lemma contains_union_l (a b : Region.t) : Geometry.contains (union a b) a.
Proof. unfold Geometry.contains, union. simpl. lia. Qed.

Lemma contains_union_r (a b : Region.t) : Geometry.contains (union a b) b.
Proof. unfold Geometry.contains, union. simpl. lia. Qed.

Lemma steps_covers (l l' : list Region.t) :
  steps l l' ->
  forall a, In a l -> exists b, In b l' /\ Geometry.contains b a.
Proof.
  induction 1 as [l l' Hp|l l1 l' [a0 b0 r H1 H2 H3] _ IH]; intros a Ha.
  - exists a. split; [|apply contains_refl]. now apply (Permutation_in _ Hp).
  - assert (Hc : exists c, In c l1 /\ Geometry.contains c a).
    { apply (Permutation_in _ H1) in Ha.
      assert (Hu : In (union a0 b0) l1).
      { apply (Permutation_in _ (Permutation_sym H3)). now left. }
      destruct Ha as [<-|[<-|Ha]].
      - exists (union a0 b0). split; [exact Hu|apply contains_union_l].
      - exists (union a0 b0). split; [exact Hu|apply contains_union_r].
      - exists a. split; [|apply contains_refl].
        apply (Permutation_in _ (Permutation_sym H3)). now right. }
    destruct Hc as (c & Hc & Hca). destruct (IH c Hc) as (b & Hb & Hbc).
    exists b. split; [exact Hb|]. now apply (contains_trans b c a).
Qed.

(** A side of a merged box is a side of one of the two boxes. *)
Lemma steps_side (f : Region.t -> Z) :
  (forall a b, f (union a b) = f a \/ f (union a b) = f b) ->
  forall l l', steps l l' ->
  forall c, In c l' -> exists a, In a l /\ f c = f a.
Proof.
  intros Hf l l'. induction 1 as [l l' Hp|l l1 l' [a0 b0 r H1 H2 H3] _ IH]; intros c Hc.
  - exists c. split; [|reflexivity]. now apply (Permutation_in _ (Permutation_sym Hp)).
  - destruct (IH c Hc) as (a & Ha & E). rewrite E.
    apply (Permutation_in _ H3) in Ha. destruct Ha as [<-|Ha].
    + destruct (Hf a0 b0) as [-> | ->].
      * exists a0. split; [|reflexivity].
        apply (Permutation_in _ (Permutation_sym H1)). now left.
      * exists b0. split; [|reflexivity].
        apply (Permutation_in _ (Permutation_sym H1)). right. now left.
    + exists a. split; [|reflexivity].
      apply (Permutation_in _ (Permutation_sym H1)). right. now right.
Qed.

Lemma steps_spanned (l l' : list Region.t) :
  steps l l' -> forall b, In b l' -> Geometry.spannedBy l b.
Proof.
  intros Hs b Hb. unfold Geometry.spannedBy. repeat split.
  - apply (steps_side Region.x) with (l' := l'); auto.
    intros a0 b0. unfold union. simpl. lia.
  - apply (steps_side Region.y) with (l' := l'); auto.
    intros a0 b0. unfold union. simpl. lia.
  - apply (steps_side (fun e => Region.x e + Region.width e)) with (l' := l'); auto.
    intros a0 b0. unfold union. simpl. lia.
  - apply (steps_side (fun e => Region.y e + Region.height e)) with (l' := l'); auto.
    intros a0 b0. unfold union. simpl. lia.
Qed.

(** A property of boxes that unions keep is kept by a merge. *)
Lemma steps_Forall (P : Region.t -> Prop) :
  (forall a b, P a -> P b -> P (union a b)) ->
  forall l l', steps l l' -> Forall P l -> Forall P l'.
Proof.
  intros HP l l'. induction 1 as [l l' Hp|l l1 l' [a0 b0 r H1 H2 H3] _ IH]; intros Hl.
  - now rewrite <- Hp.
  - apply IH. rewrite H3. rewrite H1 in Hl.
    inversion Hl as [|? ? Pa Hl']; subst. inversion Hl' as [|? ? Pb Hr]; subst.
    constructor; auto.
Qed.

Lemma mergeNearby_totalPixels (l : list Region.t) :
  Geometry.totalPixels (mergeNearby d l) = Geometry.totalPixels l.
Proof. apply steps_totalPixels, mergeNearby_spec. Qed.

Lemma mergeNearby_Forall (P : Region.t -> Prop) (l : list Region.t) :
  (forall a b, P a -> P b -> P (union a b)) ->
  Forall P l -> Forall P (mergeNearby d l).
Proof. intros HP. apply steps_Forall; auto. apply mergeNearby_spec. Qed.

End Distance.

(** C7. The region merger is idempotent: for each of the three mergers
    (red elements, distance 15; highlights, distance 20; overlapping text,
    distance 10) and every list [S] of boxes, merging the output of a merge
    again returns it unchanged; and in the output of one merge no two boxes
    at different positions have both their horizontal and their vertical gap
    (clamped at zero) within the merge distance. More generally a list is
    left unchanged by the merger exactly when its boxes are pairwise apart
    in this sense. *)
Theorem merge_idempotent :
  forall (merge : list Region.t -> list Region.t) (mergeDistance : Z),
    In (merge, mergeDistance)
       [(mergeNearbyElements, 15); (mergeNearbyHighlights, 20); (mergeNearbyRegions, 10)] ->
    forall S : list Region.t,
      merge (merge S) = merge S
      /\ pairwiseApart mergeDistance (merge S)
      /\ (merge S = S <-> pairwiseApart mergeDistance S).
Proof.
  intros merge dist Hin S.
  assert (Hm : merge = mergeNearby dist).
  { simpl in Hin. destruct Hin as [[= <- <-]|[[= <- <-]|[[= <- <-]|[]]]]; reflexivity. }
  subst merge. split; [|split].
  - apply mergeNearby_idem.
  - intros i j a b Hij Hi Hj. now apply (mergeNearby_apart dist S i j).
  - apply mergeNearby_fixed_iff.
Qed.

Lemma merge_idempotent_witness :
  let S := [Region.box 0 0 10 10 60; Region.box 20 0 10 10 70;
            Region.box 100 100 5 5 80] in
  In (mergeNearbyElements, 15)
     [(mergeNearbyElements, 15); (mergeNearbyHighlights, 20); (mergeNearbyRegions, 10)]
  /\ mergeNearbyElements (mergeNearbyElements S) = mergeNearbyElements S.
Proof.
  intros S. split; [left; reflexivity|].
  exact (proj1 (merge_idempotent mergeNearbyElements 15 (or_introl eq_refl) S)).
Defined.

(** C8. The region merger is order-independent: for every list of boxes and
    every permutation of it, each of the three mergers returns the same
    boxes (the same union bounding boxes with the same summed pixel counts),
    up to the order in which the output lists them. *)
Theorem merge_order_independent (l l' : list Region.t) :
  l ≡ₚ l' ->
  mergeNearbyElements l ≡ₚ mergeNearbyElements l'
  /\ mergeNearbyHighlights l ≡ₚ mergeNearbyHighlights l'
  /\ mergeNearbyRegions l ≡ₚ mergeNearbyRegions l'.
Proof.
  intros Hp. repeat split; now apply mergeNearby_perm.
Qed.

Lemma merge_order_independent_witness :
  let a := Region.box 0 0 10 10 60 in
  let b := Region.box 20 0 10 10 70 in
  let c := Region.box 30 22 10 10 80 in
  [a; b; c] ≡ₚ [c; a; b]
  /\ mergeNearbyRegions [a; b; c] ≡ₚ mergeNearbyRegions [c; a; b].
Proof.
  intros a b c.
  assert (Hp : [a; b; c] ≡ₚ [c; a; b]) by solve_Permutation.
  split; [exact Hp|].
  exact (proj2 (proj2 (merge_order_independent _ _ Hp))).
Defined.

(** Merging conserves pixels: for every merge distance (15 for
    [mergeNearbyElements], 20 for [mergeNearbyHighlights], 10 for
    [mergeNearbyRegions]) the pixel counts of the output add up to the same
    total as those of the input; the output has no more boxes than the
    input, and it is empty only when the input is. *)
Theorem merge_conserves_pixels (mergeDistance : Z) (elements : list Region.t) :
  Geometry.totalPixels (mergeNearby mergeDistance elements) = Geometry.totalPixels elements
  /\ (length (mergeNearby mergeDistance elements) <= length elements)%nat
  /\ (mergeNearby mergeDistance elements = [] <-> elements = []).
Proof.
  destruct (mergeNearby_spec mergeDistance elements) as [Hs _].
  split; [|split; [|split]].
  - now apply steps_totalPixels with (d := mergeDistance).
  - now apply steps_length with (d := mergeDistance).
  - now apply steps_nil with (d := mergeDistance).
  - intros ->. reflexivity.
Qed.

(** Merging loses no box and invents no extent: every input box lies within
    some output box, and each of the four sides of an output box is the
    corresponding side of some input box. *)
Theorem merge_covers (mergeDistance : Z) (elements : list Region.t) :
  (forall a, In a elements ->
     exists b, In b (mergeNearby mergeDistance elements) /\ Geometry.contains b a)
  /\ (forall b, In b (mergeNearby mergeDistance elements) ->
        Geometry.spannedBy elements b).
Proof.
  destruct (mergeNearby_spec mergeDistance elements) as [Hs _]. split.
  - now apply steps_covers with (d := mergeDistance).
  - now apply steps_spanned with (d := mergeDistance).
Qed.

End MergerFacts.

(** ** Detection results *)

(** ** The region tracer *)

Module PixelFacts.

Import Pixels.

Section Trace.

Variables (pred : Z -> Z -> Z -> bool) (budget : Z) (data : list Z) (width height : Z).

(** Every turn of the loop uses up one unit of [traceFuel]. *)
Lemma traceStep_fuel (st st' : TraceState) :
  traceStep pred budget data width height st = Some st' ->
  S (traceFuel budget st') = traceFuel budget st.
Proof.
  unfold traceStep, traceFuel.
  destruct (queue st) as [|[x y] rest] eqn:Eq; [discriminate|].
  destruct (Z.leb_spec budget (count st)) as [Hb|Hb]; [discriminate|].
  destruct (_ || _).
  - intros [= <-]. simpl. lia.
  - destruct (satisfies pred _).
    + intros [= <-]. simpl. rewrite length_app. simpl.
      replace (budget - (count st + 1)) with (budget - count st - 1) by lia.
      rewrite Z2Nat.inj_sub by lia. simpl.
      assert (1 <= Z.to_nat (budget - count st))%nat by lia. lia.
    + intros [= <-]. simpl. lia.
Qed.

(** The fuel given to the loop is enough: the loop ends because its
    condition fails. *)
Lemma traceLoop_done (fuel : nat) : forall st,
  (traceFuel budget st <= fuel)%nat ->
  traceStep pred budget data width height
            (traceLoop fuel pred budget data width height st) = None.
Proof.
  induction fuel as [|fuel IH]; intros st Hf; simpl.
  - destruct (traceStep pred budget data width height st) as [st'|] eqn:E; auto.
    apply traceStep_fuel in E. lia.
  - destruct (traceStep pred budget data width height st) as [st'|] eqn:E; auto.
    apply IH. apply traceStep_fuel in E. lia.
Qed.

(** The visited set only grows, and the count never exceeds the budget. *)
Lemma traceStep_visited (st st' : TraceState) :
  traceStep pred budget data width height st = Some st' ->
  visited st ⊆ visited st' /\ count st <= count st' <= count st + 1.
Proof.
  unfold traceStep.
  destruct (queue st) as [|[x y] rest]; [discriminate|].
  destruct (budget <=? count st); [discriminate|].
  destruct (_ || _); [intros [= <-]; simpl; split; [set_solver|lia]|].
  destruct (satisfies pred _); intros [= <-]; simpl; (split; [set_solver|lia]).
Qed.

End Trace.

End PixelFacts.

(** ** The region tracer as a flood fill *)

Module FloodFacts.

Import Pixels Flood.

Section Trace.

Variables (pred : Z -> Z -> Z -> bool) (budget : Z) (data : list Z) (width height : Z).
Variables (startX startY : Z) (visited0 : gset (Z * Z)).

Let seed : Z * Z := (startX, startY).
Let ok : Z * Z -> Prop := fresh pred data width height visited0.

(** What every turn of the loop keeps. *)
Record Inv (st : TraceState) : Prop := mkInv {
  inv_sub : visited0 ⊆ visited st;
  inv_count : count st = Z.of_nat (size (visited st ∖ visited0));
  inv_budget : count st <= Z.max budget 0;
  inv_new : forall p, p ∈ visited st -> p ∉ visited0 ->
    ok p /\ (minX st <= fst p <= maxX st) /\ (minY st <= snd p <= maxY st)
    /\ reachable ok seed p;
  inv_seed : (minX st <= startX <= maxX st) /\ (minY st <= startY <= maxY st);
  inv_queue : forall q, In q (queue st) ->
    q = seed \/ exists p, (p ∈ visited st) /\ (p ∉ visited0) /\ In q (neighbours p);
  inv_closed : forall p, p ∈ visited st -> p ∉ visited0 ->
    forall q, In q (neighbours p) ->
      In q (queue st) \/ (q ∈ visited st) \/ ~ inImage width height q
      \/ passes pred data width q = false;
  inv_start : In seed (queue st) \/ (seed ∈ visited st) \/ ~ inImage width height seed
              \/ passes pred data width seed = false;
  inv_image : inImage width height seed ->
    0 <= minX st /\ maxX st < width /\ 0 <= minY st /\ maxY st < height
}.

Lemma skip_true (x y : Z) (V : gset (Z * Z)) :
  bool_decide ((x, y) ∈ V) || (x <? 0) || (width <=? x) || (y <? 0) || (height <=? y)
  = true ->
  ((x, y) ∈ V) \/ ~ inImage width height (x, y).
Proof.
  rewrite !orb_true_iff, bool_decide_eq_true, !Z.ltb_lt, !Z.leb_le.
  unfold inImage. simpl. intros [[[[H|H]|H]|H]|H]; [now left|right; lia..].
Qed.

Lemma skip_false (x y : Z) (V : gset (Z * Z)) :
  bool_decide ((x, y) ∈ V) || (x <? 0) || (width <=? x) || (y <? 0) || (height <=? y)
  = false ->
  ((x, y) ∉ V) /\ inImage width height (x, y).
Proof.
  rewrite !orb_false_iff, bool_decide_eq_false, !Z.ltb_ge, !Z.leb_gt.
  unfold inImage. simpl. intros [[[[H1 H2] H3] H4] H5]. split; [exact H1|lia].
Qed.

Lemma Inv_start :
  Inv (mkTrace startX startX startY startY 0 [seed] visited0).
Proof.
  constructor; simpl.
  - reflexivity.
  - replace (visited0 ∖ visited0) with (∅ : gset (Z * Z)) by set_solver.
    now rewrite size_empty.
  - lia.
  - intros p Hp Hn. contradiction.
  - lia.
  - intros q [<-|[]]. now left.
  - intros p Hp Hn. contradiction.
  - left. now left.
  - unfold inImage. simpl. lia.
Qed.

Lemma size_fresh (p : Z * Z) (V : gset (Z * Z)) :
  visited0 ⊆ V -> p ∉ V ->
  size (({[ p ]} ∪ V) ∖ visited0) = S (size (V ∖ visited0)).
Proof.
  intros Hsub Hp.
  replace (({[ p ]} ∪ V) ∖ visited0) with ({[ p ]} ∪ (V ∖ visited0)) by set_solver.
  rewrite size_union by set_solver. now rewrite size_singleton.
Qed.

Lemma Inv_step (st st' : TraceState) :
  Inv st -> traceStep pred budget data width height st = Some st' -> Inv st'.
Proof.
  intros I. unfold traceStep.
  destruct (queue st) as [|[x y] remaining] eqn:Eq; [discriminate|].
  destruct (Z.leb_spec budget (count st)) as [Hb|Hb]; [discriminate|].
  assert (Hhead : forall q, In q (queue st) -> q = (x, y) \/ In q remaining).
  { rewrite Eq. intros q [<-|H]; auto. }
  destruct (_ || _) eqn:Eskip.
  - (* the position is skipped *)
    intros [= <-]. apply skip_true in Eskip.
    constructor; simpl; try apply I.
    + intros q Hq. apply (inv_queue st I). rewrite Eq. now right.
    + intros p Hp Hn q Hq.
      destruct (inv_closed st I p Hp Hn q Hq) as [H|H]; [|now right].
      destruct (Hhead q H) as [->|H']; [|now left].
      right. destruct Eskip; [now left|right; now left].
    + destruct (inv_start st I) as [H|H]; [|now right].
      destruct (Hhead _ H) as [E|H']; [|now left].
      right. rewrite E. destruct Eskip; [now left|right; now left].
  - apply skip_false in Eskip. destruct Eskip as [Hnv Him].
    destruct (satisfies pred (rgbAt data width x y)) eqn:Epass.
    + (* the pixel is counted *)
      intros [= <-].
      assert (Hn0 : (x, y) ∉ visited0).
      { intros H. apply Hnv. now apply (inv_sub st I). }
      assert (Hok : ok (x, y)) by (split; [exact Him|split; [exact Epass|exact Hn0]]).
      assert (Hreach : reachable ok seed (x, y)).
      { destruct (inv_queue st I (x, y)) as [E|(p & Hp & Hpn & Hq)].
        - rewrite Eq. now left.
        - rewrite E. apply reach_seed. now rewrite <- E.
        - apply (reach_step ok seed p); auto. apply (inv_new st I p Hp Hpn). }
      constructor; simpl.
      * pose proof (inv_sub st I). set_solver.
      * rewrite size_fresh by (auto; apply I). rewrite (inv_count st I). lia.
      * pose proof (inv_budget st I). lia.
      * intros p Hp Hn. apply elem_of_union in Hp as [Hp|Hp].
        -- apply elem_of_singleton in Hp. subst p. simpl.
           split; [exact Hok|]. split; [lia|]. split; [lia|exact Hreach].
        -- destruct (inv_new st I p Hp Hn) as (H1 & H2 & H3 & H4).
           split; [exact H1|]. split; [lia|]. split; [lia|exact H4].
      * pose proof (inv_seed st I). lia.
      * intros q Hq. apply in_app_or in Hq as [Hq|Hq].
        -- destruct (inv_queue st I q) as [E|(p & Hp & Hpn & Hqp)].
           ++ rewrite Eq. now right.
           ++ now left.
           ++ right. exists p. split; [set_solver|]. split; assumption.
        -- right. exists (x, y). split; [set_solver|]. split; assumption.
      * intros p Hp Hn q Hq. apply elem_of_union in Hp as [Hp|Hp].
        -- apply elem_of_singleton in Hp. subst p. left. apply in_or_app. now right.
        -- destruct (inv_closed st I p Hp Hn q Hq) as [H|[H|H]].
           ++ destruct (Hhead q H) as [->|H'].
              ** right. left. set_solver.
              ** left. apply in_or_app. now left.
           ++ right. left. set_solver.
           ++ right. right. exact H.
      * destruct (inv_start st I) as [H|[H|H]].
        -- destruct (Hhead _ H) as [E|H'].
           ++ right. left. rewrite E. set_solver.
           ++ left. apply in_or_app. now left.
        -- right. left. set_solver.
        -- right. right. exact H.
      * intros Hs. pose proof (inv_image st I Hs). unfold inImage in Him. simpl in Him. lia.
    + (* the pixel fails the test *)
      intros [= <-].
      constructor; simpl; try apply I.
      * intros q Hq. apply (inv_queue st I). rewrite Eq. now right.
      * intros p Hp Hn q Hq.
        destruct (inv_closed st I p Hp Hn q Hq) as [H|H]; [|now right].
        destruct (Hhead q H) as [->|H']; [|now left].
        right. right. right. exact Epass.
      * destruct (inv_start st I) as [H|H]; [|now right].
        destruct (Hhead _ H) as [E|H']; [|now left].
        right. right. right. rewrite E. exact Epass.
Qed.

Lemma Inv_loop (fuel : nat) : forall st,
  Inv st -> Inv (traceLoop fuel pred budget data width height st).
Proof.
  induction fuel as [|fuel IH]; intros st I; simpl; [exact I|].
  destruct (traceStep pred budget data width height st) as [st'|] eqn:E; [|exact I].
  apply IH. now apply (Inv_step st).
Qed.

(** The state in which the loop of a trace ends. *)
Definition final : TraceState :=
  let st0 := mkTrace startX startX startY startY 0 [seed] visited0 in
  traceLoop (traceFuel budget st0) pred budget data width height st0.

Lemma Inv_final : Inv final.
Proof. apply Inv_loop, Inv_start. Qed.

Lemma final_done : queue final = [] \/ budget <= count final.
Proof.
  pose proof (PixelFacts.traceLoop_done pred budget data width height
                (traceFuel budget (mkTrace startX startX startY startY 0 [seed] visited0))
                (mkTrace startX startX startY startY 0 [seed] visited0) (le_n _)) as H.
  fold final in H. unfold traceStep in H.
  destruct (queue final) as [|[x y] remaining]; [now left|].
  destruct (Z.leb_spec budget (count final)); [now right|].
  destruct (_ || _); [discriminate|]. destruct (satisfies _ _); discriminate.
Qed.

Lemma trace_final :
  trace pred budget data width height startX startY visited0
  = (Region.box (minX final) (minY final) (maxX final - minX final)
                (maxY final - minY final) (count final),
     visited final).
Proof. reflexivity. Qed.

End Trace.

Lemma trace_props (pred : Z -> Z -> Z -> bool) (budget : Z) (data : list Z)
    (width height startX startY : Z) (visited : gset (Z * Z)) :
  let '(r, visited') := trace pred budget data width height startX startY visited in
  visited ⊆ visited'
  /\ Region.pixelCount r = Z.of_nat (size (visited' ∖ visited))
  /\ 0 <= Region.pixelCount r <= Z.max budget 0
  /\ 0 <= Region.width r /\ 0 <= Region.height r
  /\ inBox r (startX, startY)
  /\ (forall p, p ∈ visited' -> p ∉ visited ->
        fresh pred data width height visited p /\ inBox r p)
  /\ (inImage width height (startX, startY) ->
      0 <= Region.x r /\ Region.x r + Region.width r < width
      /\ 0 <= Region.y r /\ Region.y r + Region.height r < height).
Proof.
  rewrite trace_final.
  pose proof (Inv_final pred budget data width height startX startY visited) as I.
  set (st := final pred budget data width height startX startY visited) in *.
  pose proof (inv_seed _ _ _ _ _ _ _ _ st I) as Hseed.
  split; [apply I|]. split; [apply I|].
  split; [simpl; rewrite (inv_count _ _ _ _ _ _ _ _ st I) at 1; split; [lia|apply I]|].
  split; [simpl; lia|]. split; [simpl; lia|].
  split; [unfold inBox; simpl; lia|].
  split.
  - intros p Hp Hn.
    destruct (inv_new _ _ _ _ _ _ _ _ st I p Hp Hn) as (H1 & H2 & H3 & _).
    split; [exact H1|]. unfold inBox. simpl. lia.
  - intros Him. pose proof (inv_image _ _ _ _ _ _ _ _ st I Him). simpl. lia.
Qed.


(** *** Page scans *)

Section Scan.

Variables (pred : Z -> Z -> Z -> bool) (budget : Z).
Variables (tag : Region.t -> Region.t) (keep : Region.t -> bool).
Variables (data : list Z) (width height : Z).

Hypothesis tag_box : forall e,
  Region.x (tag e) = Region.x e /\ Region.y (tag e) = Region.y e
  /\ Region.width (tag e) = Region.width e /\ Region.height (tag e) = Region.height e
  /\ Region.pixelCount (tag e) = Region.pixelCount e.

(** What the seed loop keeps. *)
Definition scanned (acc : list Region.t * gset (Z * Z)) : Prop :=
  (forall p, p ∈ snd acc -> inImage width height p)
  /\ Geometry.totalPixels (fst acc) <= Z.of_nat (size (snd acc))
  /\ Forall (fun e => keep e = true /\ boxInImage width height e) (fst acc).

Lemma totalPixels_app (l1 l2 : list Region.t) :
  Geometry.totalPixels (l1 ++ l2) = Geometry.totalPixels l1 + Geometry.totalPixels l2.
Proof. induction l1 as [|e l1 IH]; simpl; lia. Qed.

Lemma scanned_step (acc : list Region.t * gset (Z * Z)) (p : Z * Z) :
  inImage width height p -> scanned acc ->
  scanned (seedStep pred budget tag keep data width height acc p).
Proof.
  destruct acc as [elements visited]. destruct p as [x y].
  intros Hp (Hv & Ht & Hf). unfold seedStep.
  destruct (_ && _); [|exact (conj Hv (conj Ht Hf))].
  pose proof (trace_props pred budget data width height x y visited) as Ht'.
  destruct (trace pred budget data width height x y visited) as [element visited'].
  destruct Ht' as (Hsub & Hc & _ & Hw & Hh & _ & Hnew & Him).
  specialize (Him Hp). destruct (tag_box element) as (Ex & Ey & Ew & Eh & Ec).
  assert (Hv' : forall q, q ∈ visited' -> inImage width height q).
  { intros q Hq. destruct (decide (q ∈ visited)) as [Hin|Hin]; [now apply Hv|].
    apply (Hnew q Hq Hin). }
  assert (Hs : Z.of_nat (size visited')
               = Z.of_nat (size visited) + Region.pixelCount element).
  { rewrite Hc, size_difference by exact Hsub.
    pose proof (subseteq_size _ _ Hsub). lia. }
  simpl in Ht.
  destruct (keep (tag element)) eqn:Ek; unfold scanned; simpl.
  - split; [exact Hv'|]. split.
    + rewrite totalPixels_app. simpl. lia.
    + apply Forall_app. split; [exact Hf|]. constructor; [|constructor].
      split; [exact Ek|]. unfold boxInImage. lia.
  - split; [exact Hv'|]. split; [|exact Hf].
    pose proof (subseteq_size _ _ Hsub). lia.
Qed.

Lemma scanned_fold (seeds : list (Z * Z)) : forall acc,
  Forall (inImage width height) seeds -> scanned acc ->
  scanned (fold_left (seedStep pred budget tag keep data width height) seeds acc).
Proof.
  induction seeds as [|p seeds IH]; intros acc Hs Ha; simpl; [exact Ha|].
  inversion Hs; subst. apply IH; [assumption|]. now apply scanned_step.
Qed.

Lemma range_bounds (first limit stride v : Z) :
  0 < stride -> In v (range first limit stride) -> first <= v < limit.
Proof.
  intros Hs. unfold range. rewrite in_map_iff. intros (k & <- & Hk).
  apply in_seq in Hk. destruct Hk as [_ Hk]. simpl in Hk.
  assert (Hq : 0 < (limit - first + stride - 1) / stride) by lia.
  pose proof (Z.mul_div_le (limit - first + stride - 1) stride Hs).
  assert (Z.of_nat k + 1 <= (limit - first + stride - 1) / stride) by lia.
  nia.
Qed.

Lemma scan_inImage (dx dy : Z) :
  0 < dx -> 0 < dy -> Forall (inImage width height) (scan width height dx dy).
Proof.
  intros Hx Hy. apply List.Forall_forall. intros [x y]. unfold scan.
  rewrite in_flat_map. intros (y' & Hy' & Hin). apply in_map_iff in Hin.
  destruct Hin as (x' & [= <- <-] & Hx').
  apply range_bounds in Hx'; [|exact Hx]. apply range_bounds in Hy'; [|exact Hy].
  unfold inImage. simpl. lia.
Qed.

Lemma size_in_image (visited : gset (Z * Z)) :
  (forall p, p ∈ visited -> inImage width height p) ->
  Z.of_nat (size visited) <= Z.max 0 width * Z.max 0 height.
Proof.
  intros Hv.
  set (all := list_prod (seqZ 0 width) (seqZ 0 height)).
  assert (Hsub : visited ⊆ list_to_set all).
  { intros [x y] Hp. apply elem_of_list_to_set, list_elem_of_In, in_prod_iff.
    destruct (Hv _ Hp) as [H1 H2]. simpl in H1, H2.
    split; apply list_elem_of_In, elem_of_seqZ; lia. }
  apply subseteq_size in Hsub.
  assert (Hl : (size (list_to_set all : gset (Z * Z)) <= length all)%nat).
  { clear. induction all as [|a l IH].
    - change (size (∅ : gset (Z * Z)) <= 0)%nat. now rewrite size_empty.
    - change (size ({[a]} ∪ list_to_set l : gset (Z * Z)) <= S (length l))%nat.
      rewrite size_union_alt, size_singleton.
      pose proof (subseteq_size (list_to_set l ∖ {[a]}) (list_to_set l : gset (Z * Z))
                    ltac:(set_solver)). lia. }
  subst all. rewrite length_prod, !length_seqZ in Hl.
  assert (E : Z.of_nat (Z.to_nat width * Z.to_nat height) = Z.max 0 width * Z.max 0 height)
    by (rewrite Nat2Z.inj_mul; lia).
  lia.
Qed.

(** The regions of a page scan: every one passed [keep], has its box in
    the image, and together they count no pixel twice. *)
Lemma findRegions_spec (dx dy : Z) :
  0 < dx -> 0 < dy ->
  Forall (fun e => keep e = true /\ boxInImage width height e)
         (findRegions pred budget tag keep dx dy data width height)
  /\ Geometry.totalPixels (findRegions pred budget tag keep dx dy data width height)
     <= Z.max 0 width * Z.max 0 height.
Proof.
  intros Hx Hy. unfold findRegions.
  assert (H0 : scanned ([], ∅)).
  { split; [set_solver|]. split; [simpl; lia|constructor]. }
  pose proof (scanned_fold (scan width height dx dy) ([], ∅) (scan_inImage dx dy Hx Hy) H0)
    as (Hv & Ht & Hf).
  split; [exact Hf|].
  pose proof (size_in_image _ Hv). lia.
Qed.

End Scan.

(** What a trace returns, for every pixel test and budget ([traceElement]:
    reddish, 100000; [traceHighlightedArea]: highlight, 100000;
    [traceBlackRegion]: black, 10000). The visited set only grows; the
    pixel count of the region is the number of pixels added to it, and it
    does not exceed the budget; every added pixel lies in the image, passes
    the test, was not visited before and lies in the box of the region; the
    box has a non-negative width and height and contains the start
    position, and it lies in the image when the start position does. *)
Theorem trace_region (pred : Z -> Z -> Z -> bool) (budget : Z) (data : list Z)
    (width height startX startY : Z) (visited : gset (Z * Z)) :
  let '(r, visited') := trace pred budget data width height startX startY visited in
  visited ⊆ visited'
  /\ Region.pixelCount r = Z.of_nat (size (visited' ∖ visited))
  /\ 0 <= Region.pixelCount r <= Z.max budget 0
  /\ 0 <= Region.width r /\ 0 <= Region.height r
  /\ inBox r (startX, startY)
  /\ (forall p, p ∈ visited' -> p ∉ visited ->
        fresh pred data width height visited p /\ inBox r p)
  /\ (inImage width height (startX, startY) ->
      0 <= Region.x r /\ Region.x r + Region.width r < width
      /\ 0 <= Region.y r /\ Region.y r + Region.height r < height).
Proof. apply trace_props. Qed.

(** A trace that ends below its budget is a flood fill: the pixels it adds
    to the visited set are exactly those joined to the start position by a
    chain of neighbouring pixels of the image that pass the test and were
    not visited before. *)
Theorem trace_floods (pred : Z -> Z -> Z -> bool) (budget : Z) (data : list Z)
    (width height startX startY : Z) (visited visited' : gset (Z * Z)) (r : Region.t) :
  trace pred budget data width height startX startY visited = (r, visited') ->
  Region.pixelCount r < budget ->
  forall q,
    (q ∈ visited' /\ q ∉ visited)
    <-> reachable (fresh pred data width height visited) (startX, startY) q.
Proof.
  rewrite trace_final. intros [= <- <-]. simpl. intros Hb q.
  pose proof (Inv_final pred budget data width height startX startY visited) as I.
  destruct (final_done pred budget data width height startX startY visited) as [Hq|Hq];
    [|lia].
  set (st := final pred budget data width height startX startY visited) in *.
  split.
  - intros [H1 H2]. apply (inv_new _ _ _ _ _ _ _ _ st I q H1 H2).
  - induction 1 as [Hok|p q' Hr [IH1 IH2] Hn Hok].
    + split; [|apply Hok].
      destruct (inv_start _ _ _ _ _ _ _ _ st I) as [H|[H|[H|H]]].
      * rewrite Hq in H. destruct H.
      * exact H.
      * destruct (H (proj1 Hok)).
      * destruct Hok as (_ & Hp & _). congruence.
    + split; [|apply Hok].
      destruct (inv_closed _ _ _ _ _ _ _ _ st I p IH1 IH2 q' Hn) as [H|[H|[H|H]]].
      * rewrite Hq in H. destruct H.
      * exact H.
      * destruct (H (proj1 Hok)).
      * destruct Hok as (_ & Hp & _). congruence.
Qed.

Lemma trace_floods_witness :
  let t := trace RedElements.isReddish 100000 [200; 0; 0; 255; 200; 0; 0; 255] 2 1 0 0 ∅ in
  Region.pixelCount (fst t) < 100000
  /\ forall q,
       (q ∈ snd t /\ q ∉ (∅ : gset (Z * Z)))
       <-> reachable (fresh RedElements.isReddish [200; 0; 0; 255; 200; 0; 0; 255] 2 1 ∅)
                     (0, 0) q.
Proof.
  intros t.
  assert (Hb : Region.pixelCount (fst t) < 100000) by (vm_compute; reflexivity).
  split; [exact Hb|].
  exact (trace_floods RedElements.isReddish 100000 [200; 0; 0; 255; 200; 0; 0; 255]
                      2 1 0 0 ∅ (snd t) (fst t) (surjective_pairing t) Hb).
Defined.

End FloodFacts.

(** ** What the pixel analyzers report *)

Module AnalyzerFacts.

Import Flood.

Lemma boxInImage_union (width height : Z) (a b : Region.t) :
  boxInImage width height a -> boxInImage width height b ->
  boxInImage width height (Merger.union a b).
Proof. unfold boxInImage, Merger.union. simpl. lia. Qed.

Lemma tag_pixel (e : Region.t) :
  Region.x (OverlappingText.tagPixel e) = Region.x e
  /\ Region.y (OverlappingText.tagPixel e) = Region.y e
  /\ Region.width (OverlappingText.tagPixel e) = Region.width e
  /\ Region.height (OverlappingText.tagPixel e) = Region.height e
  /\ Region.pixelCount (OverlappingText.tagPixel e) = Region.pixelCount e.
Proof. repeat split. Qed.

(** The regions of a scan, merged: a property of the kept regions that
    unions keep holds of every reported region, and the reported regions
    count no more pixels than the image has. *)
Lemma merged_scan (pred : Z -> Z -> Z -> bool) (budget : Z)
    (tag : Region.t -> Region.t) (keep : Region.t -> bool) (dx dy d : Z)
    (data : list Z) (width height : Z) (P : Region.t -> Prop) :
  (forall e,
     Region.x (tag e) = Region.x e /\ Region.y (tag e) = Region.y e
     /\ Region.width (tag e) = Region.width e /\ Region.height (tag e) = Region.height e
     /\ Region.pixelCount (tag e) = Region.pixelCount e) ->
  0 < dx -> 0 < dy ->
  (forall e, keep e = true -> boxInImage width height e -> P e) ->
  (forall a b, P a -> P b -> P (Merger.union a b)) ->
  Forall P (Merger.mergeNearby d (Pixels.findRegions pred budget tag keep dx dy data width height))
  /\ Geometry.totalPixels
       (Merger.mergeNearby d (Pixels.findRegions pred budget tag keep dx dy data width height))
     <= Z.max 0 width * Z.max 0 height.
Proof.
  intros Htag Hx Hy Hkeep Hunion.
  destruct (FloodFacts.findRegions_spec pred budget tag keep data width height Htag dx dy Hx Hy)
    as [Hf Ht].
  split.
  - apply MergerFacts.mergeNearby_Forall; [exact Hunion|].
    eapply Forall_impl; [exact Hf|]. intros e [H1 H2]. now apply Hkeep.
  - now rewrite MergerFacts.mergeNearby_totalPixels.
Qed.

(** The red elements of a page: the analyzer resolves, and calls
    [onProgress] once, with the final count. Every reported element counts
    more than 50 pixels, has a box with a non-negative width and height
    that lies in the image, and together the reported elements count no
    more pixels than the image has. *)
Theorem red_elements_regions (pixels : Pixels.ImageData) (onProgress : bool) :
  exists r,
    RedElements.detectRedElements (Some pixels) onProgress
    = mkRun (Resolved r) (report onProgress (count r))
    /\ Forall (fun e => 50 < Region.pixelCount e
                        /\ boxInImage (Pixels.width pixels) (Pixels.height pixels) e)
              (locations r)
    /\ Geometry.totalPixels (locations r)
       <= Z.max 0 (Pixels.width pixels) * Z.max 0 (Pixels.height pixels).
Proof.
  unfold RedElements.detectRedElements, RedElements.findRedElementsWithProgress.
  eexists (mkResult _ _ _ _). split; [reflexivity|]. cbn [locations].
  apply (merged_scan RedElements.isReddish 100000 (fun e => e)
                     (fun e => 50 <? Region.pixelCount e) 2 2 15
                     (Pixels.data pixels) (Pixels.width pixels) (Pixels.height pixels)); try lia.
  - intros e He Hb. apply Z.ltb_lt in He. split; assumption.
  - intros a b [Ha Hba] [Hb Hbb]. split; [simpl; lia|now apply boxInImage_union].
Qed.

(** The highlights of a page: the analyzer resolves when the image loads,
    and calls [onProgress] once, with the final count. Every reported
    highlight counts more than 100 pixels, is more than 5 pixels wide and
    high and more than 15 pixels in one of the two directions, has a box
    of at least 1200 square pixels that lies in the image, and together
    the reported highlights count no more pixels than the image has. *)
Theorem highlights_regions (pixels : Pixels.ImageData) (onProgress : bool) :
  exists r,
    Highlights.detectHighlights (Some pixels) onProgress
    = mkRun (Resolved r) (report onProgress (count r))
    /\ Forall (fun e => 100 < Region.pixelCount e
                        /\ 5 < Region.width e /\ 5 < Region.height e
                        /\ (15 < Region.width e \/ 15 < Region.height e)
                        /\ 1200 <= Region.width e * Region.height e
                        /\ boxInImage (Pixels.width pixels) (Pixels.height pixels) e)
              (locations r)
    /\ Geometry.totalPixels (locations r)
       <= Z.max 0 (Pixels.width pixels) * Z.max 0 (Pixels.height pixels).
Proof.
  unfold Highlights.detectHighlights, Highlights.findHighlightedTextWithProgress.
  eexists (mkResult _ _ _ _). split; [reflexivity|]. cbn [locations].
  apply (merged_scan Highlights.isHighlight 100000 (fun e => e)
                     (Highlights.keepHighlight (Pixels.data pixels) (Pixels.width pixels) (Pixels.height pixels))
                     1 1 20 (Pixels.data pixels) (Pixels.width pixels) (Pixels.height pixels)); try lia.
  - intros e He Hb. unfold Highlights.keepHighlight in He.
    apply andb_true_iff in He as [He Hr]. apply andb_true_iff in He as [Hc Hs].
    apply Z.ltb_lt in Hc.
    assert (Ha : 1200 <= Region.width e * Region.height e).
    { unfold Highlights.isRectangularOrTrapezoidal in Hr.
      destruct (Z.ltb_spec (Region.width e * Region.height e) 1200); [discriminate|lia]. }
    rewrite orb_true_iff, !andb_true_iff, !Z.ltb_lt in Hs.
    split; [exact Hc|]. split; [lia|]. split; [lia|]. split; [lia|].
    split; [exact Ha|exact Hb].
  - intros a b (Ha1 & Ha2 & Ha3 & Ha4 & Ha5 & Ha6) (Hb1 & Hb2 & Hb3 & Hb4 & Hb5 & Hb6).
    split; [simpl; lia|]. split; [simpl; lia|]. split; [simpl; lia|].
    split; [simpl; lia|]. split; [|now apply boxInImage_union].
    simpl. nia.
Qed.

(** *** Quotients against constants *)

Lemma quotient_ltb (a b : Z) (q : Q) :
  0 < b -> (JsNum.ltb (JsNum.div a b) q = true <-> a * Zpos (Qden q) < Qnum q * b).
Proof.
  intros Hb. unfold JsNum.div. destruct (Z.eqb_spec b 0) as [->|_]; [lia|].
  unfold JsNum.ltb, JsNum.Qltb. rewrite negb_true_iff.
  rewrite <- not_true_iff_false, Qle_bool_iff.
  destruct b as [|p|p]; try lia. destruct q as [n d].
  unfold Qle, Qdiv, Qmult, Qinv. simpl. lia.
Qed.

Lemma quotient_gtb (a b : Z) (q : Q) :
  0 < b -> (JsNum.gtb (JsNum.div a b) q = true <-> Qnum q * b < a * Zpos (Qden q)).
Proof.
  intros Hb. unfold JsNum.div. destruct (Z.eqb_spec b 0) as [->|_]; [lia|].
  unfold JsNum.gtb, JsNum.Qltb. rewrite negb_true_iff.
  rewrite <- not_true_iff_false, Qle_bool_iff.
  destruct b as [|p|p]; try lia. destruct q as [n d].
  unfold Qle, Qdiv, Qmult, Qinv. simpl. lia.
Qed.

Lemma countPixels_bounds (pred : Z -> Z -> Z -> bool) (data : list Z) (width : Z)
    (ps : list (Z * Z)) :
  0 <= Highlights.countPixels pred data width ps <= Z.of_nat (length ps).
Proof.
  unfold Highlights.countPixels. split; [lia|].
  apply inj_le. apply length_filter.
Qed.

(** The density of a box is a quotient of two counts, the first at most the
    second: it is [NaN] when the box has no pixel in the image, and between
    0 and 1 otherwise. *)
Lemma calculateDensity_counts (data : list Z) (width height : Z) (element : Region.t) :
  exists black total,
    OverlappingText.calculateDensity data width height element = JsNum.div black total
    /\ 0 <= black <= total.
Proof.
  unfold OverlappingText.calculateDensity. cbv zeta.
  eexists _, _. split; [reflexivity|]. apply countPixels_bounds.
Qed.

Lemma isOverlappingText_shape (data : list Z) (width height : Z) (element : Region.t) :
  OverlappingText.isOverlappingText data width height element = true ->
  10 <= Region.height element <= 35
  /\ 30 <= Region.width element
  /\ 2 * Region.height element <= Region.width element <= 15 * Region.height element
  /\ exists black total,
       OverlappingText.calculateDensity data width height element = JsNum.div black total
       /\ 0 <= black <= total
       /\ 32 * total <= 100 * black /\ 10 * black <= 7 * total.
Proof.
  unfold OverlappingText.isOverlappingText. cbv zeta.
  destruct (JsNum.ltb (OverlappingText.calculateDensity _ _ _ _) _ || _) eqn:Ed;
    [discriminate|].
  destruct (JsNum.ltb (JsNum.div _ _) _ || _) eqn:Ea; [discriminate|].
  destruct ((Region.height element <? 10) || _) eqn:Eh; [discriminate|].
  destruct (Z.ltb_spec (Region.width element) 30) as [|Hw]; [discriminate|]. intros _.
  apply orb_false_iff in Eh as [Eh1 Eh2]. apply Z.ltb_ge in Eh1, Eh2.
  apply orb_false_iff in Ea as [Ea1 Ea2].
  apply not_true_iff_false in Ea1, Ea2.
  rewrite quotient_ltb in Ea1 by lia. rewrite quotient_gtb in Ea2 by lia.
  simpl in Ea1, Ea2.
  split; [lia|]. split; [lia|]. split; [lia|].
  destruct (calculateDensity_counts data width height element) as (black & total & E & Hbt).
  exists black, total. split; [exact E|]. split; [exact Hbt|].
  rewrite E in Ed. apply orb_false_iff in Ed as [Ed1 Ed2].
  apply not_true_iff_false in Ed1, Ed2.
  destruct (Z.eq_dec total 0) as [->|Hne]; [lia|].
  rewrite quotient_ltb in Ed1 by lia. rewrite quotient_gtb in Ed2 by lia.
  simpl in Ed1, Ed2. lia.
Qed.

(** The pixel regions of the overlapping-text analyzer, by [findOverlappingText]
    and by [detectOverlappingTextPixel], which calls [onProgress] once with
    the final count: every reported region is at least 30 pixels wide and
    at least 10 pixels high, its box lies in the image, and together the
    reported regions count no more pixels than the image has. *)
Theorem pixel_overlaps_regions (imageData : Pixels.ImageData) (onProgress : bool) :
  let reported (l : list Region.t) :=
    Forall (fun e => 30 <= Region.width e /\ 10 <= Region.height e
                     /\ boxInImage (Pixels.width imageData) (Pixels.height imageData) e) l
    /\ Geometry.totalPixels l
       <= Z.max 0 (Pixels.width imageData) * Z.max 0 (Pixels.height imageData) in
  reported (OverlappingText.findOverlappingText
              (Pixels.data imageData) (Pixels.width imageData) (Pixels.height imageData))
  /\ exists r,
       OverlappingText.detectOverlappingTextPixel imageData onProgress
       = mkRun (Resolved r) (report onProgress (count r))
       /\ reported (locations r).
Proof.
  intros reported.
  assert (H : reported (OverlappingText.findOverlappingText
                          (Pixels.data imageData) (Pixels.width imageData)
                          (Pixels.height imageData))).
  { unfold reported, OverlappingText.findOverlappingText.
    apply (merged_scan OverlappingText.isBlack 10000 OverlappingText.tagPixel
                       (OverlappingText.isOverlappingText
                          (Pixels.data imageData) (Pixels.width imageData)
                          (Pixels.height imageData))
                       6 3 10); try lia.
    - apply tag_pixel.
    - intros e He Hb. apply isOverlappingText_shape in He. split; [lia|]. split; [lia|exact Hb].
    - intros a b (Ha1 & Ha2 & Ha3) (Hb1 & Hb2 & Hb3).
      split; [simpl; lia|]. split; [simpl; lia|now apply boxInImage_union]. }
  split; [exact H|].
  unfold OverlappingText.detectOverlappingTextPixel,
    OverlappingText.findOverlappingTextWithProgress.
  eexists (mkResult _ _ _ _). split; [reflexivity|]. exact H.
Qed.

(** A region that the pixel method takes for overlapping text is between
    10 and 35 pixels high, at least 30 pixels wide, between 2 and 15 times
    as wide as high, and between 32 and 70 percent of the pixels of its box
    (clipped to the image) are black. *)
Theorem overlapping_text_shape (data : list Z) (width height : Z) (element : Region.t) :
  OverlappingText.isOverlappingText data width height element = true ->
  10 <= Region.height element <= 35
  /\ 30 <= Region.width element
  /\ 2 * Region.height element <= Region.width element <= 15 * Region.height element
  /\ exists black total,
       OverlappingText.calculateDensity data width height element = JsNum.div black total
       /\ 0 <= black <= total
       /\ 32 * total <= 100 * black /\ 10 * black <= 7 * total.
Proof. apply isOverlappingText_shape. Qed.

Lemma overlapping_text_shape_witness :
  OverlappingText.isOverlappingText Samples.stripes 32 10 (Region.box 0 0 32 10 160) = true
  /\ 2 * 10 <= 32 <= 15 * 10.
Proof.
  assert (H : OverlappingText.isOverlappingText Samples.stripes 32 10
                (Region.box 0 0 32 10 160) = true) by (vm_compute; reflexivity).
  split; [exact H|].
  exact (proj1 (proj2 (proj2 (overlapping_text_shape _ _ _ _ H)))).
Defined.

End AnalyzerFacts.

Module DetectionFacts.

Lemma mkResult_wellFormed {L : Type} (elements : list L) (msg : string) :
  wellFormed (mkResult (0 <? length elements)%nat (length elements) elements msg).
Proof. split; reflexivity. Qed.

Lemma red_resolved (pixels : Pixels.ImageData) (onProgress : bool) :
  exists r, promise (RedElements.detectRedElements (Some pixels) onProgress) = Resolved r
            /\ wellFormed r.
Proof.
  unfold RedElements.detectRedElements.
  destruct (RedElements.findRedElementsWithProgress _ _ _ _) as [elements calls].
  eexists; split; [reflexivity|apply mkResult_wellFormed].
Qed.

Lemma highlights_resolved (pixels : Pixels.ImageData) (onProgress : bool) :
  exists r, promise (Highlights.detectHighlights (Some pixels) onProgress) = Resolved r
            /\ wellFormed r.
Proof.
  unfold Highlights.detectHighlights.
  destruct (Highlights.findHighlightedTextWithProgress _ _ _ _) as [elements calls].
  eexists; split; [reflexivity|apply mkResult_wellFormed].
Qed.

Lemma noRefs_resolved (onProgress : bool) (pdfPage : option Pdf.Page) :
  exists r, promise (NoRefs.detectNoRefs onProgress pdfPage) = Resolved r /\ wellFormed r.
Proof.
  unfold NoRefs.detectNoRefs.
  destruct pdfPage as [page|]; [destruct (Pdf.textItems page)|];
    eexists; (split; [reflexivity|apply mkResult_wellFormed]).
Qed.

Lemma overlapping_resolved (imageData : Pixels.ImageData) (onProgress : bool)
    (pdfPage : option Pdf.Page) :
  exists r, promise (OverlappingText.detectOverlappingText imageData onProgress pdfPage)
            = Resolved r /\ wellFormed r.
Proof.
  unfold OverlappingText.detectOverlappingText.
  eexists; split; [reflexivity|apply mkResult_wellFormed].
Qed.

Lemma overlappingPDF_resolved (pdfPage : option Pdf.Page) (onProgress : bool) :
  exists r, promise (OverlappingText.detectOverlappingTextPDF pdfPage onProgress)
            = Resolved r /\ wellFormed r.
Proof.
  unfold OverlappingText.detectOverlappingTextPDF.
  destruct pdfPage as [page|]; [destruct (Pdf.textItems page)|];
    eexists; (split; [reflexivity|apply mkResult_wellFormed]).
Qed.

Lemma overlappingPixel_resolved (imageData : Pixels.ImageData) (onProgress : bool) :
  exists r, promise (OverlappingText.detectOverlappingTextPixel imageData onProgress)
            = Resolved r /\ wellFormed r.
Proof.
  unfold OverlappingText.detectOverlappingTextPixel.
  destruct (OverlappingText.findOverlappingTextWithProgress _ _ _ _) as [elements calls].
  eexists; split; [reflexivity|apply mkResult_wellFormed].
Qed.

(** Whatever a promise resolves to is determined by the promise. *)
Ltac by_resolved H E :=
  let r' := fresh "r" in
  let Hp := fresh "Hp" in
  let Hw := fresh "Hw" in
  destruct E as (r' & Hp & Hw); rewrite Hp in H; injection H as <-; exact Hw.

(** C1. Every detection result returned by the red-element, highlight,
    missing-reference and overlapping-text analyzers, on any page input,
    has [detected] true exactly when [count > 0], and [count] equal to the
    length of [locations]. The red-element and highlight analyzers return a
    result for every page image that loads; the other analyzers (the
    overlapping-text one through its three entry points) return a result on
    every input. *)
Theorem result_invariant :
  (forall img onProgress r,
      promise (RedElements.detectRedElements img onProgress) = Resolved r ->
      wellFormed r)
  /\ (forall img onProgress r,
      promise (Highlights.detectHighlights img onProgress) = Resolved r ->
      wellFormed r)
  /\ (forall onProgress pdfPage r,
      promise (NoRefs.detectNoRefs onProgress pdfPage) = Resolved r ->
      wellFormed r)
  /\ (forall imageData onProgress pdfPage r,
      promise (OverlappingText.detectOverlappingText imageData onProgress pdfPage)
      = Resolved r ->
      wellFormed r)
  /\ (forall pdfPage onProgress r,
      promise (OverlappingText.detectOverlappingTextPDF pdfPage onProgress) = Resolved r ->
      wellFormed r)
  /\ (forall imageData onProgress r,
      promise (OverlappingText.detectOverlappingTextPixel imageData onProgress)
      = Resolved r ->
      wellFormed r)
  /\ (forall pixels onProgress,
      exists r, promise (RedElements.detectRedElements (Some pixels) onProgress)
                = Resolved r)
  /\ (forall pixels onProgress,
      exists r, promise (Highlights.detectHighlights (Some pixels) onProgress)
                = Resolved r)
  /\ (forall onProgress pdfPage,
      exists r, promise (NoRefs.detectNoRefs onProgress pdfPage) = Resolved r)
  /\ (forall imageData onProgress pdfPage,
      exists r, promise (OverlappingText.detectOverlappingText imageData onProgress pdfPage)
                = Resolved r).
Proof.
  split; [|split; [|split; [|split; [|split; [|split; [|split; [|split; [|split]]]]]]]].
  - intros [pixels|] onProgress r H; [|discriminate].
    by_resolved H (red_resolved pixels onProgress).
  - intros [pixels|] onProgress r H; [|discriminate].
    by_resolved H (highlights_resolved pixels onProgress).
  - intros onProgress pdfPage r H. by_resolved H (noRefs_resolved onProgress pdfPage).
  - intros imageData onProgress pdfPage r H.
    by_resolved H (overlapping_resolved imageData onProgress pdfPage).
  - intros pdfPage onProgress r H. by_resolved H (overlappingPDF_resolved pdfPage onProgress).
  - intros imageData onProgress r H.
    by_resolved H (overlappingPixel_resolved imageData onProgress).
  - intros pixels onProgress.
    destruct (red_resolved pixels onProgress) as (r & H & _); eauto.
  - intros pixels onProgress.
    destruct (highlights_resolved pixels onProgress) as (r & H & _); eauto.
  - intros onProgress pdfPage.
    destruct (noRefs_resolved onProgress pdfPage) as (r & H & _); eauto.
  - intros imageData onProgress pdfPage.
    destruct (overlapping_resolved imageData onProgress pdfPage) as (r & H & _); eauto.
Qed.

End DetectionFacts.

(** ** Overlapping text *)

Module OverlappingFacts.

Import Pdf OverlappingText.

(** Every reported region is pushed for a pair of items that are both
    outside every bubble. *)
Lemma checkPairs_sources (vp : Viewport) (bubbles : list Bubble)
    (items : list TextItem) (r : TextOverlap.t) :
  In r (checkPairs vp bubbles items) ->
  exists item1 item2,
    In item1 items /\ In item2 items
    /\ itemInsideBubble item1 bubbles = false
    /\ itemInsideBubble item2 bubbles = false
    /\ overlapOf vp item1 item2 = Some r.
Proof.
  induction items as [|item1 rest IH]; simpl; [tauto|].
  intros H. apply in_app_or in H as [H|H].
  - destruct (itemInsideBubble item1 bubbles) eqn:E1; [destruct H|].
    apply in_flat_map in H as (item2 & Hin & H).
    unfold checkPair in H.
    destruct (itemInsideBubble item2 bubbles) eqn:E2; [destruct H|].
    destruct (isFalsePositiveOverlap item1 item2); [destruct H|].
    destruct (overlapOf vp item1 item2) as [r'|] eqn:Eo; [|destruct H].
    destruct H as [->|[]].
    exists item1, item2. repeat split; auto.
  - destruct (IH H) as (i1 & i2 & H1 & H2 & H3).
    exists i1, i2. repeat split; tauto.
Qed.

Lemma overlapOf_texts (vp : Viewport) (item1 item2 : TextItem) (r : TextOverlap.t) :
  overlapOf vp item1 item2 = Some r ->
  TextOverlap.text1 r = str item1 /\ TextOverlap.text2 r = str item2.
Proof.
  unfold overlapOf.
  destruct (_ && _); [|discriminate].
  destruct (_ && _); [|discriminate].
  intros [= <-]. split; reflexivity.
Qed.

(** C5, as the code has it. In the PDF-text method an item that
    [isInsideBubble] places in the zone of some anchor (a text item whose
    trimmed string fully matches [^\d{3}[A-Z]{1,2}\d{3}$],
    case-insensitively) is skipped in all pairwise checks: every reported
    overlap is pushed for two items outside every zone. The zone of the
    code is the box from [y - 2 * height] to [y + height] in the
    coordinates of the items, which are PDF coordinates with the origin at
    the bottom left: it reaches downward from the anchor, not upward. So on
    the page of the reference [630SX001] and of two notes that overlap each
    other above its left end, with their centres in the zone that reaches
    upward from the reference by twice its height, no note is skipped and
    the overlap of the notes is reported, while the same notes below the
    reference are skipped. The bubble number [3] drawn over the reference
    [630SX001] is skipped, although their boxes intersect. *)
Theorem bubble_zone_downward :
  (forall (page : Page) (items : list TextItem) (r : TextOverlap.t),
      textItems page = Some items ->
      In r (detectOverlapsFromPDF (Some page)) ->
      exists item1 item2,
        In item1 items /\ In item2 items
        /\ overlapOf (viewport page) item1 item2 = Some r
        /\ itemInsideBubble item1 (findCalloutBubbles items) = false
        /\ itemInsideBubble item2 (findCalloutBubbles items) = false)
  /\ (isStandaloneDetailReference (Text.trim (str bubbleReference)) = true
      /\ inUpwardZone bubbleReference noteA = true
      /\ inUpwardZone bubbleReference noteB = true
      /\ itemInsideBubble noteA (findCalloutBubbles [bubbleReference; noteA; noteB]) = false
      /\ itemInsideBubble noteB (findCalloutBubbles [bubbleReference; noteA; noteB]) = false
      /\ exists r,
           detectOverlapsFromPDF (Some notesPage) = [r]
           /\ TextOverlap.text1 r = "NOTE A"%string
           /\ TextOverlap.text2 r = "NOTE B"%string
           /\ map Float.toString
                  [TextOverlap.x r; TextOverlap.y r; TextOverlap.width r;
                   TextOverlap.height r]
              = ["219"; "2046"; "54"; "18"]%string)
  /\ (inUpwardZone bubbleReference noteBelowA = false
      /\ inUpwardZone bubbleReference noteBelowB = false
      /\ (exists r, overlapOf (viewport notesBelowPage) noteBelowA noteBelowB = Some r)
      /\ detectOverlapsFromPDF (Some notesBelowPage) = [])
  /\ ((exists r, overlapOf (viewport bubblePage) bubbleNumber bubbleReference = Some r)
      /\ detectOverlapsFromPDF (Some bubblePage) = []).
Proof.
  split; [|split; [|split]].
  - intros page items r Hitems Hr. unfold detectOverlapsFromPDF in Hr.
    rewrite Hitems in Hr.
    apply checkPairs_sources in Hr as (i1 & i2 & H1 & H2 & E1 & E2 & Ho).
    apply filter_In in H1 as [H1 _]. apply filter_In in H2 as [H2 _].
    exists i1, i2. repeat split; assumption.
  - split; [vm_compute; reflexivity|]. split; [vm_compute; reflexivity|].
    split; [vm_compute; reflexivity|]. split; [vm_compute; reflexivity|].
    split; [vm_compute; reflexivity|].
    eexists. split; [vm_compute; reflexivity|]. split; [reflexivity|].
    split; [reflexivity|]. vm_compute. reflexivity.
  - split; [vm_compute; reflexivity|]. split; [vm_compute; reflexivity|].
    split; [eexists; vm_compute; reflexivity|vm_compute; reflexivity].
  - split; [eexists; vm_compute; reflexivity|vm_compute; reflexivity].
Qed.

(** C6. On every input [detectOverlappingText] returns the regions of the
    PDF-text method followed by the merged regions of the pixel method;
    [count] is the sum of the two lengths, no region is dropped when both
    methods report it (every region occurs in [locations] as often as in the
    two lists together), and when [count > 0] the message gives the total
    and the count of each method. *)
Theorem overlapping_union (imageData : Pixels.ImageData) (onProgress : bool)
    (pdfPage : option Page) :
  let pdfElements := map FromText (detectOverlapsFromPDF pdfPage) in
  let pixelElements :=
    map FromPixels
        (Merger.mergeNearbyRegions
           (Pixels.findRegions isBlack 10000 tagPixel
              (isOverlappingText (Pixels.data imageData) (Pixels.width imageData)
                                 (Pixels.height imageData))
              6 3 (Pixels.data imageData) (Pixels.width imageData)
              (Pixels.height imageData))) in
  exists r,
    promise (detectOverlappingText imageData onProgress pdfPage) = Resolved r
    /\ locations r = pdfElements ++ pixelElements
    /\ count r = (length pdfElements + length pixelElements)%nat
    /\ (forall e, count_occ element_eq_dec (locations r) e
                 = (count_occ element_eq_dec pdfElements e
                    + count_occ element_eq_dec pixelElements e)%nat)
    /\ ((0 < count r)%nat ->
        message r
        = ("Found " ++ showNat (count r) ++ " overlapping text region(s) ("
           ++ showNat (length pdfElements) ++ " PDF, "
           ++ showNat (length pixelElements) ++ " pixel)")%string).
Proof.
  intros pdfElements pixelElements.
  assert (Hpdf : match pdfPage with
                 | Some page => match textItems page with
                                | Some _ => detectOverlapsFromPDF pdfPage
                                | None => []
                                end
                 | None => []
                 end = detectOverlapsFromPDF pdfPage).
  { destruct pdfPage as [page|]; auto.
    unfold detectOverlapsFromPDF. destruct (textItems page); auto. }
  unfold detectOverlappingText. rewrite Hpdf.
  unfold findOverlappingText. fold pdfElements. fold pixelElements.
  subst pdfElements pixelElements. rewrite !length_map.
  eexists. split; [reflexivity|]. cbn [locations count message].
  split; [reflexivity|]. split; [now rewrite length_app, !length_map|]. split.
  - intros e. apply count_occ_app.
  - intros Hpos. apply Nat.ltb_lt in Hpos. now rewrite Hpos.
Qed.

Lemma overlapping_union_witness :
  exists r o,
    promise (detectOverlappingText (Pixels.mkImage [] 0 0) false (Some notesPage))
    = Resolved r
    /\ locations r = [FromText o]
    /\ count r = 1%nat.
Proof.
  destruct (overlapping_union (Pixels.mkImage [] 0 0) false (Some notesPage))
    as (r & Hp & Hl & Hc & _).
  assert (Ho : exists o, detectOverlapsFromPDF (Some notesPage) = [o])
    by (eexists; vm_compute; reflexivity).
  destruct Ho as [o Ho].
  exists r, o. split; [exact Hp|]. rewrite Hc, Hl, Ho. split; reflexivity.
Defined.

End OverlappingFacts.

(** ** Regular expressions: the matcher against the declarative reading *)

Module RegexFacts.

Import Text Regex.

Section Sound.

Variable ic : bool.

Lemma char_sound (ok : ascii -> bool) (x : State) (k : K) (z : State) :
  char ok x k = Some z ->
  exists ch tl, rest x = ch :: tl /\ ok ch = true /\ k (advance x ch tl) = Some z.
Proof.
  unfold char. destruct (rest x) as [|ch tl]; [discriminate|].
  destruct (ok ch) eqn:E; [|discriminate].
  intros H. exists ch, tl. auto.
Qed.

Definition sound (r : Regex.t) : Prop :=
  forall x k z, matcher ic r x k = Some z -> exists y, Sem ic r x y /\ k y = Some z.

Lemma repeat_sound (r : Regex.t) (IH : sound r) :
  forall fuel min max greedy x k z,
    repeatMatcher (matcher ic r) (groupsOf r) fuel min max greedy x k = Some z ->
    exists y, Sem ic (Rep r min max greedy) x y /\ k y = Some z.
Proof.
  induction fuel as [|fuel IHf]; intros min max greedy x k z; simpl; [discriminate|].
  assert (Hbody : forall d : K,
             (forall y, d y = Some z ->
                        (min = 0%nat -> pos y <> pos x)
                        /\ repeatMatcher (matcher ic r) (groupsOf r) fuel (Nat.pred min)
                                         (option_map Nat.pred max) greedy y k = Some z) ->
             max <> Some 0%nat ->
             matcher ic r (clearCaps (groupsOf r) x) d = Some z ->
             exists y, Sem ic (Rep r min max greedy) x y /\ k y = Some z).
  { intros d Hd Hmax Hm. apply IH in Hm as (y & Hy & Hk).
    apply Hd in Hk as [Hne Hk]. apply IHf in Hk as (y' & Hy' & Hk').
    exists y'. split; auto. eapply SemRepStep; eauto. }
  assert (Hstop : min = 0%nat \/ max = Some 0%nat -> k x = Some z ->
             exists y, Sem ic (Rep r min max greedy) x y /\ k y = Some z).
  { intros Hc Hk. exists x. split; auto. now apply SemRepStop. }
  destruct max as [[|n]|].
  - intros Hk. apply Hstop; auto.
  - destruct (Nat.eqb_spec min 0) as [Emin|Emin]; simpl.
    + destruct greedy.
      * destruct (matcher ic r _ _) as [z'|] eqn:Em.
        -- intros [= <-]. eapply Hbody; [|discriminate|exact Em].
           intros y. simpl. destruct (Nat.eqb_spec (pos y) (pos x)); [discriminate|].
           auto.
        -- intros Hk. apply Hstop; auto.
      * destruct (k x) as [z'|] eqn:Ek.
        -- intros [= <-]. apply Hstop; auto.
        -- intros Hm. eapply Hbody; [|discriminate|exact Hm].
           intros y. simpl. destruct (Nat.eqb_spec (pos y) (pos x)); [discriminate|].
           auto.
    + intros Hm. eapply Hbody; [|discriminate|exact Hm].
      intros y Hy. split; [intros; contradiction|exact Hy].
  - destruct (Nat.eqb_spec min 0) as [Emin|Emin]; simpl.
    + destruct greedy.
      * destruct (matcher ic r _ _) as [z'|] eqn:Em.
        -- intros [= <-]. eapply Hbody; [|discriminate|exact Em].
           intros y. simpl. destruct (Nat.eqb_spec (pos y) (pos x)); [discriminate|].
           auto.
        -- intros Hk. apply Hstop; auto.
      * destruct (k x) as [z'|] eqn:Ek.
        -- intros [= <-]. apply Hstop; auto.
        -- intros Hm. eapply Hbody; [|discriminate|exact Hm].
           intros y. simpl. destruct (Nat.eqb_spec (pos y) (pos x)); [discriminate|].
           auto.
    + intros Hm. eapply Hbody; [|discriminate|exact Hm].
      intros y Hy. split; [intros; contradiction|exact Hy].
Qed.

(** Whenever the matcher succeeds, its continuation has succeeded on a state
    that the pattern relates to the start state. *)
Lemma matcher_sound (r : Regex.t) : sound r.
Proof.
  induction r as [ |c| |negated items|r1 IH1 r2 IH2|r1 IH1 r2 IH2
                 |r IH min max greedy|i r IH| | | ]; intros x k z; simpl.
  - intros H. exists x. split; [constructor|auto].
  - intros H. apply char_sound in H as (ch & tl & Hr & Hok & Hk).
    apply bool_decide_eq_true in Hok.
    exists (advance x ch tl). split; auto. now apply SemChr.
  - intros H. apply char_sound in H as (ch & tl & Hr & Hok & Hk).
    apply negb_true_iff in Hok.
    exists (advance x ch tl). split; auto. now apply SemDot.
  - intros H. apply char_sound in H as (ch & tl & Hr & Hok & Hk).
    exists (advance x ch tl). split; auto. now apply SemCls.
  - intros H. apply IH1 in H as (y & Hy & H). apply IH2 in H as (y' & Hy' & H).
    exists y'. split; auto. eapply SemSeq; eauto.
  - destruct (matcher ic r1 x k) as [z'|] eqn:E.
    + intros [= <-]. apply IH1 in E as (y & Hy & H).
      exists y. split; auto. now apply SemAltL.
    + intros H. apply IH2 in H as (y & Hy & H).
      exists y. split; auto. now apply SemAltR.
  - apply repeat_sound. exact IH.
  - intros H. apply IH in H as (y & Hy & H).
    exists (setCap i x y). split; auto. now apply SemGroup.
  - destruct (pos x =? 0)%nat eqn:E; [|discriminate].
    apply Nat.eqb_eq in E. intros H. exists x. split; auto. now apply SemBol.
  - destruct (rest x) eqn:E; [|discriminate].
    intros H. exists x. split; auto. now apply SemEol.
  - destruct (xorb _ _) eqn:E; [|discriminate].
    intros H. exists x. split; auto. now apply SemWordB.
Qed.

(** A match found by [search] starts at some index [j >= i], and the
    pattern relates the state at [j] to the state at the end of the match. *)
Lemma prevOf_cons (before : option ascii) (ch : ascii) (skipped : list ascii) :
  prevOf before (ch :: skipped) = prevOf (Some ch) skipped.
Proof.
  unfold prevOf. destruct skipped as [|c sk]; [reflexivity|].
  change (last (ch :: c :: sk)) with (last (c :: sk)).
  destruct (last (c :: sk)) eqn:E; [reflexivity|].
  apply last_None in E. discriminate.
Qed.

Lemma search_sound (r : Regex.t) (input : list ascii) :
  forall remaining i before m,
    search ic r input i before remaining = Some m ->
    exists skipped remaining' y,
      remaining = skipped ++ remaining'
      /\ Sem ic r (mkState (i + length skipped) remaining' (prevOf before skipped) []) y
      /\ m = toMatch r input (i + length skipped) y.
Proof.
  induction remaining as [|ch tl IH]; intros i before m; simpl.
  - destruct (matcher ic r _ _) as [x|] eqn:E; [|discriminate].
    intros [= <-]. apply matcher_sound in E as (y & Hy & [= ->]).
    exists [], [], x. simpl. rewrite Nat.add_0_r. auto.
  - destruct (matcher ic r _ _) as [x|] eqn:E.
    + intros [= <-]. apply matcher_sound in E as (y & Hy & [= ->]).
      exists [], (ch :: tl), x. simpl. rewrite Nat.add_0_r. auto.
    + intros H. apply IH in H as (skipped & remaining' & y & H1 & H3 & H4).
      exists (ch :: skipped), remaining', y. rewrite prevOf_cons. simpl.
      replace (i + S (length skipped))%nat with (S i + length skipped)%nat by lia.
      subst tl. repeat split; auto.
Qed.

(** The matcher moves forward in the input. *)
Lemma Sem_rest (r : Regex.t) (x y : State) :
  Sem ic r x y ->
  (length (rest y) <= length (rest x))%nat
  /\ (pos y + length (rest y) = pos x + length (rest x))%nat.
Proof.
  induction 1 as [x|c x ch tl Hr|x ch tl Hr|negated items x ch tl Hr
                 |r1 r2 x y z _ IH1 _ IH2|r1 r2 x y _ IH|r1 r2 x y _ IH
                 |r min max greedy x|r min max greedy x y z Hmax _ IH1 _ _ IH2
                 |j r x y _ IH|x|x|x]; simpl in *;
    try rewrite Hr; simpl; lia.
Qed.

(** The matcher succeeds whenever the pattern relates the start state to a
    state on which the continuation succeeds; a quantifier does so with any
    fuel above [min] plus the number of characters left. *)
Definition complete (r : Regex.t) (x y : State) : Prop :=
  forall (k : K) z,
    k y = Some z ->
    (exists z', matcher ic r x k = Some z')
    /\ forall r0 min max greedy,
         r = Rep r0 min max greedy ->
         forall fuel,
           (min + length (rest x) < fuel)%nat ->
           exists z', repeatMatcher (matcher ic r0) (groupsOf r0) fuel min max greedy x k
                      = Some z'.

Lemma complete_rep (r : Regex.t) (min : nat) (max : option nat) (greedy : bool)
    (x y : State) :
  (forall (k : K) z,
      k y = Some z ->
      forall fuel,
        (min + length (rest x) < fuel)%nat ->
        exists z', repeatMatcher (matcher ic r) (groupsOf r) fuel min max greedy x k
                   = Some z') ->
  complete (Rep r min max greedy) x y.
Proof.
  intros H k z Hk. split.
  - simpl. apply (H k z Hk). lia.
  - intros r0 min0 max0 greedy0 [= <- <- <- <-]. now apply (H k z).
Qed.

Lemma Sem_complete (r : Regex.t) (x y : State) : Sem ic r x y -> complete r x y.
Proof.
  induction 1 as [x|c x ch tl Hr Hc|x ch tl Hr Hc|negated items x ch tl Hr Hc
                 |r1 r2 x y z _ IH1 _ IH2|r1 r2 x y _ IH|r1 r2 x y _ IH
                 |r min max greedy x Hstop|r min max greedy x y z Hmax Hbody IH1 Hne Hrest IH2
                 |j r x y _ IH|x Hp|x Hr|x Hw];
    try apply complete_rep;
    try (intros k zk Hk; split; [|intros r0 min0 max0 greedy0 E0; discriminate E0]; simpl).
  - eauto.
  - unfold char. rewrite Hr. rewrite bool_decide_eq_true_2 by exact Hc. eauto.
  - unfold char. rewrite Hr, Hc. simpl. eauto.
  - unfold char. rewrite Hr, Hc. eauto.
  - destruct (IH2 k zk Hk) as [[z' Hz'] _].
    apply (IH1 (fun y => matcher ic r2 y k) z' Hz').
  - destruct (IH k zk Hk) as [[z' ->] _]. eauto.
  - destruct (matcher ic r1 x k); [eauto|]. apply (IH k zk Hk).
  - intros k zk Hk [|fuel] Hf; [lia|]. simpl.
    destruct max as [[|n]|]; [eauto| |];
      (destruct Hstop as [->|[=]]; simpl;
       destruct greedy;
       [destruct (matcher ic r _ _); eauto|rewrite Hk; eauto]).
  - intros k zk Hk [|fuel] Hf; [lia|]. simpl.
    pose proof (Sem_rest _ _ _ Hbody) as [Hlen Hpos]. simpl in Hlen, Hpos.
    assert (Hd : exists z',
               (if (min =? 0)%nat && (pos y =? pos x)%nat then None
                else repeatMatcher (matcher ic r) (groupsOf r) fuel (Nat.pred min)
                                   (option_map Nat.pred max) greedy y k) = Some z').
    { destruct (Nat.eqb_spec min 0) as [Emin|Emin]; simpl.
      - destruct (Nat.eqb_spec (pos y) (pos x)) as [E|E]; [now apply Hne in Emin|].
        destruct (IH2 k zk Hk) as [_ H2]. apply (H2 r _ _ _ eq_refl). lia.
      - destruct (IH2 k zk Hk) as [_ H2]. apply (H2 r _ _ _ eq_refl). lia. }
    destruct Hd as [z' Hd].
    destruct (IH1 (fun y0 =>
                     if (min =? 0)%nat && (pos y0 =? pos x)%nat then None
                     else repeatMatcher (matcher ic r) (groupsOf r) fuel (Nat.pred min)
                                        (option_map Nat.pred max) greedy y0 k)
                  z' Hd) as [[z'' Hm] _].
    destruct max as [[|n]|]; [congruence| |];
      (destruct (negb (min =? 0)%nat); [rewrite Hm; eauto|];
       destruct greedy; [rewrite Hm; eauto|];
       destruct (k x); [eauto|rewrite Hm; eauto]).
  - apply (IH (fun y0 => k (setCap j x y0)) zk Hk).
  - rewrite Hp. simpl. eauto.
  - rewrite Hr. eauto.
  - rewrite Hw. eauto.
Qed.

Lemma matcher_complete (r : Regex.t) (x y : State) (k : K) (z : State) :
  Sem ic r x y -> k y = Some z -> exists z', matcher ic r x k = Some z'.
Proof. intros H Hk. apply (Sem_complete r x y H k z Hk). Qed.

(** [search] fails exactly when the pattern matches at no index from [i]
    on. *)
Lemma search_none (r : Regex.t) (input : list ascii) :
  forall remaining i before,
    search ic r input i before remaining = None <->
    forall skipped remaining' y,
      remaining = skipped ++ remaining' ->
      ~ Sem ic r (mkState (i + length skipped) remaining' (prevOf before skipped) []) y.
Proof.
  intros remaining i before. split.
  - revert i before.
    induction remaining as [|ch tl IH]; intros i before Hs skipped remaining' y Hsplit Hsem.
    + destruct skipped; [|discriminate]. simpl in Hsplit. subst remaining'.
      simpl in Hs, Hsem. rewrite Nat.add_0_r in Hsem.
      destruct (matcher_complete r _ y Some y Hsem eq_refl) as [z' Hz'].
      unfold prevOf in Hz'. simpl in Hz'. now rewrite Hz' in Hs.
    + simpl in Hs.
      destruct (matcher ic r (mkState i (ch :: tl) before []) Some) eqn:E; [discriminate|].
      destruct skipped as [|c sk].
      * simpl in Hsplit. subst remaining'. simpl in Hsem. rewrite Nat.add_0_r in Hsem.
        destruct (matcher_complete r _ y Some y Hsem eq_refl) as [z' Hz'].
        unfold prevOf in Hz'. simpl in Hz'. congruence.
      * injection Hsplit as <- ->. rewrite prevOf_cons in Hsem. simpl in Hsem.
        replace (i + S (length sk))%nat with (S i + length sk)%nat in Hsem by lia.
        apply (IH (S i) (Some ch) Hs sk remaining' y eq_refl Hsem).
  - intros H. destruct (search ic r input i before remaining) as [m|] eqn:E; auto.
    apply search_sound in E as (skipped & remaining' & y & Hsplit & Hsem & _).
    exfalso. apply (H skipped remaining' y Hsplit Hsem).
Qed.

(** Inversion of the declarative reading, by the shape of the pattern. *)
Lemma Sem_seq_inv (r1 r2 : Regex.t) (x z : State) :
  Sem ic (Seq r1 r2) x z -> exists y, Sem ic r1 x y /\ Sem ic r2 y z.
Proof. inversion 1; subst; eauto. Qed.

Lemma Sem_bol_inv (x y : State) : Sem ic Bol x y -> y = x /\ pos x = 0%nat.
Proof. inversion 1; subst; auto. Qed.

Lemma Sem_eol_inv (x y : State) : Sem ic Eol x y -> y = x /\ rest x = [].
Proof. inversion 1; subst; auto. Qed.

Lemma Sem_chr_inv (c : ascii) (x y : State) :
  Sem ic (Chr c) x y ->
  exists ch tl, rest x = ch :: tl /\ canon ic c = canon ic ch /\ y = advance x ch tl.
Proof. inversion 1; subst; eauto. Qed.

Lemma Sem_cls_inv (negated : bool) (items : list item) (x y : State) :
  Sem ic (Cls negated items) x y ->
  exists ch tl,
    rest x = ch :: tl
    /\ xorb negated (existsb (fun it => itemMatches ic it ch) items) = true
    /\ y = advance x ch tl.
Proof. inversion 1; subst; eauto. Qed.

Lemma Sem_rep_inv (r : Regex.t) (min : nat) (max : option nat) (greedy : bool)
    (x z : State) :
  Sem ic (Rep r min max greedy) x z ->
  ((min = 0%nat \/ max = Some 0%nat) /\ z = x)
  \/ (max <> Some 0%nat
      /\ exists y, Sem ic r (clearCaps (groupsOf r) x) y
                   /\ (min = 0%nat -> pos y <> pos x)
                   /\ Sem ic (Rep r (Nat.pred min) (option_map Nat.pred max) greedy) y z).
Proof. inversion 1; subst; [left; auto|right; split; auto; eexists; eauto]. Qed.

(** Groups that are set stay set, and a pattern sets the groups it
    [defines], as long as no quantifier resets them. *)
Lemma groupsOf_resets (r : Regex.t) (i : nat) : In i (resets r) -> In i (groupsOf r).
Proof.
  induction r; simpl; try tauto.
  - rewrite !in_app_iff. tauto.
  - rewrite !in_app_iff. tauto.
Qed.

Lemma Sem_caps (i : nat) (r : Regex.t) (x y : State) :
  Sem ic r x y ->
  ~ In i (resets r) ->
  defines i r = true \/ hasCap i x ->
  hasCap i y.
Proof.
  induction 1 as [x|c x ch tl|x ch tl|negated items x ch tl
                 |r1 r2 x y z _ IH1 _ IH2|r1 r2 x y _ IH|r1 r2 x y _ IH
                 |r min max greedy x|r min max greedy x y z Hmax _ IH1 _ _ IH2
                 |j r x y _ IH|x|x|x]; simpl; intros Hr Hd;
    try (destruct Hd as [Hd|Hd]; [discriminate|exact Hd]).
  - rewrite in_app_iff in Hr.
    destruct Hd as [Hd|Hd].
    + apply orb_true_iff in Hd as [Hd|Hd].
      * apply IH2; [tauto|]. right. apply IH1; [tauto|]. now left.
      * apply IH2; [tauto|]. now left.
    + apply IH2; [tauto|]. right. apply IH1; [tauto|]. now right.
  - rewrite in_app_iff in Hr. apply IH; [tauto|].
    destruct Hd as [Hd|Hd]; [|now right]. apply andb_true_iff in Hd. left; tauto.
  - rewrite in_app_iff in Hr. apply IH; [tauto|].
    destruct Hd as [Hd|Hd]; [|now right]. apply andb_true_iff in Hd. left; tauto.
  - destruct Hd as [Hd|Hd]; [discriminate|].
    apply IH2; [exact Hr|]. right.
    apply IH1; [intros Hin; apply Hr; now apply groupsOf_resets|]. right.
    destruct Hd as [ab Hab]. exists ab. unfold clearCaps; simpl.
    apply list_elem_of_In, list_elem_of_filter. split; [|now apply list_elem_of_In].
    simpl. intros Hin. apply Hr. now apply list_elem_of_In.
  - destruct (Nat.eqb_spec j i) as [->|Hji].
    + exists (pos x, pos y). now left.
    + assert (Hy : hasCap i y).
      { apply IH; [exact Hr|]. destruct Hd as [Hd|Hd]; [|now right].
        simpl in Hd. now left. }
      destruct Hy as [ab Hab]. exists ab. now right.
Qed.

End Sound.

(** *** Matches of a whole string *)

Lemma execFrom_zero (ic : bool) (r : Regex.t) (input : list ascii) :
  execFrom ic r input 0 = search ic r input 0 None input.
Proof. reflexivity. Qed.

(** A pattern has no match in a string exactly when it matches at no index
    of the string. *)
Lemma matchAll_nil (ic : bool) (r : Regex.t) (s : string) :
  matchAll ic r s = [] <->
  forall skipped remaining y,
    chars s = skipped ++ remaining ->
    ~ Sem ic r (mkState (length skipped) remaining (prevOf None skipped) []) y.
Proof.
  unfold matchAll. rewrite Nat.add_1_r. simpl. rewrite execFrom_zero.
  rewrite <- (search_none ic r (chars s) (chars s) 0 None).
  destruct (search ic r (chars s) 0 None (chars s)); split; congruence.
Qed.

(** [test] holds exactly when the pattern matches at some index. *)
Lemma test_true (ic : bool) (r : Regex.t) (s : string) :
  test ic r s = true <->
  exists skipped remaining y,
    chars s = skipped ++ remaining
    /\ Sem ic r (mkState (length skipped) remaining (prevOf None skipped) []) y.
Proof.
  unfold test. rewrite execFrom_zero. split.
  - destruct (search ic r (chars s) 0 None (chars s)) as [m|] eqn:E; [|discriminate].
    intros _. apply search_sound in E as (skipped & remaining & y & H1 & H2 & _).
    exists skipped, remaining, y. auto.
  - intros (skipped & remaining & y & H1 & H2).
    destruct (search ic r (chars s) 0 None (chars s)) as [m|] eqn:E; auto.
    exfalso. rewrite search_none in E. apply (E skipped remaining y H1 H2).
Qed.

(** *** The first group of a match *)

(** The first group is defined by the pattern and never reset. *)
Definition capturing (r : Regex.t) : bool :=
  defines 1 r && negb (existsb (Nat.eqb 1) (resets r)) && (1 <=? nGroups r)%nat.

Lemma execFrom_sound (ic : bool) (r : Regex.t) (input : list ascii) (lastIndex : nat)
    (m : Match) :
  execFrom ic r input lastIndex = Some m ->
  exists j remaining before y,
    Sem ic r (mkState j remaining before []) y /\ m = toMatch r input j y.
Proof.
  unfold execFrom. destruct (_ <? _)%nat; [discriminate|].
  intros H. apply search_sound in H as (skipped & remaining & y & _ & Hs & Hm).
  eexists _, remaining, _, y. split; eassumption.
Qed.

Lemma matchAllFrom_In (ic : bool) (r : Regex.t) (input : list ascii) (m : Match) :
  forall fuel lastIndex,
    In m (matchAllFrom fuel ic r input lastIndex) ->
    exists j, execFrom ic r input j = Some m.
Proof.
  induction fuel as [|fuel IH]; intros lastIndex; simpl; [tauto|].
  destruct (execFrom ic r input lastIndex) as [m'|] eqn:E; [|intros []].
  intros [<-|Hin]; eauto.
Qed.

Lemma capture_hasCap (input : list ascii) (y : State) :
  hasCap 1 y -> exists v, capture input (caps y) 1 = Some v.
Proof.
  intros [ab Hab]. unfold capture.
  destruct (List.find _ (caps y)) as [[i [a b]]|] eqn:E; [eauto|].
  exfalso. apply (List.find_none _ _ E) in Hab. simpl in Hab. discriminate.
Qed.

(** Every match of a capturing pattern has a first group. *)
Lemma matchAll_group1 (ic : bool) (r : Regex.t) (s : string) (m : Match) :
  capturing r = true ->
  In m (matchAll ic r s) ->
  exists v, head (groups m) = Some (Some v).
Proof.
  unfold capturing. rewrite !andb_true_iff, negb_true_iff.
  intros [[Hd Hr] Hn] Hin.
  apply matchAllFrom_In in Hin as [j Hj].
  apply execFrom_sound in Hj as (j' & remaining & before & y & Hsem & ->).
  assert (Hc : hasCap 1 y).
  { apply (Sem_caps ic 1 r _ y Hsem); [|now left].
    intros Hin. assert (existsb (Nat.eqb 1) (resets r) = true); [|congruence].
    apply existsb_exists. exists 1%nat. split; auto. }
  apply (capture_hasCap (chars s)) in Hc as [v Hv].
  exists v. unfold toMatch. simpl.
  apply Nat.leb_le in Hn. destruct (nGroups r) as [|n]; [lia|].
  simpl. now rewrite Hv.
Qed.

End RegexFacts.

(** ** Missing references *)

Module NoRefsFacts.

Import Regex Pdf NoRefs Text.

Lemma str_app (l1 l2 : list ascii) : str (l1 ++ l2) = (str l1 ++ str l2)%string.
Proof. induction l1 as [|c l1 IH]; simpl; [reflexivity|]. unfold str in *. now rewrite IH. Qed.

(** A bounded repetition of a literal character consumes that many copies
    of it. *)
Lemma rep_chr_inv (c : ascii) (greedy : bool) :
  forall max min x y,
    Sem false (Rep (Chr c) min (Some max) greedy) x y ->
    (min <= max)%nat ->
    exists n, (min <= n <= max)%nat /\ rest x = repeat c n ++ rest y.
Proof.
  induction max as [|max IH]; intros min x y H Hle;
    apply RegexFacts.Sem_rep_inv in H as [[Hstop ->]|(Hmax & y1 & Hbody & _ & Hrest)].
  - exists 0%nat. split; [lia|reflexivity].
  - congruence.
  - exists 0%nat. split; [|reflexivity]. destruct Hstop as [->|[=]]. lia.
  - apply RegexFacts.Sem_chr_inv in Hbody as (ch & tl & Hr & Hc & ->).
    simpl in Hr, Hc, Hrest. subst ch.
    apply IH in Hrest as (n & Hn & Hrest); [|lia].
    exists (S n). split; [lia|]. simpl in Hrest. simpl. rewrite Hr. now rewrite Hrest.
Qed.

(** An optional character of a class consumes nothing or one character of
    the class. *)
Lemma opt_cls_inv (items : list item) (x y : State) :
  Sem false (opt (Cls false items)) x y ->
  rest x = rest y
  \/ exists ch, rest x = ch :: rest y
                /\ existsb (fun it => itemMatches false it ch) items = true.
Proof.
  unfold opt. intros H.
  apply RegexFacts.Sem_rep_inv in H as [[_ ->]|(_ & y1 & Hbody & _ & Hrest)].
  - now left.
  - right. apply RegexFacts.Sem_cls_inv in Hbody as (ch & tl & Hr & Hc & ->).
    simpl in *.
    apply RegexFacts.Sem_rep_inv in Hrest as [[_ ->]|(Hmax & _)]; [|congruence].
    exists ch. split; auto.
Qed.

Lemma noRef_shape (s : string) :
  Regex.test false noRefPattern s = true ->
  exists m n p,
    (1 <= m <= 4)%nat /\ (1 <= n <= 4)%nat
    /\ (p = [] \/ exists ch, p = [ch]
                             /\ existsb (fun it => itemMatches false it ch)
                                        [IChar "."; IChar ","; IChar ";"; IChar ":"] = true)
    /\ chars s = repeat "-"%char m ++ "/"%char :: repeat "-"%char n ++ p.
Proof.
  unfold test, execFrom. simpl.
  destruct (search _ _ _ _ _ _) as [m|] eqn:E; [|discriminate]. intros _.
  apply RegexFacts.search_sound in E
    as (skipped & remaining & y & Hsplit & Hsem & _).
  unfold noRefPattern, seqs in Hsem.
  apply RegexFacts.Sem_seq_inv in Hsem as (y1 & Hbol & Hsem).
  apply RegexFacts.Sem_bol_inv in Hbol as [-> Hpos]. simpl in Hpos.
  destruct skipped; [|discriminate]. simpl in Hsplit. subst remaining.
  apply RegexFacts.Sem_seq_inv in Hsem as (y2 & Hd1 & Hsem).
  apply rep_chr_inv in Hd1 as (m1 & Hm1 & Hr1); [|lia].
  apply RegexFacts.Sem_seq_inv in Hsem as (y3 & Hsl & Hsem).
  apply RegexFacts.Sem_chr_inv in Hsl as (ch & tl & Hr & Hc & ->).
  simpl in Hc. subst ch.
  apply RegexFacts.Sem_seq_inv in Hsem as (y4 & Hd2 & Hsem).
  apply rep_chr_inv in Hd2 as (n1 & Hn1 & Hr2); [|lia].
  apply RegexFacts.Sem_seq_inv in Hsem as (y5 & Hp & Hend).
  apply RegexFacts.Sem_eol_inv in Hend as [-> Hend].
  apply opt_cls_inv in Hp.
  simpl in Hr1, Hr2.
  exists m1, n1, (rest y4). repeat split; try lia.
  - destruct Hp as [Hp|(ch & Hp & Hc)].
    + left. now rewrite Hp.
    + right. exists ch. rewrite Hp, Hend. auto.
  - change (drop 0 (chars s)) with (chars s) in Hr1. rewrite Hr1, Hr. now rewrite Hr2.
Qed.

(** The pattern of the source accepts exactly the placeholders. *)
Lemma noRef_placeholder (s : string) :
  Regex.test false noRefPattern s = true <-> isPlaceholder s.
Proof.
  split.
  - intros H. apply noRef_shape in H as (m & n & p & Hm & Hn & Hp & Hs).
    exists m, n, (str p). repeat split; try lia.
    + destruct Hp as [->|(ch & -> & Hc)]; [now left|].
      simpl in Hc. unfold str; simpl.
      repeat (apply orb_true_iff in Hc as [Hc|Hc];
              [apply bool_decide_eq_true in Hc; subst ch; simpl; tauto|]).
      discriminate.
    + rewrite <- (string_of_list_ascii_of_string s). fold (chars s). rewrite Hs.
      fold (str (repeat "-"%char m ++ "/"%char :: repeat "-"%char n ++ p)).
      change ("/"%char :: repeat "-"%char n ++ p)
        with (["/"%char] ++ repeat "-"%char n ++ p).
      now rewrite !str_app.
  - intros (m & n & p & Hm & Hn & Hp & ->).
    assert (Em : (m = 1 \/ m = 2 \/ m = 3 \/ m = 4)%nat) by lia.
    assert (En : (n = 1 \/ n = 2 \/ n = 3 \/ n = 4)%nat) by lia.
    simpl in Hp.
    destruct Em as [-> | [-> | [-> | ->]]];
      destruct En as [-> | [-> | [-> | ->]]];
      destruct Hp as [<- | [<- | [<- | [<- | [<- | []]]]]];
      vm_compute; reflexivity.
Qed.

Lemma flat_map_if {A B : Type} (p : A -> bool) (f : A -> B) (l : list A) :
  flat_map (fun a => if p a then [f a] else []) l = map f (List.filter p l).
Proof.
  induction l as [|a l IH]; simpl; [reflexivity|].
  destruct (p a); simpl; now rewrite IH.
Qed.

(** C4. For every page with text items the missing-reference analyzer
    emits exactly one region per text item whose trimmed string is a
    placeholder, in the order of the items; a string is accepted exactly
    when it consists of one to four dashes, a slash, one to four dashes and
    at most one trailing [.], [,], [;] or [:] (so [-/---], [--/----.] and
    [-/-] yield a region and [-\-] yields none, and [-/---] between
    no-break spaces yields one); and the region of an item has
    [x = floor(transform[0] * pdfX + transform[4])],
    [y = floor(transform[3] * pdfY + transform[5]) - ceil(itemHeight * scale)],
    [width = ceil(itemWidth * scale)] and [height = ceil(itemHeight * scale)],
    each operation being that of the language on Number values: for an
    item at [pdfX = 0.3333333333333333] of width [0.33333333333333337] at
    scale 3 the region has [x = 1] and [width = 1]. *)
Theorem missing_reference_regions :
  (forall (page : Page) (items : list TextItem) (onProgress : bool),
      textItems page = Some items ->
      detectNoRefsFromPDF (Some page)
      = map (locate (viewport page)) (List.filter isNoRef items)
      /\ exists r,
          promise (detectNoRefs onProgress (Some page)) = Resolved r
          /\ locations r = map (locate (viewport page)) (List.filter isNoRef items)
          /\ count r = length (List.filter isNoRef items))
  /\ (forall item : TextItem,
      isNoRef item = true <-> isPlaceholder (Text.trim (Pdf.str item)))
  /\ (forall (vp : Viewport) (item : TextItem),
      x (locate vp item)
      = Float.floor (Float.add (Float.mul (t0 (vtransform vp)) (t4 (transform item)))
                               (t4 (vtransform vp)))
      /\ y (locate vp item)
         = Float.sub
             (Float.floor (Float.add (Float.mul (t3 (vtransform vp)) (t5 (transform item)))
                                     (t5 (vtransform vp))))
             (Float.ceil (Float.mul (Pdf.height item) (scale vp)))
      /\ width (locate vp item) = Float.ceil (Float.mul (Pdf.width item) (scale vp))
      /\ height (locate vp item) = Float.ceil (Float.mul (Pdf.height item) (scale vp)))
  /\ (Regex.test false noRefPattern (Text.trim "-/---") = true
      /\ Regex.test false noRefPattern (Text.trim "--/----.") = true
      /\ Regex.test false noRefPattern (Text.trim "-/-") = true
      /\ Regex.test false noRefPattern (Text.trim "-\-") = false
      /\ isNoRef paddedItem = true)
  /\ (Float.toString (x (locate (viewportZ 3 600 800) thirdItem)) = "1"%string
      /\ Float.toString (width (locate (viewportZ 3 600 800) thirdItem)) = "1"%string).
Proof.
  split; [|split; [|split; [|split]]].
  - intros page items onProgress Hitems.
    assert (E : detectNoRefsFromPDF (Some page)
                = map (locate (viewport page)) (List.filter isNoRef items)).
    { unfold detectNoRefsFromPDF. rewrite Hitems. apply flat_map_if. }
    split; [exact E|].
    unfold detectNoRefs. rewrite Hitems, E.
    eexists. split; [reflexivity|]. simpl. split; [reflexivity|].
    apply length_map.
  - intros item. unfold isNoRef. apply noRef_placeholder.
  - intros vp item. unfold locate; simpl. auto.
  - repeat split; vm_compute; reflexivity.
  - split; vm_compute; reflexivity.
Qed.

Lemma missing_reference_regions_witness :
  let vp := viewportZ 3 600 800 in
  let item := itemZ " -/--- " 10 100 100 30 10 in
  let page := mkPage (Some [item; itemZ "A/101" 10 5 5 30 10]) vp in
  textItems page = Some [item; itemZ "A/101" 10 5 5 30 10]
  /\ detectNoRefsFromPDF (Some page)
     = [mkLocation (Float.ofZ 300) (Float.ofZ 2070) (Float.ofZ 90) (Float.ofZ 30)
                   "-/---" "pdf-text" true].
Proof.
  intros vp item page. split; [reflexivity|].
  rewrite (proj1 (proj1 missing_reference_regions page _ false eq_refl)).
  vm_compute. reflexivity.
Defined.

End NoRefsFacts.

(** ** Geotechnical extraction and comparison *)

Module GeotechFacts.

Import Regex GeotechPatterns GeotechExtractor.

(** C3. [valuesMatch] on numeric values declares a match exactly when
    neither value parses to [NaN] and the binary64 value of
    [|parseFloat(a) - parseFloat(b)|] is at most the binary64 value of
    [0.005]; on category values exactly when the upper-cased, trimmed
    strings are equal. So ["0.77"] and ["0.78"] mismatch, ["d"] matches
    ["D"], and ["D"] mismatches ["E"]. For ["0.770"] and ["0.775"], whose
    decimal values differ by exactly 0.005, the computed difference is
    [0.0050000000000000044], above the computed tolerance, and the function
    declares a mismatch. *)
Theorem valuesMatch_boundary :
  valuesMatch "0.770" "0.775" "numeric" = false
  /\ Float.toString (Float.sub (Float.parseFloat "0.775") (Float.parseFloat "0.770"))
     = "0.0050000000000000044"%string
  /\ valuesMatch "0.77" "0.78" "numeric" = false
  /\ valuesMatch "d" "D" "category" = true
  /\ valuesMatch "D" "E" "category" = false
  /\ (forall a b : string,
        valuesMatch a b "numeric" = true <->
        Float.isNaN (Float.parseFloat a) = false
        /\ Float.isNaN (Float.parseFloat b) = false
        /\ Float.leb (Float.abs (Float.sub (Float.parseFloat a) (Float.parseFloat b)))
                     (Float.ofDecimal false 5 (-3)) = true)
  /\ (forall a b : string,
        valuesMatch a b "category" = true <->
        Text.trim (Text.toUpperCase a) = Text.trim (Text.toUpperCase b)).
Proof.
  split; [vm_compute; reflexivity|].
  split; [vm_compute; reflexivity|].
  split; [vm_compute; reflexivity|].
  split; [vm_compute; reflexivity|].
  split; [vm_compute; reflexivity|].
  split.
  - intros a b. unfold valuesMatch.
    change (String.eqb "numeric" "numeric") with true. cbv iota.
    destruct (Float.isNaN (Float.parseFloat a));
      destruct (Float.isNaN (Float.parseFloat b)); cbn [orb]; intuition congruence.
  - intros a b. unfold valuesMatch.
    change (String.eqb "category" "numeric") with false.
    change (String.eqb "category" "category") with true. cbv iota.
    apply String.eqb_eq.
Qed.

(** *** The choice among the matches of a pattern *)

Lemma priority_range (fullText : string) (m : Match) : 0 <= priority fullText m <= 2.
Proof.
  unfold priority. destruct (_ || _); [lia|]. destruct (_ && _); lia.
Qed.

Lemma better_fold (config : Config.t) (fullText : string) :
  forall ms b0 p0 b p,
    fold_left (better config fullText) ms (b0, p0) = (b, p) ->
    (b = b0 /\ p = p0
     /\ forall m', In m' ms -> accepted config m' = true -> priority fullText m' <= p0)
    \/ (exists l1 m l2,
          ms = l1 ++ m :: l2 /\ b = Some m /\ accepted config m = true
          /\ p = priority fullText m /\ p0 < p
          /\ (forall m', In m' l1 -> accepted config m' = true ->
                         priority fullText m' < priority fullText m)
          /\ (forall m', In m' l2 -> accepted config m' = true ->
                         priority fullText m' <= priority fullText m)).
Proof.
  induction ms as [|m1 ms IH]; intros b0 p0 b p; simpl.
  - intros [= <- <-]. left. repeat split; auto. intros m' [].
  - unfold better at 2. destruct (accepted config m1) eqn:Ea.
    + simpl. destruct (Z.ltb_spec p0 (priority fullText m1)) as [Hlt|Hge].
      * intros H. apply IH in H as [(-> & -> & Hall)|(l1 & m & l2 & -> & -> & Hm & -> & Hp & H1 & H2)].
        -- right. exists [], m1, ms. repeat split; auto. intros m' [].
        -- right. exists (m1 :: l1), m, l2. repeat split; auto; try lia.
           intros m' [<-|Hin] Hacc; auto.
      * intros H. apply IH in H as [(-> & -> & Hall)|(l1 & m & l2 & -> & -> & Hm & -> & Hp & H1 & H2)].
        -- left. repeat split; auto. intros m' [<-|Hin] Hacc; auto.
        -- right. exists (m1 :: l1), m, l2. repeat split; auto.
           intros m' [<-|Hin] Hacc; auto. lia.
    + intros H. apply IH in H as [(-> & -> & Hall)|(l1 & m & l2 & -> & -> & Hm & -> & Hp & H1 & H2)].
      * left. repeat split; auto. intros m' [<-|Hin] Hacc; auto. congruence.
      * right. exists (m1 :: l1), m, l2. repeat split; auto.
        intros m' [<-|Hin] Hacc; auto. congruence.
Qed.

Lemma bestMatch_some (config : Config.t) (fullText : string) (ms : list Match) (m : Match) :
  bestMatch config fullText ms = Some m ->
  exists l1 l2,
    ms = l1 ++ m :: l2 /\ accepted config m = true
    /\ (forall m', In m' l1 -> accepted config m' = true ->
                   priority fullText m' < priority fullText m)
    /\ (forall m', In m' l2 -> accepted config m' = true ->
                   priority fullText m' <= priority fullText m).
Proof.
  unfold bestMatch.
  destruct (fold_left _ ms (None, -1)) as [b p] eqn:E. simpl. intros ->.
  apply better_fold in E as [(Hb & _)|(l1 & m' & l2 & -> & [= <-] & Hm & _ & _ & H1 & H2)].
  - discriminate.
  - exists l1, l2. auto.
Qed.

Lemma bestMatch_none (config : Config.t) (fullText : string) (ms : list Match) :
  bestMatch config fullText ms = None <->
  forall m, In m ms -> accepted config m = false.
Proof.
  unfold bestMatch.
  destruct (fold_left _ ms (None, -1)) as [b p] eqn:E. simpl.
  apply better_fold in E as [(-> & -> & Hall)|(l1 & m' & l2 & -> & -> & Hm & _ & _ & H1 & H2)].
  - split; auto. intros _ m Hin. destruct (accepted config m) eqn:Ea; auto.
    pose proof (Hall m Hin Ea). pose proof (priority_range fullText m). lia.
  - split; [discriminate|]. intros H. rewrite H in Hm; [discriminate|].
    apply in_or_app. right. now left.
Qed.

Lemma searchPages_none (config : Config.t) (pattern : Regex.t) :
  forall pages,
    searchPages config pattern pages = None <->
    forall page m,
      In page pages -> In m (matchAll true pattern (TextPage.fullText page)) ->
      accepted config m = false.
Proof.
  induction pages as [|page rest IH]; simpl.
  - split; auto. intros _ page m [].
  - destruct (bestMatch _ _ _) as [m|] eqn:E.
    + split; [discriminate|]. intros H.
      apply bestMatch_some in E as (l1 & l2 & Hms & Hacc & _).
      rewrite (H page m) in Hacc; [discriminate|now left|].
      rewrite Hms. apply in_or_app. right. now left.
    + rewrite IH. rewrite bestMatch_none in E. split.
      * intros H page' m [<-|Hin] Hm; eauto.
      * intros H page' m Hin Hm. apply (H page' m); auto.
Qed.

Lemma searchPages_some (config : Config.t) (pattern : Regex.t) :
  forall pages e,
    searchPages config pattern pages = Some e ->
    exists pg1 page pg2 m,
      pages = pg1 ++ page :: pg2
      /\ (forall pg m', In pg pg1 -> In m' (matchAll true pattern (TextPage.fullText pg)) ->
                        accepted config m' = false)
      /\ bestMatch config (TextPage.fullText page)
                   (matchAll true pattern (TextPage.fullText page)) = Some m
      /\ e = found config page m.
Proof.
  induction pages as [|page rest IH]; intros e; simpl; [discriminate|].
  destruct (bestMatch _ _ _) as [m|] eqn:E.
  - intros [= <-]. exists [], page, rest, m. repeat split; auto. intros pg m' [].
  - intros H. apply IH in H as (pg1 & page' & pg2 & m & -> & Hpre & Hb & ->).
    exists (page :: pg1), page', pg2, m. repeat split; auto.
    intros pg m' [<-|Hin] Hm; [|eauto].
    rewrite bestMatch_none in E. now apply E.
Qed.

Lemma searchPatterns_none (config : Config.t) (pages : list TextPage.t) :
  forall patterns,
    searchPatterns config patterns pages = None <->
    forall pattern, In pattern patterns -> searchPages config pattern pages = None.
Proof.
  induction patterns as [|pattern rest IH]; simpl.
  - split; auto. intros _ p [].
  - destruct (searchPages config pattern pages) as [e|] eqn:E.
    + split; [discriminate|]. intros H. rewrite (H pattern) in E; [discriminate|now left].
    + rewrite IH. split.
      * intros H p [<-|Hin]; auto.
      * intros H p Hin. apply H. now right.
Qed.

Lemma searchPatterns_some (config : Config.t) (pages : list TextPage.t) :
  forall patterns e,
    searchPatterns config patterns pages = Some e ->
    exists ps1 pattern ps2,
      patterns = ps1 ++ pattern :: ps2
      /\ (forall p, In p ps1 -> searchPages config p pages = None)
      /\ searchPages config pattern pages = Some e.
Proof.
  induction patterns as [|pattern rest IH]; intros e; simpl; [discriminate|].
  destruct (searchPages config pattern pages) as [e'|] eqn:E.
  - intros [= <-]. exists [], pattern, rest. repeat split; auto. intros p [].
  - intros H. apply IH in H as (ps1 & pattern' & ps2 & -> & Hpre & Hs).
    exists (pattern :: ps1), pattern', ps2. repeat split; auto.
    intros p [<-|Hin]; auto.
Qed.

(** C2, as the code has it. The example page of the design, on which the
    two values are written as [SDS (ASCE 11.4): 1.20] and
    [SDS (Site Specific): 0.95], matches none of the patterns of Sds at any
    index, and the value stays [null]. A value that is extracted for a
    parameter comes from the first of its patterns that has a valid match on
    some page, from the first page on which that pattern has a valid match,
    and there from the best match: a match that passes validation, with a
    priority strictly above that of every valid match before it and at
    least that of every valid match after it, where the priority is 2 when
    the text from 100 characters before to 100 characters after the start
    of the match contains [SITE SPECIFIC] or [SITE-SPECIFIC], 1 when it
    contains neither [ASCE] nor [SECTION 11], and 0 otherwise. Two pages
    show the rule at work: on [reportApart], where 120 hyphens separate
    [SDS: 1.20] in an ASCE context from [SDS: 0.95] after [Site Specific],
    the second match alone has priority 2 and the extractor selects
    [0.95]; on [reportNear], where the whole text lies in the context of
    both matches, both have priority 2 and the extractor keeps the first,
    [1.2]. *)
Theorem sds_priority :
  (forall (config : Config.t) (pages : list TextPage.t) (v : string),
      Extracted.value (extractOne config pages) = Some v ->
      exists ps1 pattern ps2 pg1 page pg2 l1 m l2 raw,
        Config.patterns config = ps1 ++ pattern :: ps2
        /\ pages = pg1 ++ page :: pg2
        /\ (forall p pg m', In p ps1 -> In pg pages ->
                            In m' (matchAll true p (TextPage.fullText pg)) ->
                            accepted config m' = false)
        /\ (forall pg m', In pg pg1 ->
                          In m' (matchAll true pattern (TextPage.fullText pg)) ->
                          accepted config m' = false)
        /\ matchAll true pattern (TextPage.fullText page) = l1 ++ m :: l2
        /\ accepted config m = true
        /\ (forall m', In m' l1 -> accepted config m' = true ->
                       priority (TextPage.fullText page) m'
                       < priority (TextPage.fullText page) m)
        /\ (forall m', In m' l2 -> accepted config m' = true ->
                       priority (TextPage.fullText page) m'
                       <= priority (TextPage.fullText page) m)
        /\ group1 m = Some raw
        /\ v = normalizeValue raw (Config.type config))
  /\ (forall (fullText : string) (m : Match),
      let context :=
        Text.toUpperCase
          (Text.substring fullText (index m - 100)
                          (Nat.min (String.length fullText) (index m + 100))) in
      let site := Text.includes context "SITE SPECIFIC"
                  || Text.includes context "SITE-SPECIFIC" in
      let asce := Text.includes context "ASCE" || Text.includes context "SECTION 11" in
      priority fullText m = (if site then 2 else if asce then 0 else 1))
  /\ (forall pattern skipped remaining y,
      In pattern (Config.patterns Sds) ->
      Text.chars reportExample = skipped ++ remaining ->
      ~ Sem true pattern (mkState (length skipped) remaining (prevOf None skipped) []) y)
  /\ sdsOf reportExample = Some None
  /\ sdsOf reportApart = Some (Some "0.95"%string)
  /\ sdsOf reportNear = Some (Some "1.2"%string).
Proof.
  split; [|split; [|split; [|repeat split; vm_compute; reflexivity]]].
  - intros config pages v. unfold extractOne.
    destruct (searchPatterns _ _ _) as [e|] eqn:E; [|discriminate].
    apply searchPatterns_some in E as (ps1 & pattern & ps2 & Hps & Hpre & E).
    apply searchPages_some in E as (pg1 & page & pg2 & m & Hpg & Hpre' & Hb & ->).
    apply bestMatch_some in Hb as (l1 & l2 & Hms & Hacc & H1 & H2).
    simpl. intros [= <-].
    assert (Hraw : exists raw, group1 m = Some raw).
    { unfold accepted in Hacc. destruct (group1 m); [eauto|discriminate]. }
    destruct Hraw as [raw Hraw].
    exists ps1, pattern, ps2, pg1, page, pg2, l1, m, l2, raw.
    rewrite Hraw. repeat split; auto.
    intros p pg m' Hp Hin Hm. specialize (Hpre p Hp).
    rewrite searchPages_none in Hpre. eauto.
  - intros fullText m context site asce. unfold priority.
    fold context. fold site. destruct site; [reflexivity|].
    subst asce. destruct (Text.includes context "ASCE"); simpl; [reflexivity|].
    destruct (Text.includes context "SECTION 11"); reflexivity.
  - intros pattern skipped remaining y Hin.
    assert (Hnil : matchAll true pattern reportExample = []).
    { simpl in Hin.
      repeat (destruct Hin as [<-|Hin]; [vm_compute; reflexivity|]). destruct Hin. }
    rewrite RegexFacts.matchAll_nil in Hnil. apply Hnil.
Qed.

Lemma sds_priority_witness :
  Extracted.value (extractOne Sds [TextPage.mk 1 (Some []) reportApart]) = Some "0.95"%string
  /\ exists pattern m raw,
       In pattern (Config.patterns Sds)
       /\ In m (matchAll true pattern reportApart)
       /\ group1 m = Some raw
       /\ "0.95"%string = normalizeValue raw "numeric".
Proof.
  assert (H : Extracted.value (extractOne Sds [TextPage.mk 1 (Some []) reportApart])
              = Some "0.95"%string) by (vm_compute; reflexivity).
  split; [exact H|].
  destruct (proj1 sds_priority Sds _ _ H)
    as (ps1 & pattern & ps2 & pg1 & page & pg2 & l1 & m & l2 & raw
        & Hps & Hpg & _ & _ & Hms & _ & _ & _ & Hraw & Hv).
  exists pattern, m, raw.
  assert (Hpage : page = TextPage.mk 1 (Some []) reportApart).
  { destruct pg1 as [|p1 [|p2 pg1]]; [now injection Hpg|discriminate Hpg|discriminate Hpg]. }
  subst page. simpl in Hms.
  repeat split; auto.
  - rewrite Hps. apply in_or_app. right. now left.
  - rewrite Hms. apply in_or_app. right. now left.
Defined.

(** The claim of the design example fails on the code: the page contains
    both strings, and the value of Sds is [null], not ["0.95"]. *)
Lemma sds_example_not_extracted :
  Text.includes reportExample "SDS (ASCE 11.4): 1.20" = true
  /\ Text.includes reportExample "SDS (Site Specific): 0.95" = true
  /\ sdsOf reportExample = Some None
  /\ sdsOf reportExample <> Some (Some "0.95"%string).
Proof.
  repeat split; try (vm_compute; reflexivity).
  vm_compute. discriminate.
Qed.

End GeotechFacts.

(** ** Geotechnical verification *)

Module VerificationFacts.

Import Regex GeotechPatterns GeotechExtractor GeotechVerification.

(** C9. Called with missing geotech data ([geotechData] null or without
    [extractedValues]), or with geotech data but [pdfPages] null or empty,
    [detectGeotechMismatches] does not throw: its promise resolves to a
    result with [detected = false], [count = 0], empty [matches],
    [mismatches] and [missing], and a message that names the unmet
    precondition; it calls no progress callback. *)
Theorem preconditions_unmet (geotechData : option GeotechData)
    (pdfPages : option (list TextPage.t)) (onProgress : bool) :
  let noData :=
    match geotechData with
    | Some gd => match extractedValues gd with Some _ => false | None => true end
    | None => true
    end in
  let noPages :=
    match pdfPages with
    | Some (_ :: _) => false
    | _ => true
    end in
  noData = true \/ noPages = true ->
  exists r,
    detectGeotechMismatches geotechData pdfPages onProgress = mkRun (Resolved r) []
    /\ detected r = false /\ count r = 0%nat
    /\ matches r = [] /\ mismatches r = [] /\ missing r = []
    /\ message r
       = (if noData then "No geotechnical report data available for verification"
          else "Text verification requires PDF upload (images not supported)")%string.
Proof.
  intros noData noPages H. unfold detectGeotechMismatches.
  destruct geotechData as [gd|]; [destruct (extractedValues gd) as [values|]|];
    simpl in noData; subst noData;
    try (eexists; split; [reflexivity|]; repeat split; reflexivity).
  destruct H as [H|H]; [discriminate|].
  destruct pdfPages as [[|page pages]|]; simpl in noPages; subst noPages;
    try discriminate;
    eexists; (split; [reflexivity|]; repeat split; reflexivity).
Qed.

Lemma preconditions_unmet_witness :
  exists r,
    detectGeotechMismatches (Some (mkData (Some (extractSeismicValues []))))
                            (Some []) true
    = mkRun (Resolved r) []
    /\ message r = "Text verification requires PDF upload (images not supported)"%string.
Proof.
  destruct (preconditions_unmet (Some (mkData (Some (extractSeismicValues []))))
                                (Some []) true (or_intror eq_refl))
    as (r & Hr & _ & _ & _ & _ & _ & Hm).
  exists r. split; [exact Hr|exact Hm].
Defined.

(** *** The comparison with the notes *)

(** Every pattern of the table captures its first group. *)
Lemma table_capturing (key : string) (config : Config.t) (pattern : Regex.t) :
  lookup key = Some config ->
  In pattern (Config.patterns config) ->
  RegexFacts.capturing pattern = true.
Proof.
  unfold lookup. intros H Hin.
  destruct (List.find _ SEISMIC_PATTERNS) as [[k c]|] eqn:E; [|discriminate].
  injection H as ->. apply List.find_some in E as [E _].
  assert (Hall : forallb (fun kc => forallb RegexFacts.capturing (Config.patterns (snd kc)))
                         SEISMIC_PATTERNS = true) by (vm_compute; reflexivity).
  rewrite forallb_forall in Hall. specialize (Hall _ E). simpl in Hall.
  rewrite forallb_forall in Hall. now apply Hall.
Qed.

Lemma firstInNotes_some (notesText : string) :
  forall patterns raw,
    firstInNotes patterns notesText = Some raw ->
    exists pattern m ms,
      In pattern patterns /\ matchAll true pattern notesText = m :: ms /\ raw = group1 m.
Proof.
  induction patterns as [|pattern rest IH]; intros raw; simpl; [discriminate|].
  destruct (matchAll true pattern notesText) as [|m ms] eqn:E.
  - intros H. apply IH in H as (p & m & ms & Hin & Hm & ->). exists p, m, ms. auto.
  - intros [= <-]. exists pattern, m, ms. auto.
Qed.

Lemma firstInNotes_none (notesText : string) :
  forall patterns,
    firstInNotes patterns notesText = None <->
    forall pattern, In pattern patterns -> matchAll true pattern notesText = [].
Proof.
  induction patterns as [|pattern rest IH]; simpl.
  - split; auto. intros _ p [].
  - destruct (matchAll true pattern notesText) as [|m ms] eqn:E.
    + rewrite IH. split.
      * intros H p [<-|Hin]; auto.
      * intros H p Hin. apply H. now right.
    + split; [discriminate|]. intros H. specialize (H pattern (or_introl eq_refl)).
      congruence.
Qed.

Lemma found_iff (notesText key : string) (expected : Extracted.t) (config : Config.t) :
  falsy (Extracted.value expected) = false ->
  lookup key = Some config ->
  (foundInNotes notesText key expected <->
   firstInNotes (Config.patterns config) notesText <> None).
Proof.
  intros Hf Hl. unfold foundInNotes. split.
  - intros (_ & config' & pattern & Hl' & Hin & Hm) Hnone.
    rewrite Hl in Hl'. injection Hl' as <-.
    rewrite firstInNotes_none in Hnone. now apply Hm, Hnone.
  - intros H. split; auto. exists config.
    destruct (firstInNotes _ _) as [raw|] eqn:E; [|congruence].
    apply firstInNotes_some in E as (pattern & m & ms & Hin & Hm & _).
    exists pattern. repeat split; auto. congruence.
Qed.

(** What one turn of the loop does. *)
Lemma compareOne_cases (notesText : string) (results : Comparison) (key : string)
    (expected : Extracted.t) :
  (falsy (Extracted.value expected) = true
   /\ compareOne notesText results key expected = Ok results)
  \/ (falsy (Extracted.value expected) = false
      /\ lookup key = None
      /\ exists err, compareOne notesText results key expected = Throw err)
  \/ (falsy (Extracted.value expected) = false
      /\ foundInNotes notesText key expected
      /\ compareOne notesText results key expected = Throw requireError)
  \/ (falsy (Extracted.value expected) = false
      /\ ~ foundInNotes notesText key expected
      /\ compareOne notesText results key expected
         = Ok (mkComparison (GeotechExtractor.matches results) (GeotechExtractor.mismatches results)
                            (GeotechExtractor.missing results ++ [missingEntry (key, expected)]))).
Proof.
  unfold compareOne.
  destruct (falsy (Extracted.value expected)) eqn:Hf; [now left|]. right.
  destruct (lookup key) as [config|] eqn:Hl; [|left; eauto]. right.
  pose proof (found_iff notesText key expected config Hf Hl) as Hiff.
  destruct (firstInNotes (Config.patterns config) notesText) as [raw|] eqn:E.
  - left. split; [reflexivity|]. split; [apply Hiff; discriminate|].
    apply firstInNotes_some in E as (pattern & m & ms & Hin & Hm & ->).
    destruct (RegexFacts.matchAll_group1 true pattern notesText m) as [v Hv].
    { now apply (table_capturing key config). }
    { rewrite Hm. now left. }
    unfold group1. destruct (groups m) as [|g gs]; [discriminate|].
    simpl in Hv. injection Hv as ->. reflexivity.
  - right. split; [reflexivity|]. split; [|reflexivity].
    intros H. apply Hiff in H. congruence.
Qed.

Lemma compareLoop_ok (notesText : string) :
  forall entries results res,
    compareLoop notesText results entries = Ok res ->
    GeotechExtractor.matches res = GeotechExtractor.matches results
    /\ GeotechExtractor.mismatches res = GeotechExtractor.mismatches results
    /\ GeotechExtractor.missing res
       = GeotechExtractor.missing results
         ++ map missingEntry
                (List.filter (fun ke => negb (falsy (Extracted.value (snd ke)))) entries)
    /\ forall key e, In (key, e) entries -> ~ foundInNotes notesText key e.
Proof.
  induction entries as [|[key expected] rest IH]; intros results res; simpl.
  - intros [= <-]. rewrite app_nil_r. repeat split; auto.
  - destruct (compareOne_cases notesText results key expected)
      as [(Hf & ->)|[(Hf & _ & err & ->)|[(Hf & _ & ->)|(Hf & Hn & ->)]]];
      try discriminate; rewrite Hf; simpl.
    + intros H. apply IH in H as (H1 & H2 & H3 & H4). repeat split; auto.
      intros k e [[= <- <-]|Hin]; [|now apply H4].
      intros [Hv _]. congruence.
    + intros H. apply IH in H as (H1 & H2 & H3 & H4). simpl in *.
      repeat split; auto.
      * rewrite H3, <- app_assoc. reflexivity.
      * intros k e [[= <- <-]|Hin]; [exact Hn|now apply H4].
Qed.

Lemma compareLoop_found (notesText : string) :
  forall entries results,
    (exists key e, In (key, e) entries /\ foundInNotes notesText key e) ->
    (exists err, compareLoop notesText results entries = Throw err)
    /\ ((forall key e, In (key, e) entries -> falsy (Extracted.value e) = false ->
                       lookup key <> None) ->
        compareLoop notesText results entries = Throw requireError).
Proof.
  induction entries as [|[key expected] rest IH]; intros results (k & e & Hin & Hfound).
  - destruct Hin.
  - simpl.
    assert (Hrest : In (k, e) rest \/ (k, e) = (key, expected)) by (destruct Hin; auto).
    destruct (compareOne_cases notesText results key expected)
      as [(Hf & ->)|[(Hf & Hl & err & ->)|[(Hf & _ & ->)|(Hf & Hn & ->)]]].
    + destruct Hrest as [Hr|[= -> ->]].
      * destruct (IH results (ex_intro _ k (ex_intro _ e (conj Hr Hfound)))) as [H1 H2].
        split; auto. intros Hk. apply H2. intros k' e' Hin'. apply Hk. now right.
      * destruct Hfound as [Hv _]. congruence.
    + split; [eauto|]. intros Hk. exfalso.
      apply (Hk key expected); [now left|exact Hf|exact Hl].
    + split; eauto.
    + destruct Hrest as [Hr|[= -> ->]]; [|contradiction].
      destruct (IH (mkComparison (GeotechExtractor.matches results) (GeotechExtractor.mismatches results)
                                 (GeotechExtractor.missing results ++ [missingEntry (key, expected)]))
                   (ex_intro _ k (ex_intro _ e (conj Hr Hfound)))) as [H1 H2].
      split; auto. intros Hk. apply H2. intros k' e' Hin'. apply Hk. now right.
Qed.

(** When no expected parameter is found in the notes, the loop returns,
    with every expected value listed as missing. *)
Lemma compareLoop_none (notesText : string) :
  forall entries results,
    (forall key e, In (key, e) entries -> falsy (Extracted.value e) = false ->
                   lookup key <> None) ->
    (forall key e, In (key, e) entries -> ~ foundInNotes notesText key e) ->
    compareLoop notesText results entries
    = Ok (mkComparison (GeotechExtractor.matches results)
                       (GeotechExtractor.mismatches results)
                       (GeotechExtractor.missing results ++ Notes.allMissing entries)).
Proof.
  induction entries as [|[key expected] rest IH]; intros results Hk Hn.
  - simpl. unfold Notes.allMissing. simpl. rewrite app_nil_r. now destruct results.
  - simpl. unfold Notes.allMissing. simpl.
    destruct (compareOne_cases notesText results key expected)
      as [(Hf & ->)|[(Hf & Hl & _)|[(Hf & Hfound & _)|(Hf & _ & ->)]]].
    + rewrite Hf. simpl.
      apply IH; intros k e Hin; [apply Hk|apply Hn]; now right.
    + destruct (Hk key expected (or_introl eq_refl) Hf Hl).
    + destruct (Hn key expected (or_introl eq_refl) Hfound).
    + rewrite Hf. simpl. rewrite IH.
      * simpl. unfold Notes.allMissing. now rewrite <- app_assoc.
      * intros k e Hin. apply Hk. now right.
      * intros k e Hin. apply Hn. now right.
Qed.

(** A text in which no pattern of the table matches holds no expected
    parameter. *)
Lemma silent_notes (notesText : string) :
  forallb (fun kc => match firstInNotes (Config.patterns (snd kc)) notesText with
                     | None => true
                     | Some _ => false
                     end) SEISMIC_PATTERNS = true ->
  forall key e, ~ foundInNotes notesText key e.
Proof.
  intros Hall key e (Hf & config & pattern & Hl & Hin & Hm).
  rewrite forallb_forall in Hall.
  unfold lookup in Hl. destruct (List.find _ SEISMIC_PATTERNS) as [[k c]|] eqn:E; [|discriminate].
  injection Hl as <-. apply find_some in E as [Hc _].
  specialize (Hall (k, c) Hc). simpl in Hall.
  destruct (firstInNotes (Config.patterns c) notesText) eqn:En; [discriminate|].
  rewrite firstInNotes_none in En. now apply Hm, En.
Qed.

(** The keys of the values that the extractor returns are keys of the
    table. *)
Lemma extracted_keys (pages : list TextPage.t) (key : string) (e : Extracted.t) :
  In (key, e) (extractSeismicValues pages) -> lookup key <> None.
Proof.
  unfold extractSeismicValues. intros H. apply in_map_iff in H as ([k c] & [= <- <-] & Hin).
  simpl in Hin. simpl.
  repeat (destruct Hin as [[= <- <-]|Hin]; [vm_compute; discriminate|]).
  destruct Hin.
Qed.

Lemma locateAll_nil {A : Type} (parameter : A -> string) (SCALE : Float.t)
    (textItems : list TextPage.Item) :
  locateAll parameter SCALE textItems [] = [].
Proof. reflexivity. Qed.

(** What the [try] block returns when it returns. *)
Lemma verify_ok (values : list (string * Extracted.t)) (pdfPages : list TextPage.t)
    (onProgress : bool) (r : Verification) (calls : list nat) :
  verify values pdfPages onProgress = Ok (r, calls) ->
  GeotechVerification.matches r = [] /\ GeotechVerification.mismatches r = [].
Proof.
  unfold verify. destruct (findGeneralNotesSection pdfPages) as [section|].
  - destruct (compareValuesInNotes (notesText section) values) as [comparison|err] eqn:E;
      [|discriminate].
    apply compareLoop_ok in E as (H1 & H2 & _). simpl in H1, H2.
    intros [= <- <-]. simpl. rewrite H1, H2. split; reflexivity.
  - intros [= <- <-]. split; reflexivity.
Qed.

(** What the detector returns when no expected parameter is found in the
    notes section. *)
Lemma verify_missing (values : list (string * Extracted.t)) (pdfPages : list TextPage.t)
    (onProgress : bool) (section : NotesSection) :
  findGeneralNotesSection pdfPages = Some section ->
  (forall key e, In (key, e) values -> falsy (Extracted.value e) = false ->
                 lookup key <> None) ->
  (forall key e, In (key, e) values -> ~ foundInNotes (notesText section) key e) ->
  let missing := Notes.allMissing values in
  verify values pdfPages onProgress
  = Ok (mkVerification
          (0 <? length missing)%nat (length missing) [] [] missing
          (Some (GeotechExtractor.notesPageNumber section))
          (if (0 <? length missing)%nat
           then "Found " ++ showNat 0 ++ " mismatch(es) and "
                ++ showNat (length missing) ++ " missing value(s)"
           else "All " ++ showNat 0 ++ " seismic value(s) verified successfully")%string,
        report onProgress (length missing)).
Proof.
  intros Hs Hk Hn missing. unfold verify. rewrite Hs.
  unfold compareValuesInNotes. rewrite (compareLoop_none _ _ _ Hk Hn).
  cbn [GeotechExtractor.matches GeotechExtractor.mismatches GeotechExtractor.missing
       app length Nat.add].
  reflexivity.
Qed.

(** C10. Whenever [compareValuesInNotes] is applied to a notes text in
    which a pattern of some expected parameter (one with a value) matches,
    it throws; when the expected keys are keys of the pattern table, as
    those of the values that [extractSeismicValues] returns are, what it
    throws is the [ReferenceError] of the [require] statement. When it
    returns, the lists of matches and mismatches are empty, no expected
    parameter is found in the notes, and every expected parameter is listed
    as missing. Consequently the promise of [detectGeotechMismatches] always
    resolves to a result with empty [matches] and [mismatches]; and when a
    parameter is found in the notes section the result is the zero-count
    result of the [catch] branch, with a message that starts with
    [Verification error:]. The all-missing outcome completes normally: when
    the expected keys are keys of the table and no expected parameter is
    found in the notes, [compareValuesInNotes] returns, with every expected
    value listed as missing, and [detectGeotechMismatches] resolves to the
    result that counts them and calls [onProgress] once. *)
Theorem require_blocks_comparison :
  (forall (notesText : string) (expectedValues : list (string * Extracted.t)),
      (exists key e, In (key, e) expectedValues /\ foundInNotes notesText key e) ->
      (exists err, compareValuesInNotes notesText expectedValues = Throw err)
      /\ ((forall key e, In (key, e) expectedValues ->
                         falsy (Extracted.value e) = false -> lookup key <> None) ->
          compareValuesInNotes notesText expectedValues = Throw requireError))
  /\ (forall (notesText : string) (reportPages : list TextPage.t),
      (exists key e, In (key, e) (extractSeismicValues reportPages)
                     /\ foundInNotes notesText key e) ->
      compareValuesInNotes notesText (extractSeismicValues reportPages)
      = Throw requireError)
  /\ (forall (notesText : string) (expectedValues : list (string * Extracted.t))
             (res : Comparison),
      compareValuesInNotes notesText expectedValues = Ok res ->
      GeotechExtractor.matches res = []
      /\ GeotechExtractor.mismatches res = []
      /\ GeotechExtractor.missing res
         = map missingEntry
               (List.filter (fun ke => negb (falsy (Extracted.value (snd ke))))
                            expectedValues)
      /\ forall key e, In (key, e) expectedValues -> ~ foundInNotes notesText key e)
  /\ (forall geotechData pdfPages onProgress,
      exists r,
        promise (detectGeotechMismatches geotechData pdfPages onProgress) = Resolved r
        /\ GeotechVerification.matches r = []
        /\ GeotechVerification.mismatches r = [])
  /\ (forall (values : list (string * Extracted.t)) (page : TextPage.t)
             (pages : list TextPage.t) (onProgress : bool) (section : NotesSection),
      findGeneralNotesSection (page :: pages) = Some section ->
      (exists key e, In (key, e) values /\ foundInNotes (notesText section) key e) ->
      exists err,
        detectGeotechMismatches (Some (mkData (Some values))) (Some (page :: pages))
                                onProgress
        = mkRun (Resolved (nothing ("Verification error: " ++ errorMessage err))) [])
  /\ (forall (notesText : string) (expectedValues : list (string * Extracted.t)),
      (forall key e, In (key, e) expectedValues ->
                     falsy (Extracted.value e) = false -> lookup key <> None) ->
      (forall key e, In (key, e) expectedValues -> ~ foundInNotes notesText key e) ->
      compareValuesInNotes notesText expectedValues
      = Ok (mkComparison [] [] (Notes.allMissing expectedValues)))
  /\ (forall (values : list (string * Extracted.t)) (page : TextPage.t)
             (pages : list TextPage.t) (onProgress : bool) (section : NotesSection),
      findGeneralNotesSection (page :: pages) = Some section ->
      (forall key e, In (key, e) values ->
                     falsy (Extracted.value e) = false -> lookup key <> None) ->
      (forall key e, In (key, e) values -> ~ foundInNotes (notesText section) key e) ->
      let missing := Notes.allMissing values in
      detectGeotechMismatches (Some (mkData (Some values))) (Some (page :: pages))
                              onProgress
      = mkRun
          (Resolved
             (mkVerification
                (0 <? length missing)%nat (length missing) [] [] missing
                (Some (GeotechExtractor.notesPageNumber section))
                (if (0 <? length missing)%nat
                 then "Found " ++ showNat 0 ++ " mismatch(es) and "
                      ++ showNat (length missing) ++ " missing value(s)"
                 else "All " ++ showNat 0 ++ " seismic value(s) verified successfully")%string))
          (report onProgress (length missing))).
Proof.
  split; [|split; [|split; [|split; [|split; [|split]]]]].
  - intros notesText expectedValues H. now apply compareLoop_found.
  - intros notesText reportPages H.
    apply (compareLoop_found notesText _ (mkComparison [] [] [])) in H as [_ H].
    apply H. intros key e Hin _. now apply (extracted_keys reportPages key e).
  - intros notesText expectedValues res H. now apply compareLoop_ok in H.
  - intros geotechData pdfPages onProgress. unfold detectGeotechMismatches.
    destruct geotechData as [gd|]; [destruct (extractedValues gd) as [values|]|];
      try (eexists; repeat split; reflexivity).
    destruct pdfPages as [[|page pages]|]; try (eexists; repeat split; reflexivity).
    destruct (verify values (page :: pages) onProgress) as [[r calls]|err] eqn:E.
    + exists r. split; [reflexivity|]. now apply verify_ok in E.
    + eexists; repeat split; reflexivity.
  - intros values page pages onProgress section Hs Hfound.
    unfold detectGeotechMismatches, verify. simpl extractedValues. cbv iota.
    rewrite Hs.
    apply (compareLoop_found _ _ (mkComparison [] [] [])) in Hfound as [[err Herr] _].
    unfold compareValuesInNotes. rewrite Herr. exists err. reflexivity.
  - intros notesText expectedValues Hk Hn. unfold compareValuesInNotes.
    now rewrite (compareLoop_none _ _ _ Hk Hn).
  - intros values page pages onProgress section Hs Hk Hn missing.
    unfold detectGeotechMismatches. cbn [extractedValues].
    now rewrite (verify_missing values (page :: pages) onProgress section Hs Hk Hn).
Qed.

Lemma require_blocks_comparison_witness :
  let values := extractSeismicValues [TextPage.mk 1 (Some []) "SDS = 0.77"] in
  let notes := "the notes say SDS = 0.77"%string in
  let silent := "the notes give no value"%string in
  (exists key e, In (key, e) values /\ foundInNotes notes key e)
  /\ compareValuesInNotes notes values = Throw requireError
  /\ (forall key e, In (key, e) values -> ~ foundInNotes silent key e)
  /\ compareValuesInNotes silent values
     = Ok (mkComparison [] [] [mkMissingEntry "Sds" "Sds" (Some "0.77"%string)]).
Proof.
  intros values notes silent.
  assert (H : exists key e, In (key, e) values /\ foundInNotes notes key e).
  { exists "Sds"%string, (extractOne Sds [TextPage.mk 1 (Some []) "SDS = 0.77"]).
    split; [now left|]. split; [vm_compute; reflexivity|].
    exists Sds, (seqs [Chr "S"; sep; lit "DS"; ws0; Chr "="; ws0; numB]).
    split; [reflexivity|]. split; [simpl; tauto|]. vm_compute. discriminate. }
  split; [exact H|].
  split; [exact (proj1 (proj2 require_blocks_comparison) notes _ H)|].
  assert (Hn : forall key e, In (key, e) values -> ~ foundInNotes silent key e).
  { intros key e _. apply silent_notes. vm_compute. reflexivity. }
  split; [exact Hn|].
  assert (Hk : forall key e, In (key, e) values ->
                             falsy (Extracted.value e) = false -> lookup key <> None).
  { intros key e Hin _.
    exact (extracted_keys [TextPage.mk 1 (Some []) "SDS = 0.77"] key e Hin). }
  rewrite (proj1 (proj2 (proj2 (proj2 (proj2 (proj2 require_blocks_comparison)))))
                 silent values Hk Hn).
  vm_compute. reflexivity.
Defined.

End VerificationFacts.

(** ** Detail references *)

Module ReferenceFacts.

Import Regex Text References.

(** A bounded repetition of a class consumes that many characters of the
    class. *)
Lemma rep_cls_inv (ic : bool) (items : list item) (greedy : bool) :
  forall max min x y,
    Sem ic (Rep (Cls false items) min (Some max) greedy) x y ->
    (min <= max)%nat ->
    exists l,
      (min <= length l <= max)%nat /\ rest x = l ++ rest y
      /\ Forall (fun ch => existsb (fun it => itemMatches ic it ch) items = true) l.
Proof.
  induction max as [|max IH]; intros min x y H Hle;
    apply RegexFacts.Sem_rep_inv in H as [[Hstop ->]|(Hmax & y1 & Hbody & _ & Hrest)].
  - exists []. split; [simpl; lia|]. split; [reflexivity|constructor].
  - congruence.
  - exists []. split; [|split; [reflexivity|constructor]].
    destruct Hstop as [->|[=]]. simpl. lia.
  - apply RegexFacts.Sem_cls_inv in Hbody as (ch & tl & Hr & Hc & ->).
    simpl in Hr, Hc, Hrest.
    apply IH in Hrest as (l & Hn & Hrest & Hl); [|lia].
    exists (ch :: l). split; [simpl; lia|]. simpl in Hrest. split.
    + rewrite Hr. simpl. now rewrite Hrest.
    + constructor; assumption.
Qed.

(** Conversely, such a repetition matches any such run of characters. *)
Lemma rep_cls_intro (ic : bool) (items : list item) (greedy : bool) (tl : list ascii) :
  forall l min max i before,
    Forall (fun ch => existsb (fun it => itemMatches ic it ch) items = true) l ->
    (min <= length l <= max)%nat ->
    Sem ic (Rep (Cls false items) min (Some max) greedy)
        (mkState i (l ++ tl) before [])
        (mkState (i + length l) tl (prevOf before l) []).
Proof.
  induction l as [|ch l IH]; intros min max i before Hl Hn.
  - simpl in Hn. replace (i + length (@nil ascii))%nat with i by (simpl; lia).
    apply SemRepStop. left. lia.
  - inversion Hl as [|? ? Hch Hl']; subst. simpl in Hn.
    apply (SemRepStep ic (Cls false items) min (Some max) greedy _
                      (mkState (S i) (l ++ tl) (Some ch) [])).
    + intros [= E]. lia.
    + apply (SemCls ic false items (mkState i ((ch :: l) ++ tl) before []) ch (l ++ tl));
        [reflexivity|exact Hch].
    + simpl. lia.
    + rewrite RegexFacts.prevOf_cons.
      replace (i + length (ch :: l))%nat with (S i + length l)%nat by (simpl; lia).
      apply IH; [exact Hl'|]. simpl. lia.
Qed.

Lemma digit_class (ch : ascii) :
  existsb (fun it => itemMatches true it ch) [IDigit] = isDigit ch.
Proof. simpl. now rewrite orb_false_r. Qed.

Lemma letter_class (ch : ascii) :
  existsb (fun it => itemMatches true it ch) [IRange "A" "Z"] = isLetter ch.
Proof.
  destruct ch as [[] [] [] [] [] [] [] []]; reflexivity.
Qed.

Lemma alnum_class (ch : ascii) :
  existsb (fun it => itemMatches true it ch) [IRange "0" "9"; IRange "A" "Z"]
  = isDigit ch || isLetter ch.
Proof.
  destruct ch as [[] [] [] [] [] [] [] []]; reflexivity.
Qed.

Lemma Forall_class (P Q : ascii -> bool) (l : list ascii) :
  (forall ch, P ch = Q ch) ->
  Forall (fun ch => P ch = true) l <-> Forall (fun ch => Q ch = true) l.
Proof.
  intros E. split; intros H; (eapply Forall_impl; [exact H|]); intros ch; cbv beta;
    now rewrite E.
Qed.

Lemma standalone_shape (s : string) :
  OverlappingText.isStandaloneDetailReference s = true -> isDetailReference s.
Proof.
  unfold OverlappingText.isStandaloneDetailReference. rewrite RegexFacts.test_true.
  intros (skipped & remaining & y & Hsplit & Hsem).
  unfold OverlappingText.standalonePattern, seqs in Hsem.
  apply RegexFacts.Sem_seq_inv in Hsem as (y1 & Hbol & Hsem).
  apply RegexFacts.Sem_bol_inv in Hbol as [-> Hpos]. simpl in Hpos.
  destruct skipped; [|discriminate]. simpl in Hsplit. subst remaining.
  apply RegexFacts.Sem_seq_inv in Hsem as (y2 & Hd1 & Hsem).
  apply rep_cls_inv in Hd1 as (ds1 & Hn1 & Hr1 & Hf1); [|lia].
  apply RegexFacts.Sem_seq_inv in Hsem as (y3 & Hl & Hsem).
  apply rep_cls_inv in Hl as (ls & Hn2 & Hr2 & Hf2); [|lia].
  apply RegexFacts.Sem_seq_inv in Hsem as (y4 & Hd2 & Hend).
  apply rep_cls_inv in Hd2 as (ds2 & Hn3 & Hr3 & Hf3); [|lia].
  apply RegexFacts.Sem_eol_inv in Hend as [-> Hend].
  simpl in Hr1. rewrite Hend, app_nil_r in Hr3.
  exists ds1, ls, ds2. split; [now rewrite Hr1, Hr2, Hr3|].
  split; [lia|]. split.
  { now apply (Forall_class _ _ ds1 digit_class). }
  split; [lia|]. split.
  { now apply (Forall_class _ _ ls letter_class). }
  split; [lia|].
  now apply (Forall_class _ _ ds2 digit_class).
Qed.

Lemma standalone_accepts (s : string) :
  isDetailReference s -> OverlappingText.isStandaloneDetailReference s = true.
Proof.
  intros (ds1 & ls & ds2 & Hs & Hn1 & Hf1 & Hn2 & Hf2 & Hn3 & Hf3).
  unfold OverlappingText.isStandaloneDetailReference. rewrite RegexFacts.test_true.
  exists [], (chars s). eexists. split; [reflexivity|].
  unfold OverlappingText.standalonePattern, seqs. simpl length. rewrite Hs.
  eapply SemSeq; [apply SemBol; reflexivity|].
  eapply SemSeq.
  { apply (rep_cls_intro true [IDigit] true (ls ++ ds2) ds1 3 3 0 (prevOf None [])).
    - now apply (Forall_class _ _ ds1 digit_class).
    - lia. }
  eapply SemSeq.
  { apply (rep_cls_intro true [IRange "A" "Z"] true ds2 ls 1 2).
    - now apply (Forall_class _ _ ls letter_class).
    - lia. }
  eapply SemSeq.
  { rewrite <- (app_nil_r ds2) at 1.
    apply (rep_cls_intro true [IDigit] true [] ds2 3 3).
    - now apply (Forall_class _ _ ds2 digit_class).
    - lia. }
  apply SemEol. reflexivity.
Qed.

Lemma bubble_number_shape (s : string) :
  isBubbleNumber s = true <->
  exists ch, chars s = [ch] /\ (isDigit ch || isLetter ch) = true.
Proof.
  unfold isBubbleNumber. rewrite RegexFacts.test_true. split.
  - intros (skipped & remaining & y & Hsplit & Hsem).
    unfold bubblePattern, seqs in Hsem.
    apply RegexFacts.Sem_seq_inv in Hsem as (y1 & Hbol & Hsem).
    apply RegexFacts.Sem_bol_inv in Hbol as [-> Hpos]. simpl in Hpos.
    destruct skipped; [|discriminate]. simpl in Hsplit. subst remaining.
    apply RegexFacts.Sem_seq_inv in Hsem as (y2 & Hc & Hend).
    apply RegexFacts.Sem_cls_inv in Hc as (ch & tl & Hr & Hc & ->).
    apply RegexFacts.Sem_eol_inv in Hend as [-> Hend].
    simpl in Hr, Hend. subst tl. exists ch. split; [exact Hr|].
    rewrite <- alnum_class. exact Hc.
  - intros (ch & Hs & Hc).
    exists [], (chars s). eexists. split; [reflexivity|].
    unfold bubblePattern, seqs. simpl length. rewrite Hs.
    eapply SemSeq; [apply SemBol; reflexivity|].
    eapply SemSeq.
    + apply (SemCls true false _ (mkState 0 [ch] (prevOf None []) []) ch []);
        [reflexivity|]. rewrite <- alnum_class in Hc. exact Hc.
    + apply SemEol. reflexivity.
Qed.

(** The detail references that the overlapping-text analyzer takes for the
    anchor of a callout bubble are exactly the strings made of three digits,
    one or two letters of either case, and three digits; the bubble numbers
    are exactly the strings of one digit or letter. *)
Theorem detail_reference_shape (s : string) :
  (OverlappingText.isStandaloneDetailReference s = true <-> isDetailReference s)
  /\ (isBubbleNumber s = true
      <-> exists ch, chars s = [ch] /\ (isDigit ch || isLetter ch) = true).
Proof.
  split; [split; [apply standalone_shape|apply standalone_accepts]|].
  apply bubble_number_shape.
Qed.

End ReferenceFacts.

(** ** Overlaps of text boxes *)

Module OverlapFacts.

Import Pdf OverlappingText Overlap.

Lemma overlapOf_unfold (viewport : Viewport) (item1 item2 : TextItem) :
  overlapOf viewport item1 item2
  = if horizontalOverlap item1 item2 && verticalOverlap item1 item2
    then if Float.ltb (Float.ofZ 5) (overlapWidth item1 item2)
            && Float.ltb (Float.ofZ 5) (overlapHeight item1 item2)
         then Some {| TextOverlap.x :=
                        Float.floor
                          (Float.add (Float.mul (t0 (vtransform viewport))
                                                (overlapX item1 item2))
                                     (t4 (vtransform viewport)));
                      TextOverlap.y :=
                        Float.sub
                          (Float.floor
                             (Float.add (Float.mul (t3 (vtransform viewport))
                                                   (overlapY item1 item2))
                                        (t5 (vtransform viewport))))
                          (Float.ceil (Float.mul (overlapHeight item1 item2)
                                                 (scale viewport)));
                      TextOverlap.width :=
                        Float.ceil (Float.mul (overlapWidth item1 item2) (scale viewport));
                      TextOverlap.height :=
                        Float.ceil (Float.mul (overlapHeight item1 item2) (scale viewport));
                      TextOverlap.text1 := str item1;
                      TextOverlap.text2 := str item2;
                      TextOverlap.pixelCount :=
                        Float.ceil
                          (Float.mul
                             (Float.mul (Float.mul (overlapWidth item1 item2)
                                                   (overlapHeight item1 item2))
                                        (scale viewport))
                             (scale viewport));
                      TextOverlap.detectionMethod := "pdf-text";
                      TextOverlap.isCanvasCoords := true |}
         else None
    else None.
Proof. reflexivity. Qed.

Lemma overlapX_comm (a b : TextItem) : overlapX a b = overlapX b a.
Proof. apply FloatFacts.mathMax_comm. Qed.

Lemma overlapY_comm (a b : TextItem) : overlapY a b = overlapY b a.
Proof. apply FloatFacts.mathMax_comm. Qed.

Lemma overlapWidth_comm (a b : TextItem) : overlapWidth a b = overlapWidth b a.
Proof. unfold overlapWidth. now rewrite FloatFacts.mathMin_comm, overlapX_comm. Qed.

Lemma overlapHeight_comm (a b : TextItem) : overlapHeight a b = overlapHeight b a.
Proof. unfold overlapHeight. now rewrite FloatFacts.mathMin_comm, overlapY_comm. Qed.

Lemma horizontalOverlap_comm (a b : TextItem) :
  horizontalOverlap a b = horizontalOverlap b a.
Proof. unfold horizontalOverlap. now rewrite orb_comm. Qed.

Lemma verticalOverlap_comm (a b : TextItem) : verticalOverlap a b = verticalOverlap b a.
Proof. unfold verticalOverlap. now rewrite orb_comm. Qed.

(** The region reported for a pair does not depend on the order of the
    two items, the two texts apart. *)
Lemma overlapOf_comm (viewport : Viewport) (a b : TextItem) :
  geometry <$> overlapOf viewport a b = geometry <$> overlapOf viewport b a.
Proof.
  rewrite !overlapOf_unfold.
  rewrite (horizontalOverlap_comm b a), (verticalOverlap_comm b a),
    (overlapWidth_comm b a), (overlapHeight_comm b a),
    (overlapX_comm b a), (overlapY_comm b a).
  destruct (_ && _); [|reflexivity].
  destruct (_ && _); reflexivity.
Qed.

Lemma overlapOf_some (viewport : Viewport) (item1 item2 : TextItem) (r : TextOverlap.t) :
  overlapOf viewport item1 item2 = Some r ->
  horizontalOverlap item1 item2 = true /\ verticalOverlap item1 item2 = true
  /\ Float.ltb (Float.ofZ 5) (overlapWidth item1 item2) = true
  /\ Float.ltb (Float.ofZ 5) (overlapHeight item1 item2) = true
  /\ TextOverlap.width r = Float.ceil (Float.mul (overlapWidth item1 item2) (scale viewport))
  /\ TextOverlap.height r
     = Float.ceil (Float.mul (overlapHeight item1 item2) (scale viewport))
  /\ TextOverlap.text1 r = str item1 /\ TextOverlap.text2 r = str item2.
Proof.
  rewrite overlapOf_unfold.
  destruct (horizontalOverlap item1 item2); [|discriminate].
  destruct (verticalOverlap item1 item2); [|discriminate].
  destruct (Float.ltb (Float.ofZ 5) (overlapWidth item1 item2)); [|discriminate].
  destruct (Float.ltb (Float.ofZ 5) (overlapHeight item1 item2)); [|discriminate].
  intros [= <-]. repeat split; reflexivity.
Qed.

Lemma checkPair_length (viewport : Viewport) (bubbles : list Bubble)
    (item1 item2 : TextItem) :
  (length (checkPair viewport bubbles item1 item2) <= 1)%nat.
Proof.
  unfold checkPair. destruct (itemInsideBubble _ _); [simpl; lia|].
  destruct (isFalsePositiveOverlap _ _); [simpl; lia|].
  destruct (overlapOf _ _ _); simpl; lia.
Qed.

Lemma checkRow_length (viewport : Viewport) (bubbles : list Bubble) (item1 : TextItem)
    (items : list TextItem) :
  (length (flat_map (checkPair viewport bubbles item1) items) <= length items)%nat.
Proof.
  induction items as [|item2 items IH]; simpl; [lia|].
  rewrite length_app. pose proof (checkPair_length viewport bubbles item1 item2). lia.
Qed.

Lemma checkPairs_length (viewport : Viewport) (bubbles : list Bubble)
    (items : list TextItem) :
  (2 * length (checkPairs viewport bubbles items) <= length items * (length items - 1))%nat.
Proof.
  induction items as [|item1 items IH]; simpl; [lia|].
  rewrite length_app.
  assert (H : (length (if itemInsideBubble item1 bubbles then []
                       else flat_map (checkPair viewport bubbles item1) items)
               <= length items)%nat).
  { destruct (itemInsideBubble item1 bubbles); [simpl; lia|apply checkRow_length]. }
  rewrite Nat.sub_0_r. nia.
Qed.

(** Every reported region is pushed for two items of the list, the first
    before the second. *)
Lemma checkPairs_ordered (viewport : Viewport) (bubbles : list Bubble)
    (items : list TextItem) (r : TextOverlap.t) :
  In r (checkPairs viewport bubbles items) ->
  exists l1 item1 l2 item2 l3,
    items = l1 ++ item1 :: l2 ++ item2 :: l3
    /\ isFalsePositiveOverlap item1 item2 = false
    /\ overlapOf viewport item1 item2 = Some r.
Proof.
  induction items as [|item1 items IH]; simpl; [tauto|].
  intros H. apply in_app_or in H as [H|H].
  - destruct (itemInsideBubble item1 bubbles); [destruct H|].
    apply in_flat_map in H as (item2 & Hin & H).
    unfold checkPair in H.
    destruct (itemInsideBubble item2 bubbles); [destruct H|].
    destruct (isFalsePositiveOverlap item1 item2) eqn:Ef; [destruct H|].
    destruct (overlapOf viewport item1 item2) as [r'|] eqn:Eo; [|destruct H].
    destruct H as [->|[]].
    apply in_split in Hin as (l2 & l3 & ->).
    exists [], item1, l2, item2, l3. repeat split; auto.
  - destruct (IH H) as (l1 & i1 & l2 & i2 & l3 & -> & H1 & H2).
    exists (item1 :: l1), i1, l2, i2, l3. repeat split; auto.
Qed.

(** The overlaps that the PDF-text method reports for a page with [n]
    items that pass [isLikelyText]: at most [n (n - 1) / 2] regions, each
    for two such items, the first listed before the second, whose trimmed
    strings are not both of at most two characters and whose boxes
    intersect by more than 5 units in width and in height, the sums, the
    differences and the comparisons being those of the language on Number
    values; the region carries the strings of the two items and is as wide
    and as high as the intersection, scaled and rounded up. So two boxes
    7.8 wide at 0.5 and 50 wide at 3.3 are reported, the computed width of
    their intersection being 5.000000000000001. The region of a pair does
    not depend on the order of the two items, the two texts apart. *)
Theorem pdf_overlap_pairs (viewport : Viewport) (items : list TextItem) :
  let likely := List.filter isLikelyText items in
  let overlaps := detectOverlapsFromPDF (Some (mkPage (Some items) viewport)) in
  (2 * length overlaps <= length likely * (length likely - 1))%nat
  /\ (forall r, In r overlaps ->
        exists l1 item1 l2 item2 l3,
          likely = l1 ++ item1 :: l2 ++ item2 :: l3
          /\ (2 < String.length (Text.trim (str item1))
              \/ 2 < String.length (Text.trim (str item2)))%nat
          /\ horizontalOverlap item1 item2 = true
          /\ verticalOverlap item1 item2 = true
          /\ Float.ltb (Float.ofZ 5) (overlapWidth item1 item2) = true
          /\ Float.ltb (Float.ofZ 5) (overlapHeight item1 item2) = true
          /\ overlapOf viewport item1 item2 = Some r
          /\ TextOverlap.width r
             = Float.ceil (Float.mul (overlapWidth item1 item2) (scale viewport))
          /\ TextOverlap.height r
             = Float.ceil (Float.mul (overlapHeight item1 item2) (scale viewport))
          /\ TextOverlap.text1 r = str item1
          /\ TextOverlap.text2 r = str item2)
  /\ (forall a b : TextItem,
        geometry <$> overlapOf viewport a b = geometry <$> overlapOf viewport b a)
  /\ (Float.toString (overlapWidth edgeA edgeB) = "5.000000000000001"%string
      /\ exists r, detectOverlapsFromPDF (Some (mkPage (Some [edgeA; edgeB]) viewport))
                   = [r]).
Proof.
  intros likely overlaps. split; [|split; [|split]].
  - apply checkPairs_length.
  - intros r Hr. apply checkPairs_ordered in Hr
      as (l1 & item1 & l2 & item2 & l3 & Hl & Hf & Ho).
    exists l1, item1, l2, item2, l3. split; [exact Hl|].
    destruct (overlapOf_some _ _ _ _ Ho) as (H1 & H2 & H3 & H4 & H5 & H6 & H7 & H8).
    split.
    { unfold isFalsePositiveOverlap in Hf. apply andb_false_iff in Hf.
      destruct Hf as [Hf|Hf]; apply Nat.leb_gt in Hf; [left|right]; exact Hf. }
    repeat split; assumption.
  - apply overlapOf_comm.
  - split; [vm_compute; reflexivity|].
    assert (Hl : List.filter isLikelyText [edgeA; edgeB] = [edgeA; edgeB])
      by (vm_compute; reflexivity).
    unfold detectOverlapsFromPDF. cbn [textItems Pdf.viewport]. rewrite Hl.
    assert (Hb : findCalloutBubbles [edgeA; edgeB] = []) by (vm_compute; reflexivity).
    rewrite Hb. cbn [checkPairs itemInsideBubble isInsideBubble existsb flat_map checkPair app].
    assert (Hf : isFalsePositiveOverlap edgeA edgeB = false) by (vm_compute; reflexivity).
    rewrite Hf, overlapOf_unfold.
    assert (H1 : horizontalOverlap edgeA edgeB && verticalOverlap edgeA edgeB = true)
      by (vm_compute; reflexivity).
    assert (H2 : Float.ltb (Float.ofZ 5) (overlapWidth edgeA edgeB)
                 && Float.ltb (Float.ofZ 5) (overlapHeight edgeA edgeB) = true)
      by (vm_compute; reflexivity).
    rewrite H1, H2. eexists. reflexivity.
Qed.

End OverlapFacts.

(** ** Normalisation and comparison of values *)

Module ComparisonFacts.

Import GeotechPatterns.

Lemma abs_round_aux (s : bool) (m e : Z) (l : location) :
  SFabs (binary_round_aux Float.prec Float.emax s m e l)
  = binary_round_aux Float.prec Float.emax false m e l.
Proof.
  unfold binary_round_aux.
  destruct (shr_fexp _ _ m e l) as [mrs' e'].
  destruct (shr_fexp _ _ _ e' loc_Exact) as [mrs'' e''].
  destruct (shr_m mrs''); try reflexivity.
  destruct (e'' <=? _); reflexivity.
Qed.

Lemma abs_round (s : bool) (m : positive) (e : Z) :
  SFabs (binary_round Float.prec Float.emax s m e)
  = binary_round Float.prec Float.emax false m e.
Proof.
  unfold binary_round. destruct (shl_align _ _ _) as [mz ez]. apply abs_round_aux.
Qed.

Lemma abs_normalize_opp (m e : Z) (sz : bool) :
  SFabs (binary_normalize Float.prec Float.emax (- m) e sz)
  = SFabs (binary_normalize Float.prec Float.emax m e sz).
Proof.
  destruct m as [|p|p]; simpl; try reflexivity; now rewrite !abs_round.
Qed.

(** [Math.abs(a - b)] and [Math.abs(b - a)] are the same number. *)
Lemma abs_sub_comm (x y : Float.t) :
  Float.abs (Float.sub x y) = Float.abs (Float.sub y x).
Proof.
  unfold Float.abs, Float.sub.
  destruct x as [sx|sx| |sx mx ex], y as [sy|sy| |sy my ey]; try reflexivity;
    try (destruct sx, sy; reflexivity).
  unfold SFsub. rewrite (Z.min_comm ey ex).
  rewrite <- abs_normalize_opp. f_equal. f_equal. lia.
Qed.

Lemma abs_sub_diag (x : Float.t) :
  Float.abs (Float.sub x x)
  = match x with
    | S754_zero _ | S754_finite _ _ _ => S754_zero false
    | _ => S754_nan
    end.
Proof.
  unfold Float.abs, Float.sub.
  destruct x as [sx|sx| |sx mx ex]; try reflexivity; try (destruct sx; reflexivity).
  unfold SFsub. rewrite Z.sub_diag. reflexivity.
Qed.

(** The comparison of the verifier is symmetric: the expected and the found
    value may be exchanged, for every type. A value matches itself, unless
    the type is numeric and the value does not start with a finite number
    (it parses to [NaN] or to an infinity). *)
Theorem valuesMatch_relation :
  (forall (value1 value2 type : string),
      valuesMatch value1 value2 type = valuesMatch value2 value1 type)
  /\ (forall (value type : string),
      valuesMatch value value type
      = if String.eqb type "numeric"
        then match Float.parseFloat value with
             | S754_zero _ | S754_finite _ _ _ => true
             | _ => false
             end
        else true).
Proof.
  split.
  - intros value1 value2 type. unfold valuesMatch.
    destruct (String.eqb type "numeric").
    + now rewrite orb_comm, abs_sub_comm.
    + destruct (String.eqb type "category"); apply String.eqb_sym.
  - intros value type. unfold valuesMatch.
    destruct (String.eqb type "numeric").
    + rewrite abs_sub_diag. destruct (Float.parseFloat value); reflexivity.
    + destruct (String.eqb type "category"); apply String.eqb_refl.
Qed.

(** For a type other than numeric, normalising a normalised value changes
    nothing, and two values match exactly when they have the same
    normalisation. *)
Theorem normalize_idempotent (type : string) :
  String.eqb type "numeric" = false ->
  (forall value,
      normalizeValue (normalizeValue value type) type = normalizeValue value type)
  /\ (forall value1 value2,
        valuesMatch value1 value2 type = true
        <-> normalizeValue value1 type = normalizeValue value2 type).
Proof.
  intros Ht. unfold normalizeValue, valuesMatch. rewrite Ht.
  destruct (String.eqb type "category"); split.
  - intros value.
    now rewrite TextFacts.trim_upper, TextFacts.trim_trim, <- TextFacts.trim_upper,
      TextFacts.upper_idem.
  - intros value1 value2. apply String.eqb_eq.
  - intros value. apply TextFacts.trim_trim.
  - intros value1 value2. apply String.eqb_eq.
Qed.

Lemma normalize_idempotent_witness :
  String.eqb "category" "numeric" = false
  /\ normalizeValue (normalizeValue " d " "category") "category"
     = normalizeValue " d " "category".
Proof.
  split; [reflexivity|].
  exact (proj1 (normalize_idempotent "category" eq_refl) " d "%string).
Defined.

End ComparisonFacts.

(** ** What the extractor returns *)

Module ExtractionFacts.

Import Regex GeotechPatterns GeotechExtractor.

(** The confidence of a match is one of four levels. *)
Lemma confidence_cases (matchedText label : string) :
  let named :=
    Text.includes (Text.toLowerCase matchedText) (Text.toLowerCase label) in
  let standard := Text.includes matchedText "=" || Text.includes matchedText ":" in
  calculateConfidence matchedText label
  = Float.ofDecimal false
      (if named then if standard then 10 else 8 else if standard then 7 else 5) (-1).
Proof.
  intros named standard. unfold calculateConfidence. fold named. fold standard.
  destruct named, standard; vm_compute; reflexivity.
Qed.

Lemma confidence_range (matchedText label : string) :
  Float.leb (Float.ofDecimal false 5 (-1)) (calculateConfidence matchedText label) = true
  /\ Float.leb (calculateConfidence matchedText label) (Float.ofDecimal false 1 0) = true.
Proof.
  rewrite confidence_cases.
  destruct (Text.includes _ _), (_ || _); split; vm_compute; reflexivity.
Qed.

Lemma accepted_category (config : Config.t) (m : Match) (valid : list string) :
  accepted config m = true ->
  Config.type config = "category"%string ->
  Config.validValues config = Some valid ->
  In (normalizeValue (default ""%string (group1 m)) (Config.type config)) valid.
Proof.
  unfold accepted. destruct (group1 m) as [raw|]; [|discriminate].
  intros H Ht Hv. rewrite Ht, Hv in H. rewrite Ht. simpl in H. simpl.
  apply andb_true_iff in H as [_ H]. apply existsb_exists in H as (v & Hin & E).
  apply String.eqb_eq in E. unfold normalizeValue. simpl. now rewrite E.
Qed.

Lemma extractOne_cases (config : Config.t) (pages : list TextPage.t) :
  (extractOne config pages = notFound config
   /\ forall pattern page m,
        In pattern (Config.patterns config) -> In page pages ->
        In m (matchAll true pattern (TextPage.fullText page)) ->
        accepted config m = false)
  \/ exists pattern page m,
       In pattern (Config.patterns config) /\ In page pages
       /\ In m (matchAll true pattern (TextPage.fullText page))
       /\ accepted config m = true
       /\ extractOne config pages = found config page m.
Proof.
  unfold extractOne.
  destruct (searchPatterns config (Config.patterns config) pages) as [e|] eqn:E.
  - right.
    apply GeotechFacts.searchPatterns_some in E as (ps1 & pattern & ps2 & Hps & _ & E).
    apply GeotechFacts.searchPages_some in E as (pg1 & page & pg2 & m & Hpg & _ & Hb & ->).
    apply GeotechFacts.bestMatch_some in Hb as (l1 & l2 & Hms & Hacc & _).
    exists pattern, page, m. rewrite Hps, Hpg, Hms.
    repeat split; auto; apply in_or_app; right; now left.
  - left. split; [reflexivity|]. intros pattern page m Hp Hpg Hm.
    rewrite GeotechFacts.searchPatterns_none in E. specialize (E pattern Hp).
    rewrite GeotechFacts.searchPages_none in E. now apply (E page m).
Qed.

(** The object returned by [extractSeismicValues]: it has the eleven keys
    of the pattern table, in the order of the table, whatever the pages
    are. An entry carries the label, full name and type of its parameter;
    either nothing was found and its value and page number are [null] and
    its confidence is 0, or its value is not [null], its page number is
    that of one of the pages, and its confidence lies between 0.5 and 1.
    The value found for a category with a list of valid values (site
    class, risk category, seismic design category) is one of these
    values. Without pages nothing is found. *)
Theorem extraction_shape (pages : list TextPage.t) :
  map fst (extractSeismicValues pages) = map fst SEISMIC_PATTERNS
  /\ (forall key e,
        In (key, e) (extractSeismicValues pages) ->
        exists config,
          In (key, config) SEISMIC_PATTERNS
          /\ Extracted.label e = Config.label config
          /\ Extracted.fullName e = Config.fullName config
          /\ Extracted.type e = Config.type config
          /\ ((Extracted.value e = None /\ Extracted.pageNumber e = None
               /\ Extracted.confidence e = S754_zero false)
              \/ (exists v page,
                    Extracted.value e = Some v
                    /\ In page pages
                    /\ Extracted.pageNumber e = Some (TextPage.pageNumber page)
                    /\ Float.leb (Float.ofDecimal false 5 (-1)) (Extracted.confidence e)
                       = true
                    /\ Float.leb (Extracted.confidence e) (Float.ofDecimal false 1 0)
                       = true
                    /\ forall valid,
                         Config.type config = "category"%string ->
                         Config.validValues config = Some valid -> In v valid)))
  /\ (forall key e,
        In (key, e) (extractSeismicValues []) ->
        Extracted.value e = None /\ Extracted.pageNumber e = None).
Proof.
  split; [|split].
  - unfold extractSeismicValues. rewrite map_map. reflexivity.
  - intros key e Hin. unfold extractSeismicValues in Hin.
    apply in_map_iff in Hin as ([key' config] & [= <- <-] & Hin).
    exists config. split; [exact Hin|]. simpl.
    destruct (extractOne_cases config pages)
      as [[-> _]|(pattern & page & m & _ & Hpg & _ & Hacc & ->)].
    + repeat split. left. repeat split.
    + repeat split. right.
      exists (normalizeValue (default ""%string (group1 m)) (Config.type config)), page.
      split; [reflexivity|]. split; [exact Hpg|]. split; [reflexivity|].
      destruct (confidence_range (text m) (Config.label config)) as [H1 H2].
      split; [exact H1|]. split; [exact H2|].
      intros valid Ht Hv. now apply accepted_category.
  - intros key e Hin. unfold extractSeismicValues in Hin.
    apply in_map_iff in Hin as ([key' config] & [= <- <-] & Hin).
    simpl. destruct (extractOne_cases config []) as [[-> _]|(_ & page & _ & _ & [] & _)].
    split; reflexivity.
Qed.

End ExtractionFacts.

(** ** The notes section and what the verifier makes of it *)

Module NotesFacts.

Import Regex GeotechPatterns GeotechExtractor GeotechVerification Notes.

Lemma head_omap_some {A B : Type} (f : A -> option B) (l : list A) (y : B) :
  head (omap f l) = Some y ->
  exists l1 x l2, l = l1 ++ x :: l2 /\ f x = Some y /\ forall x', In x' l1 -> f x' = None.
Proof.
  induction l as [|x l IH]; simpl; [discriminate|].
  destruct (f x) as [y'|] eqn:E; simpl.
  - intros [= <-]. exists [], x, l. repeat split; auto. intros x' [].
  - intros H. destruct (IH H) as (l1 & x0 & l2 & -> & Hx & Hl).
    exists (x :: l1), x0, l2. repeat split; auto.
    intros x' [<-|Hin]; auto.
Qed.

Lemma head_omap_none {A B : Type} (f : A -> option B) (l : list A) :
  head (omap f l) = None <-> forall x, In x l -> f x = None.
Proof.
  induction l as [|x l IH]; simpl.
  - split; auto. intros _ x [].
  - destruct (f x) as [y|] eqn:E; simpl.
    + split; [discriminate|]. intros H. specialize (H x (or_introl eq_refl)). congruence.
    + rewrite IH. split.
      * intros H x' [<-|Hin]; auto.
      * intros H x' Hin. apply H. now right.
Qed.

Lemma matchGlobal_test (ic : bool) (r : Regex.t) (s : string) :
  matchGlobal ic r s = None <-> test ic r s = false.
Proof.
  unfold matchGlobal, matchAll, test. rewrite Nat.add_1_r. simpl.
  destruct (execFrom ic r (Text.chars s) 0); split; congruence.
Qed.

Lemma headingOn_spec (page : TextPage.t) :
  match headingOn page with
  | Some section =>
      hasHeading page /\ section = mkNotes (TextPage.pageNumber page) "" None false
  | None => ~ hasHeading page
  end.
Proof.
  unfold headingOn, hasHeading.
  destruct (head (omap _ headingPatterns)) as [ms|] eqn:E;
    cbn [fmap option_fmap option_map].
  - split; [|reflexivity].
    apply head_omap_some in E as (l1 & pattern & l2 & Hl & Hm & _).
    exists pattern. split; [rewrite Hl; apply in_or_app; right; now left|].
    destruct (test true pattern (TextPage.fullText page)) eqn:Et; [reflexivity|].
    apply matchGlobal_test in Et. congruence.
  - intros (pattern & Hin & Ht).
    rewrite head_omap_none in E. specialize (E pattern Hin).
    apply matchGlobal_test in E. congruence.
Qed.

(** The section that [findGeneralNotesSection] returns. *)
Lemma findGeneralNotesSection_cases (pages : list TextPage.t) :
  (pages = [] /\ findGeneralNotesSection pages = None)
  \/ (exists first others,
        pages = first :: others
        /\ (forall page, In page pages -> ~ hasHeading page)
        /\ findGeneralNotesSection pages
           = Some (mkNotes (TextPage.pageNumber first) (TextPage.fullText first)
                           (Some 0%nat) true))
  \/ (exists before page after,
        pages = before ++ page :: after
        /\ hasHeading page
        /\ (forall earlier, In earlier before -> ~ hasHeading earlier)
        /\ findGeneralNotesSection pages
           = Some (mkNotes (TextPage.pageNumber page) "" None false)).
Proof.
  unfold findGeneralNotesSection.
  destruct (head (omap headingOn pages)) as [section|] eqn:E.
  - right. right.
    apply head_omap_some in E as (before & page & after & Hl & Hs & Hb).
    exists before, page, after. split; [exact Hl|].
    pose proof (headingOn_spec page) as Hp. rewrite Hs in Hp. destruct Hp as [Hh ->].
    split; [exact Hh|]. split; [|reflexivity].
    intros earlier Hin. pose proof (headingOn_spec earlier) as He.
    now rewrite (Hb earlier Hin) in He.
  - rewrite head_omap_none in E. destruct pages as [|first others].
    + left. split; reflexivity.
    + right. left. exists first, others. split; [reflexivity|]. split; [|reflexivity].
      intros page Hin. pose proof (headingOn_spec page) as Hp.
      now rewrite (E page Hin) in Hp.
Qed.

(** No pattern of the table matches in the empty string. *)
Lemma table_blank (key : string) (config : Config.t) :
  lookup key = Some config -> firstInNotes (Config.patterns config) "" = None.
Proof.
  intros Hl.
  assert (Hall : forallb (fun kc => match firstInNotes (Config.patterns (snd kc)) "" with
                                    | None => true
                                    | Some _ => false
                                    end) SEISMIC_PATTERNS = true)
    by (vm_compute; reflexivity).
  rewrite forallb_forall in Hall.
  unfold lookup in Hl. destruct (List.find _ SEISMIC_PATTERNS) as [[k c]|] eqn:E; [|discriminate].
  injection Hl as <-. apply find_some in E as [Hin _].
  specialize (Hall (k, c) Hin). simpl in Hall.
  destruct (firstInNotes (Config.patterns c) ""); [discriminate|reflexivity].
Qed.

(** When no expected value is found in the notes, every one that is not
    empty is reported missing. *)
Lemma compareLoop_missing (notesText : string) :
  forall entries results,
    (forall key e, In (key, e) entries ->
       exists config, lookup key = Some config
                      /\ firstInNotes (Config.patterns config) notesText = None) ->
    compareLoop notesText results entries
    = Ok (mkComparison (GeotechExtractor.matches results)
                       (GeotechExtractor.mismatches results)
                       (GeotechExtractor.missing results ++ allMissing entries)).
Proof.
  induction entries as [|[key expected] others IH]; intros results H.
  - simpl. unfold allMissing. simpl. rewrite app_nil_r. now destruct results.
  - destruct (H key expected (or_introl eq_refl)) as (config & Hl & Hn).
    simpl. unfold compareOne, allMissing. simpl.
    destruct (falsy (Extracted.value expected)) eqn:Ef; simpl.
    + apply IH. intros k e Hin. apply (H k e). now right.
    + rewrite Hl, Hn. rewrite (IH _ (fun k e Hin => H k e (or_intror Hin))).
      simpl. unfold allMissing, missingEntry. simpl. now rewrite <- app_assoc.
Qed.

Lemma extracted_blank (reportPages : list TextPage.t) :
  compareValuesInNotes "" (extractSeismicValues reportPages)
  = Ok (mkComparison [] [] (allMissing (extractSeismicValues reportPages))).
Proof.
  unfold compareValuesInNotes. rewrite compareLoop_missing; [reflexivity|].
  intros key e Hin. apply VerificationFacts.extracted_keys in Hin.
  destruct (lookup key) as [config|] eqn:El; [|congruence].
  exists config. split; [reflexivity|]. now apply (table_blank key).
Qed.

(** The section of the drawing in which the verifier looks for the values.
    Without pages there is none. When no heading pattern matches on any
    page, it is the whole text of the first page, marked as a fallback.
    Otherwise it belongs to the first page on which a heading pattern
    matches, and its text is empty: the heading patterns carry the [g]
    flag, so the result of [match] has no [index], and the text is cut from
    [undefined] to [NaN]. *)
Theorem notes_section (pages : list TextPage.t) :
  (pages = [] /\ findGeneralNotesSection pages = None)
  \/ (exists first others,
        pages = first :: others
        /\ (forall page, In page pages -> ~ hasHeading page)
        /\ findGeneralNotesSection pages
           = Some (mkNotes (TextPage.pageNumber first) (TextPage.fullText first)
                           (Some 0%nat) true))
  \/ (exists before page after,
        pages = before ++ page :: after
        /\ hasHeading page
        /\ (forall earlier, In earlier before -> ~ hasHeading earlier)
        /\ findGeneralNotesSection pages
           = Some (mkNotes (TextPage.pageNumber page) "" None false)).
Proof. apply findGeneralNotesSection_cases. Qed.

(** When a heading pattern matches on some page of the drawing, the
    verifier reports every value that the report yields as missing,
    whatever the notes say: the section text is empty, so no pattern
    matches in it. The count is the number of extracted values,
    [onProgress] is called once with it, and the page number is that of the
    first page with a heading. *)
Theorem heading_hides_notes (reportPages pages : list TextPage.t) (onProgress : bool) :
  (exists page, In page pages /\ hasHeading page) ->
  let values := extractSeismicValues reportPages in
  let missing := allMissing values in
  exists before page after,
    pages = before ++ page :: after
    /\ hasHeading page
    /\ (forall earlier, In earlier before -> ~ hasHeading earlier)
    /\ detectGeotechMismatches (Some (mkData (Some values))) (Some pages) onProgress
       = mkRun
           (Resolved
              (mkVerification
                 (0 <? length missing)%nat (length missing) [] [] missing
                 (Some (TextPage.pageNumber page))
                 (if (0 <? length missing)%nat
                  then "Found " ++ showNat 0 ++ " mismatch(es) and "
                       ++ showNat (length missing) ++ " missing value(s)"
                  else "All " ++ showNat 0 ++ " seismic value(s) verified successfully")%string))
           (report onProgress (length missing)).
Proof.
  intros (page0 & Hin0 & Hh0) values missing.
  destruct (findGeneralNotesSection_cases pages)
    as [[-> _]|[(first & others & _ & Hno & _)|(before & page & after & Hl & Hh & Hb & Hf)]].
  - destruct Hin0.
  - destruct (Hno page0 Hin0 Hh0).
  - exists before, page, after. split; [exact Hl|]. split; [exact Hh|]. split; [exact Hb|].
    unfold detectGeotechMismatches. cbn [extractedValues].
    assert (Hne : pages <> []) by (rewrite Hl; now destruct before).
    destruct pages as [|p0 ps]; [congruence|].
    unfold verify. rewrite Hf. cbn [notesText GeotechExtractor.notesPageNumber].
    unfold values. rewrite extracted_blank.
    cbn [GeotechExtractor.matches GeotechExtractor.mismatches GeotechExtractor.missing].
    reflexivity.
Qed.

Lemma heading_hides_notes_witness :
  let reportPages := [TextPage.mk 1 (Some []) "SDS = 0.77"] in
  let pages := [TextPage.mk 1 (Some []) "GENERAL NOTES SDS = 0.77"] in
  (exists page, In page pages /\ hasHeading page)
  /\ exists before page after,
       pages = before ++ page :: after
       /\ hasHeading page
       /\ (forall earlier, In earlier before -> ~ hasHeading earlier)
       /\ detectGeotechMismatches
            (Some (mkData (Some (extractSeismicValues reportPages)))) (Some pages) true
          = mkRun
              (Resolved
                 (mkVerification
                    (0 <? length (allMissing (extractSeismicValues reportPages)))%nat
                    (length (allMissing (extractSeismicValues reportPages))) [] []
                    (allMissing (extractSeismicValues reportPages))
                    (Some (TextPage.pageNumber page))
                    (if (0 <? length (allMissing (extractSeismicValues reportPages)))%nat
                     then "Found " ++ showNat 0 ++ " mismatch(es) and "
                          ++ showNat (length (allMissing (extractSeismicValues reportPages)))
                          ++ " missing value(s)"
                     else "All " ++ showNat 0
                          ++ " seismic value(s) verified successfully")%string))
              (report true (length (allMissing (extractSeismicValues reportPages)))).
Proof.
  intros reportPages pages.
  assert (H : exists page, In page pages /\ hasHeading page).
  { exists (TextPage.mk 1 (Some []) "GENERAL NOTES SDS = 0.77"). split; [now left|].
    exists (seqs [lit "GENERAL"; GeotechPatterns.ws1; lit "NOTE"; opt (Chr "S")]).
    split; [right; right; now left|vm_compute; reflexivity]. }
  split; [exact H|].
  exact (heading_hides_notes reportPages pages true H).
Defined.

End NotesFacts.

(** ** Positions of the parameters on the drawing *)

Module PositionFacts.

Import GeotechVerification Positions.

Lemma findTerm_some (searchTerm : string) :
  forall textItems position,
    findTerm searchTerm textItems = Some position ->
    exists before item after,
      textItems = before ++ item :: after
      /\ mentions item searchTerm = true
      /\ (forall earlier, In earlier before -> mentions earlier searchTerm = false)
      /\ position = positionAt item after.
Proof.
  induction textItems as [|item others IH]; intros position; simpl; [discriminate|].
  fold (mentions item searchTerm). destruct (mentions item searchTerm) eqn:E.
  - intros [= <-]. exists [], item, others. repeat split; auto. intros earlier [].
  - intros H. destruct (IH position H) as (before & item' & after & -> & Hm & Hb & ->).
    exists (item :: before), item', after. repeat split; auto.
    intros earlier [<-|Hin]; auto.
Qed.

Lemma findTerm_none (searchTerm : string) :
  forall textItems,
    findTerm searchTerm textItems = None <->
    forall item, In item textItems -> mentions item searchTerm = false.
Proof.
  induction textItems as [|item others IH]; simpl.
  - split; auto. intros _ item [].
  - fold (mentions item searchTerm). destruct (mentions item searchTerm) eqn:E.
    + split; [discriminate|]. intros H. specialize (H item (or_introl eq_refl)). congruence.
    + rewrite IH. split.
      * intros H item' [<-|Hin]; auto.
      * intros H item' Hin. apply H. now right.
Qed.

Lemma positionAt_box (item : TextPage.Item) (next : list TextPage.Item) :
  let position := positionAt item next in
  px position = Float.orZero (TextPage.x item)
  /\ py position = Float.orZero (TextPage.y item)
  /\ (Float.isNaN (pwidth position) = true
      \/ Float.leb (Float.ofZ 100) (pwidth position) = true)
  /\ (Float.isNaN (pheight position) = true
      \/ Float.leb (Float.ofZ 20) (pheight position) = true).
Proof.
  unfold positionAt. cbv zeta.
  destruct (fold_left widen _ _) as [maxX combinedHeight].
  cbn [px py pwidth pheight].
  split; [reflexivity|]. split; [reflexivity|].
  split; apply FloatFacts.mathMax_ge.
Qed.

(** Where the verifier draws a parameter. The search terms of the parameter
    are tried in order; for the first term that some item mentions (case
    apart), the first such item gives the corner of the box, a coordinate
    that is [NaN] or zero being taken for 0. The width of the box is [NaN]
    or at least 100, and its height is [NaN] or at least 20. The width is
    the difference between the largest right edge and the left edge of the
    item, as the language computes it, which can be less than the width of
    the item: for an item 127.4 wide at 0.7 it is 127.39999999999999.
    There is no position when no item mentions any term, in particular for
    a key that is not in the table. *)
Theorem parameter_position (textItems : list TextPage.Item) (parameterKey : string) :
  match findParameterPosition textItems parameterKey with
  | Some position =>
      exists terms1 searchTerm terms2 before item after,
        searchTerms parameterKey = terms1 ++ searchTerm :: terms2
        /\ (forall earlierTerm other,
              In earlierTerm terms1 -> In other textItems ->
              mentions other earlierTerm = false)
        /\ textItems = before ++ item :: after
        /\ mentions item searchTerm = true
        /\ (forall earlier, In earlier before -> mentions earlier searchTerm = false)
        /\ position = positionAt item after
        /\ px position = Float.orZero (TextPage.x item)
        /\ py position = Float.orZero (TextPage.y item)
        /\ (Float.isNaN (pwidth position) = true
            \/ Float.leb (Float.ofZ 100) (pwidth position) = true)
        /\ (Float.isNaN (pheight position) = true
            \/ Float.leb (Float.ofZ 20) (pheight position) = true)
  | None =>
      forall searchTerm item,
        In searchTerm (searchTerms parameterKey) -> In item textItems ->
        mentions item searchTerm = false
  end
  /\ Float.toString (pwidth (positionAt wideLabel [])) = "127.39999999999999"%string.
Proof.
  split; [|vm_compute; reflexivity].
  unfold findParameterPosition.
  destruct (head (omap _ (searchTerms parameterKey))) as [position|] eqn:E.
  - apply NotesFacts.head_omap_some in E as (terms1 & searchTerm & terms2 & Ht & Hf & Hn).
    apply findTerm_some in Hf as (before & item & after & Hl & Hm & Hb & ->).
    exists terms1, searchTerm, terms2, before, item, after.
    split; [exact Ht|]. split.
    { intros earlierTerm other Hin Ho. specialize (Hn earlierTerm Hin).
      rewrite findTerm_none in Hn. now apply Hn. }
    split; [exact Hl|]. split; [exact Hm|]. split; [exact Hb|].
    split; [reflexivity|]. apply positionAt_box.
  - rewrite NotesFacts.head_omap_none in E. intros searchTerm item Ht Hi.
    specialize (E searchTerm Ht). rewrite findTerm_none in E. now apply E.
Qed.

End PositionFacts.

(** ** The order of the matches of a pattern *)

Module MatchOrderFacts.

Import Regex Text MatchOrder.

Lemma length_str (l : list ascii) : String.length (str l) = length l.
Proof. unfold str. induction l as [|c l IH]; simpl; [reflexivity|]. now rewrite IH. Qed.

Lemma length_chars (s : string) : length (chars s) = String.length s.
Proof. rewrite <- (TextFacts.str_chars s) at 2. now rewrite length_str. Qed.

(** A match found from [lastIndex] starts there or later, ends within the
    input, and its text is the input between its start and its end. *)
Lemma execFrom_index (ic : bool) (r : Regex.t) (input : list ascii) (lastIndex : nat)
    (m : Match) :
  execFrom ic r input lastIndex = Some m ->
  (lastIndex <= index m)%nat /\ (finish m <= length input)%nat
  /\ text m = str (take (String.length (text m)) (drop (index m) input)).
Proof.
  unfold execFrom. destruct (Nat.ltb_spec (length input) lastIndex) as [|Hle]; [discriminate|].
  intros H. apply RegexFacts.search_sound in H as (skipped & remaining & y & Hsplit & Hs & ->).
  apply RegexFacts.Sem_rest in Hs as [H1 H2]. simpl in H1, H2.
  assert (Hlen : (length input = lastIndex + length skipped + length remaining)%nat).
  { assert (E : length (drop lastIndex input) = length (skipped ++ remaining))
      by now rewrite Hsplit.
    rewrite length_drop, length_app in E. lia. }
  assert (Hdrop : drop (lastIndex + length skipped) input = remaining).
  { rewrite <- drop_drop, Hsplit. now rewrite drop_app_length. }
  unfold finish, toMatch, slice. cbn [index text]. rewrite Hdrop.
  rewrite length_str, length_take.
  split; [lia|]. split; [lia|].
  f_equal. f_equal. lia.
Qed.

Lemma matchAllFrom_sorted (ic : bool) (r : Regex.t) (input : list ascii) :
  forall fuel lastIndex,
    Forall (fun m => (lastIndex <= index m)%nat /\ (finish m <= length input)%nat)
           (matchAllFrom fuel ic r input lastIndex)
    /\ inOrder (matchAllFrom fuel ic r input lastIndex).
Proof.
  induction fuel as [|fuel IH]; intros lastIndex; simpl; [split; constructor|].
  destruct (execFrom ic r input lastIndex) as [m|] eqn:E; [|split; constructor].
  apply execFrom_index in E as (H1 & H2 & _). fold matchAllFrom.
  set (next := if (String.length (text m) =? 0)%nat
               then S (index m + String.length (text m))
               else (index m + String.length (text m))%nat).
  destruct (IH next) as [Hf Hs].
  assert (Hnext : (index m < next)%nat /\ (finish m <= next)%nat).
  { unfold next, finish. destruct (Nat.eqb_spec (String.length (text m)) 0); lia. }
  split.
  - constructor; [split; assumption|].
    eapply Forall_impl; [exact Hf|]. intros m' [H3 H4]. split; [lia|exact H4].
  - split; [|exact Hs].
    eapply Forall_impl; [exact Hf|]. intros m' [H3 H4]. unfold before. lia.
Qed.

(** [s.length + 1] searches find every match: more searches add none. *)
Lemma matchAllFrom_enough (ic : bool) (r : Regex.t) (input : list ascii) :
  forall fuel lastIndex more,
    (length input + 1 <= fuel + lastIndex)%nat ->
    matchAllFrom (fuel + more) ic r input lastIndex = matchAllFrom fuel ic r input lastIndex.
Proof.
  induction fuel as [|fuel IH]; intros lastIndex more Hf.
  - destruct more as [|more]; [reflexivity|]. simpl. unfold execFrom.
    destruct (Nat.ltb_spec (length input) lastIndex); [reflexivity|lia].
  - simpl. destruct (execFrom ic r input lastIndex) as [m|] eqn:E; [|reflexivity].
    f_equal. apply IH. apply execFrom_index in E as (H1 & _).
    destruct (Nat.eqb_spec (String.length (text m)) 0); lia.
Qed.

Lemma matchAllAt_sorted (ic : bool) (r : Regex.t) (s : string) (lastIndex : nat) :
  Forall (fun m => (lastIndex <= index m)%nat
                   /\ (finish m <= String.length s)%nat
                   /\ text m = substring s (index m) (finish m))
         (matchAllAt ic r s lastIndex)
  /\ inOrder (matchAllAt ic r s lastIndex).
Proof.
  unfold matchAllAt.
  destruct (matchAllFrom_sorted ic r (chars s) (String.length s + 1) lastIndex) as [Hf Hs].
  split; [|exact Hs].
  apply List.Forall_forall. intros m Hin.
  rewrite List.Forall_forall in Hf. destruct (Hf m Hin) as [H1 H2].
  rewrite length_chars in H2. split; [exact H1|]. split; [exact H2|].
  apply RegexFacts.matchAllFrom_In in Hin as [j Hj].
  apply execFrom_index in Hj as (_ & _ & Ht).
  unfold substring, finish in *.
  replace (Nat.min (index m) (String.length s)) with (index m) by lia.
  replace (Nat.min (index m + String.length (text m)) (String.length s))
    with (index m + String.length (text m))%nat by lia.
  replace (Nat.min (index m) (index m + String.length (text m))) with (index m) by lia.
  replace (Nat.max (index m) (index m + String.length (text m)) - index m)%nat
    with (String.length (text m)) by lia.
  exact Ht.
Qed.

Lemma matchAll_sorted (ic : bool) (r : Regex.t) (s : string) :
  Forall (fun m => (finish m <= String.length s)%nat
                   /\ text m = substring s (index m) (finish m))
         (matchAll ic r s)
  /\ inOrder (matchAll ic r s).
Proof.
  unfold matchAll.
  destruct (matchAllFrom_sorted ic r (chars s) (String.length s + 1) 0) as [Hf Hs].
  split; [|exact Hs].
  apply List.Forall_forall. intros m Hin.
  rewrite List.Forall_forall in Hf. destruct (Hf m Hin) as [_ H2].
  rewrite length_chars in H2. split; [exact H2|].
  apply RegexFacts.matchAllFrom_In in Hin as [j Hj].
  apply execFrom_index in Hj as (_ & _ & Ht).
  unfold substring, finish in *.
  replace (Nat.min (index m) (String.length s)) with (index m) by lia.
  replace (Nat.min (index m + String.length (text m)) (String.length s))
    with (index m + String.length (text m))%nat by lia.
  replace (Nat.min (index m) (index m + String.length (text m))) with (index m) by lia.
  replace (Nat.max (index m) (index m + String.length (text m)) - index m)%nat
    with (String.length (text m)) by lia.
  exact Ht.
Qed.

End MatchOrderFacts.

(** ** Which match the extractor keeps *)

Module LeftmostFacts.

Import Regex GeotechExtractor MatchOrder.

Lemma inOrder_later (l1 l2 : list Match) (m : Match) :
  inOrder (l1 ++ m :: l2) -> Forall (before m) l2.
Proof.
  induction l1 as [|m1 l1 IH]; simpl; intros [H1 H2]; [exact H1|]. now apply IH.
Qed.

(** Among the matches of a pattern on a page, the extractor keeps the
    leftmost of those that pass validation with the highest priority: every
    other valid match has a lower priority, or the same priority and a
    start further right. It keeps none only when no match is valid. *)
Theorem best_match_leftmost (config : Config.t) (fullText : string) (pattern : Regex.t) :
  match bestMatch config fullText (matchAll true pattern fullText) with
  | Some m =>
      In m (matchAll true pattern fullText)
      /\ accepted config m = true
      /\ forall m',
           In m' (matchAll true pattern fullText) -> accepted config m' = true ->
           m' = m
           \/ priority fullText m' < priority fullText m
           \/ (priority fullText m' = priority fullText m /\ (index m < index m')%nat)
  | None =>
      forall m', In m' (matchAll true pattern fullText) -> accepted config m' = false
  end.
Proof.
  destruct (bestMatch config fullText (matchAll true pattern fullText)) as [m|] eqn:E.
  - apply GeotechFacts.bestMatch_some in E as (l1 & l2 & Hms & Hacc & H1 & H2).
    split; [rewrite Hms; apply in_or_app; right; now left|]. split; [exact Hacc|].
    intros m' Hin Ha. rewrite Hms in Hin.
    apply in_app_or in Hin as [Hin|[<-|Hin]].
    + right. left. now apply H1.
    + now left.
    + right. specialize (H2 m' Hin Ha).
      destruct (MatchOrderFacts.matchAll_sorted true pattern fullText) as [_ Hs].
      rewrite Hms in Hs. apply inOrder_later in Hs.
      rewrite List.Forall_forall in Hs. destruct (Hs m' Hin) as [Hlt _].
      destruct (Z.eq_dec (priority fullText m') (priority fullText m)) as [Heq|Hne].
      * right. split; assumption.
      * left. lia.
  - apply (proj1 (GeotechFacts.bestMatch_none config fullText _) E).
Qed.

End LeftmostFacts.

(** ** Text of a PDF *)

Module PdfTextFacts.

Import PdfText.

Lemma chars_app (s1 s2 : string) :
  Text.chars (s1 ++ s2) = Text.chars s1 ++ Text.chars s2.
Proof. unfold Text.chars. induction s1 as [|c s1 IH]; simpl; [reflexivity|]. now rewrite IH. Qed.

Lemma startsWith_app (p l : list ascii) : Text.startsWith p (p ++ l) = true.
Proof.
  induction p as [|c p IH]; simpl; [reflexivity|].
  rewrite IH. now rewrite bool_decide_eq_true_2.
Qed.

Lemma includesL_unfold (p l : list ascii) :
  Text.includesL p l
  = Text.startsWith p l || match l with [] => false | _ :: tl => Text.includesL p tl end.
Proof. destruct l; reflexivity. Qed.

Lemma includesL_app (p a b : list ascii) : Text.includesL p (a ++ p ++ b) = true.
Proof.
  induction a as [|c a IH].
  - change ([] ++ p ++ b) with (p ++ b). rewrite includesL_unfold, startsWith_app.
    reflexivity.
  - change ((c :: a) ++ p ++ b) with (c :: (a ++ p ++ b)).
    rewrite includesL_unfold, IH. apply orb_true_r.
Qed.


Lemma join_In (sep s : string) (l : list string) :
  In s l -> exists a b, Text.chars (join sep l) = a ++ Text.chars s ++ b.
Proof.
  induction l as [|t l IH]; [intros []|].
  intros [->|Hin].
  - exists []. destruct l as [|t' l].
    + exists []. simpl. now rewrite app_nil_r.
    + exists (Text.chars (sep ++ join sep (t' :: l))).
      change (join sep (s :: t' :: l)) with (s ++ sep ++ join sep (t' :: l))%string.
      now rewrite chars_app.
  - destruct (IH Hin) as (a & b & E). destruct l as [|t' l]; [destruct Hin|].
    exists (Text.chars t ++ Text.chars sep ++ a), b.
    change (join sep (t :: t' :: l)) with (t ++ sep ++ join sep (t' :: l))%string.
    rewrite !chars_app, E, <- !app_assoc. reflexivity.
Qed.

Lemma join_includes (sep s : string) (l : list string) :
  In s l -> Text.includes (join sep l) s = true.
Proof.
  intros Hin. destruct (join_In sep s l Hin) as (a & b & E).
  unfold Text.includes. rewrite E. apply includesL_app.
Qed.

(** The pages that [extractTextFromPDF] returns: one per page of the
    document, in order and numbered from 1; the items of a page carry the
    strings and sizes of the text items, with the vertical coordinate
    flipped in the viewport; the full text of a page is made of the strings
    of its items separated by single spaces, so that it contains the string
    of every item. A failure of pdf.js is thrown again with the message
    [Failed to extract text from PDF:] followed by its message. *)
Theorem pdf_pages (pdf : list RawPage) :
  extractTextFromPDF (Ok pdf) = Ok (extractPages pdf)
  /\ length (extractPages pdf) = length pdf
  /\ (forall (i : nat) (raw : RawPage),
        pdf !! i = Some raw ->
        exists page,
          extractPages pdf !! i = Some page
          /\ TextPage.pageNumber page = S i
          /\ TextPage.items page = Some (map (toItem (viewportHeight raw)) (rawItems raw))
          /\ TextPage.fullText page = join " " (map Pdf.str (rawItems raw))
          /\ forall item, In item (rawItems raw) ->
               Text.includes (TextPage.fullText page) (Pdf.str item) = true)
  /\ (forall error,
        extractTextFromPDF (Throw error)
        = Throw (mkError "Error"
                         ("Failed to extract text from PDF: " ++ errorMessage error))).
Proof.
  split; [reflexivity|]. split; [apply length_imap|]. split; [|reflexivity].
  intros i raw Hi. exists (pageOf (S i) raw).
  unfold extractPages. rewrite list_lookup_imap, Hi.
  split; [reflexivity|]. split; [reflexivity|]. split; [reflexivity|].
  assert (Ht : TextPage.fullText (pageOf (S i) raw) = join " " (map Pdf.str (rawItems raw))).
  { unfold pageOf. cbn [TextPage.fullText]. now rewrite map_map. }
  split; [exact Ht|].
  intros item Hin. rewrite Ht. apply join_includes. now apply in_map.
Qed.

Lemma inOrder_increasing (ms : list Regex.Match) :
  MatchOrder.inOrder ms -> MatchOrder.increasing (map Regex.index ms).
Proof.
  induction ms as [|m ms IH]; simpl; [auto|]. intros [H1 H2]. split; [|auto].
  apply Forall_map. eapply Forall_impl; [exact H1|]. intros m' [H _]. exact H.
Qed.

(** The results of [searchTextInPages] for a pattern with the flag [g]:
    the matches of the first page, then those of the second, and so on,
    each page being searched from the [lastIndex] of the pattern; a page
    contributes nothing exactly when the pattern does not match in its text
    from there on, which for a [lastIndex] of 0 means that the pattern does
    not match in the text; a result carries the number of its page, it
    starts at the [lastIndex] or later, its text is the text of the page
    from its index on, and the indices of the results of one page increase.
    A pattern that was used before and kept a [lastIndex] skips the matches
    before it: with a [lastIndex] of 1 the pattern [/a/g] finds nothing on
    a page whose text is [ab]. For a pattern without the flag [g] the
    function throws a [TypeError], unless there is no page. *)
Theorem search_in_pages (pages : list TextPage.t) (ignoreCase : bool) (lastIndex : nat)
    (pattern : Regex.t) :
  (exists groups,
      searchTextInPages pages ignoreCase true lastIndex pattern = Ok (concat groups)
      /\ Forall2
           (fun page group =>
              (group = []
               <-> Regex.execFrom ignoreCase pattern (Text.chars (TextPage.fullText page))
                                  lastIndex = None)
              /\ (lastIndex = 0%nat ->
                  (group = []
                   <-> Regex.test ignoreCase pattern (TextPage.fullText page) = false))
              /\ Forall
                   (fun f =>
                      pageNumber f = TextPage.pageNumber page
                      /\ (lastIndex <= index f)%nat
                      /\ (index f + String.length (matched f)
                          <= String.length (TextPage.fullText page))%nat
                      /\ matched f
                         = Text.substring (TextPage.fullText page) (index f)
                                          (index f + String.length (matched f)))
                   group
              /\ MatchOrder.increasing (map index group))
           pages groups)
  /\ searchTextInPages pages ignoreCase false lastIndex pattern
     = match pages with
       | [] => Ok []
       | _ :: _ =>
           Throw (mkError "TypeError"
                          "String.prototype.matchAll called with a non-global RegExp argument")
       end
  /\ (Regex.test false (Regex.Chr "a") "ab" = true
      /\ searchTextInPages [TextPage.mk 1 (Some []) "ab"] false true 1 (Regex.Chr "a")
         = Ok []).
Proof.
  split; [|split; [reflexivity|split; vm_compute; reflexivity]].
  set (toFound := fun (page : TextPage.t) (m : Regex.Match) =>
                    mkFound (TextPage.pageNumber page) (Regex.text m) (Regex.groups m)
                            (Regex.index m)).
  exists (map (fun page =>
                 map (toFound page)
                     (Regex.matchAllAt ignoreCase pattern (TextPage.fullText page) lastIndex))
              pages).
  split.
  { unfold searchTextInPages. now rewrite flat_map_concat_map. }
  induction pages as [|page pages IH]; simpl; constructor; [|exact IH].
  destruct (MatchOrderFacts.matchAllAt_sorted ignoreCase pattern (TextPage.fullText page)
                                              lastIndex) as [Hf Hs].
  assert (Hnil : map (toFound page)
                     (Regex.matchAllAt ignoreCase pattern (TextPage.fullText page) lastIndex)
                 = []
                 <-> Regex.execFrom ignoreCase pattern (Text.chars (TextPage.fullText page))
                                    lastIndex = None).
  { unfold Regex.matchAllAt. rewrite Nat.add_1_r. simpl.
    destruct (Regex.execFrom ignoreCase pattern (Text.chars (TextPage.fullText page))
                             lastIndex); simpl; split; congruence. }
  split; [exact Hnil|]. split; [|split].
  - intros ->. rewrite Hnil. unfold Regex.test.
    destruct (Regex.execFrom ignoreCase pattern (Text.chars (TextPage.fullText page)) 0);
      split; congruence.
  - apply Forall_map. eapply Forall_impl; [exact Hf|].
    intros m (H0 & H1 & H2). unfold toFound. cbn [pageNumber index matched].
    split; [reflexivity|]. split; [exact H0|]. split; assumption.
  - rewrite map_map. unfold toFound. cbn [index].
    now apply inOrder_increasing.
Qed.

End PdfTextFacts.

(** ** Summary of the results *)

Module SummaryFacts.

Import Summary.

Local Open Scope nat_scope.

Lemma sameKey_refl (key : Key) : sameKey key key = true.
Proof. now destruct key. Qed.

Lemma addEntry_cell (pageResult : PageResult) (summary : Overall) (key k : Key) :
  addEntry pageResult summary key k
  = if sameKey k key
    then mkCell (anyDetected (summary key) || isDetected (entry pageResult key))
                (total (summary key) + countOrZero (entry pageResult key))
    else summary k.
Proof.
  unfold addEntry, isDetected, countOrZero, set.
  destruct (summary key) as [a t] eqn:Es.
  destruct (sameKey k key) eqn:E.
  - assert (k = key) as -> by (destruct k, key; try discriminate E; reflexivity).
    destruct (entry pageResult key) as [[[] [n|]]|]; simpl;
      rewrite ?sameKey_refl, ?Es; simpl;
      rewrite ?orb_true_r, ?orb_false_r, ?Nat.add_0_r; reflexivity.
  - destruct (entry pageResult key) as [[[] [n|]]|]; simpl; rewrite ?E; reflexivity.
Qed.

Lemma addPage_cell (summary : Overall) (pageResult : PageResult) (key : Key) :
  addPage summary pageResult key
  = mkCell (anyDetected (summary key) || isDetected (entry pageResult key))
           (total (summary key) + countOrZero (entry pageResult key)).
Proof.
  unfold addPage, keys. cbn [fold_left].
  rewrite !addEntry_cell. destruct key; reflexivity.
Qed.

Lemma fold_addPage (results : list PageResult) (summary : Overall) (key : Key) :
  fold_left addPage results summary key
  = mkCell (anyDetected (summary key)
            || existsb (fun pageResult => isDetected (entry pageResult key)) results)
           (total (summary key)
            + list_sum (map (fun pageResult => countOrZero (entry pageResult key)) results)).
Proof.
  revert summary. induction results as [|pageResult results IH]; intros summary; simpl.
  - rewrite orb_false_r, Nat.add_0_r. now destruct (summary key).
  - rewrite IH, addPage_cell. simpl. now rewrite orb_assoc, Nat.add_assoc.
Qed.

Lemma overallSummary_cell (results : list PageResult) (key : Key) :
  overallSummary results key
  = mkCell (existsb (fun pageResult => isDetected (entry pageResult key)) results)
           (list_sum (map (fun pageResult => countOrZero (entry pageResult key)) results)).
Proof. unfold overallSummary. now rewrite fold_addPage. Qed.

Lemma list_sum_totalIssues (results : list PageResult) :
  list_sum (map totalIssues results)
  = (list_sum (map (fun p => countOrZero (entry p redElements)) results)
     + list_sum (map (fun p => countOrZero (entry p highlights)) results)
     + list_sum (map (fun p => countOrZero (entry p noRefs)) results)
     + list_sum (map (fun p => countOrZero (entry p overlappingText)) results)
     + list_sum (map (fun p => countOrZero (entry p geotechVerification)) results))%nat.
Proof.
  induction results as [|p results IH]; simpl; [reflexivity|].
  rewrite IH. unfold totalIssues. lia.
Qed.

Lemma detected_positive (results : list PageResult) (key : Key) :
  (forall pageResult e,
      In pageResult results -> entry pageResult key = Some e ->
      exists n, count e = Some n /\ detected e = (0 <? n)%nat) ->
  existsb (fun pageResult => isDetected (entry pageResult key)) results
  = (0 <? list_sum (map (fun pageResult => countOrZero (entry pageResult key)) results))%nat.
Proof.
  induction results as [|p results IH]; intros H; simpl; [reflexivity|].
  rewrite IH by (intros q e Hq; apply H; now right).
  specialize (H p). unfold isDetected, countOrZero.
  destruct (entry p key) as [e|].
  - destruct (H e (or_introl eq_refl) eq_refl) as (n & -> & ->). simpl.
    destruct n; simpl; [reflexivity|].
    symmetry. apply Nat.ltb_lt. lia.
  - reflexivity.
Qed.

(** The summary table adds up. For each detector the cell of the row
    [TOTAL] is the sum of the cells of the pages, a missing entry or count
    counting as 0, and the detector is marked as detected exactly when it
    is on some page; the grand total is the sum of the totals of the
    pages. When every entry of a detector has a count and is detected
    exactly when its count is positive, the same holds of its summary.
    The total of a page in the table is the total shown with the page
    plus the count of the verification, which the latter leaves out. *)
Theorem summary_totals (results : list PageResult) :
  (forall key,
      total (overallSummary results key)
      = list_sum (map (fun pageResult => countOrZero (entry pageResult key)) results)
      /\ anyDetected (overallSummary results key)
         = existsb (fun pageResult => isDetected (entry pageResult key)) results
      /\ ((forall pageResult e,
              In pageResult results -> entry pageResult key = Some e ->
              exists n, count e = Some n /\ detected e = (0 <? n)%nat) ->
          anyDetected (overallSummary results key)
          = (0 <? total (overallSummary results key))%nat))
  /\ grandTotal results = list_sum (map totalIssues results)
  /\ (forall pageResult,
        totalIssues pageResult
        = (pageIssues pageResult + countOrZero (entry pageResult geotechVerification))%nat).
Proof.
  split; [|split].
  - intros key. rewrite overallSummary_cell. cbn [total anyDetected].
    split; [reflexivity|]. split; [reflexivity|]. apply detected_positive.
  - unfold grandTotal, keys. cbn [map fold_left]. rewrite !overallSummary_cell.
    cbn [total]. rewrite list_sum_totalIssues. lia.
  - intros pageResult. unfold pageIssues, pageSummary, totalIssues. cbn [fold_left]. lia.
Qed.

End SummaryFacts.

(** ** Comparison table *)

Module DisplayFacts.

Import GeotechPatterns GeotechExtractor GeotechVerification Display.

Local Open Scope nat_scope.

(** What an entry of [drawingValues] adds to a count. *)
Definition tally (test : Row -> bool) (row : option Row) : nat :=
  match row with
  | Some v => if test v then 1 else 0
  | None => 0
  end.

Definition isMatch (v : Row) : bool := hasStatus StatusMatch v && isRequired v.
Definition isMismatch (v : Row) : bool := hasStatus StatusMismatch v && isRequired v.
Definition isMissing (v : Row) : bool := hasStatus StatusMissing v && isRequired v.
Definition isFound (v : Row) : bool := negb (falsy (value v)) && isRequired v.

Definition required (key : string) : bool :=
  existsb (String.eqb key) requiredComparisonParams.

(** The report has a value for a required parameter. *)
Definition expected (geotechData : option GeotechData) (key : string) : bool :=
  required key && negb (falsy (geotechValueOf geotechData key)).

Lemma countRows_omap (geotechData : option GeotechData) (test : Row -> bool)
    (values : list (string * Extracted.t)) :
  countRows test
    (omap (fun kv => (fun row => (fst kv, row)) <$> rowOf geotechData (fst kv) (snd kv)) values)
  = list_sum (map (fun kv => tally test (rowOf geotechData (fst kv) (snd kv))) values).
Proof.
  unfold countRows. induction values as [|kv values IH]; [reflexivity|].
  cbn [omap list_omap map list_sum fold_right].
  destruct (rowOf geotechData (fst kv) (snd kv)) as [row|]; cbn [fmap option_fmap option_map tally];
    [|exact IH].
  cbn [List.filter snd]. destruct (test row); cbn [length]; rewrite IH; reflexivity.
Qed.

Lemma rowOf_tally (geotechData : option GeotechData) (key : string) (drawingData : Extracted.t) :
  let row := rowOf geotechData key drawingData in
  tally isMatch row + tally isMismatch row + tally isMissing row
  = (if expected geotechData key then 1 else 0)
  /\ tally isMatch row + tally isMismatch row <= tally isFound row
  /\ tally isFound row + tally isMissing row <= (if required key then 1 else 0).
Proof.
  unfold rowOf, expected, required, isMatch, isMismatch, isMissing, isFound, hasStatus.
  destruct (existsb (String.eqb key) requiredComparisonParams);
    destruct (geotechValueOf geotechData key) as [g|];
    destruct (Extracted.value drawingData) as [d|];
    cbn [falsy negb andb];
    try destruct (String.length g =? 0) eqn:Eg; try destruct (String.length d =? 0) eqn:Ed;
    cbn; rewrite ?Eg, ?Ed; cbn;
    try destruct (valuesMatch g d (paramTypeOf key));
    cbn; rewrite ?Eg, ?Ed; cbn; lia.
Qed.

Lemma list_sum_filter {A : Type} (test : A -> bool) (l : list A) :
  list_sum (map (fun a => if test a then 1 else 0) l) = length (List.filter test l).
Proof.
  induction l as [|a l IH]; simpl; [reflexivity|]. destruct (test a); simpl; now rewrite IH.
Qed.

Lemma list_sum_le {A : Type} (f g : A -> nat) (l : list A) :
  (forall a, f a <= g a) -> list_sum (map f l) <= list_sum (map g l).
Proof.
  intros H. induction l as [|a l IH]; simpl; [lia|]. specialize (H a). lia.
Qed.

Lemma list_sum_add {A : Type} (f g : A -> nat) (l : list A) :
  list_sum (map (fun a => f a + g a) l) = list_sum (map f l) + list_sum (map g l).
Proof.
  induction l as [|a l IH]; simpl; [reflexivity|]. rewrite IH. lia.
Qed.

Lemma table_keys :
  map fst SEISMIC_PATTERNS
  = ["Sds"; "Sd1"; "Sms"; "Sm1"; "Ss"; "S1"; "Fa"; "Fv"; "siteClass"; "riskCategory";
     "seismicDesignCategory"]%string.
Proof. reflexivity. Qed.

Lemma expected_keys (geotechData : option GeotechData) (pages : list TextPage.t) :
  length (List.filter (fun kv => expected geotechData (fst kv)) (extractSeismicValues pages))
  = length (List.filter (fun key => negb (falsy (geotechValueOf geotechData key)))
                        requiredComparisonParams).
Proof.
  transitivity (length (List.filter (expected geotechData)
                                    (map fst (extractSeismicValues pages)))).
  { generalize (extractSeismicValues pages). intros l.
    induction l as [|kv l IH]; simpl; [reflexivity|].
    destruct (expected geotechData (fst kv)); simpl; now rewrite IH. }
  unfold extractSeismicValues. rewrite map_map. cbn [fst].
  change (map (fun x => fst x) SEISMIC_PATTERNS) with (map fst SEISMIC_PATTERNS).
  rewrite table_keys. unfold expected, required, requiredComparisonParams.
  cbn [List.filter existsb String.eqb Ascii.eqb Bool.eqb orb andb].
  repeat match goal with
         | |- context [falsy ?v] => destruct (falsy v)
         end; reflexivity.
Qed.

Lemma required_keys (pages : list TextPage.t) :
  list_sum (map (fun kv : string * Extracted.t => if required (fst kv) then 1 else 0)
                (extractSeismicValues pages))
  = requiredTotal.
Proof.
  rewrite (list_sum_filter (fun kv => required (fst kv))).
  transitivity (length (List.filter required (map fst (extractSeismicValues pages)))).
  { generalize (extractSeismicValues pages). intros l.
    induction l as [|kv l IH]; simpl; [reflexivity|].
    destruct (required (fst kv)); simpl; now rewrite IH. }
  unfold extractSeismicValues. rewrite map_map. cbn [fst].
  change (map (fun x => fst x) SEISMIC_PATTERNS) with (map fst SEISMIC_PATTERNS).
  rewrite table_keys. reflexivity.
Qed.

Lemma blank_value (key : string) : geotechValueOf None key = None.
Proof.
  unfold geotechValueOf, extractedValuesOf, blankValues, valueOf.
  generalize SEISMIC_PATTERNS. intros l.
  induction l as [|kc l IH]; simpl; [reflexivity|].
  destruct (String.eqb (fst kc) key); [reflexivity|exact IH].
Qed.

Lemma counts_of (geotechData : option GeotechData) (pdfPages : option (list TextPage.t)) :
  let rows := drawingValuesMap geotechData pdfPages in
  matchCount rows + mismatchCount rows + missingCount rows
  = (if hasDrawingValues pdfPages
     then length (List.filter (fun key => negb (falsy (geotechValueOf geotechData key)))
                              requiredComparisonParams)
     else 0)
  /\ matchCount rows + mismatchCount rows <= drawingFoundCount rows
  /\ drawingFoundCount rows + missingCount rows <= requiredTotal.
Proof.
  unfold drawingValuesMap, drawingValues, hasDrawingValues.
  destruct pdfPages as [[|page pages]|]; cbn zeta;
    try (split; [reflexivity|]; split; cbn; lia).
  unfold matchCount, mismatchCount, missingCount, drawingFoundCount.
  rewrite !countRows_omap.
  change (fun v => hasStatus StatusMatch v && isRequired v) with isMatch.
  change (fun v => hasStatus StatusMismatch v && isRequired v) with isMismatch.
  change (fun v => hasStatus StatusMissing v && isRequired v) with isMissing.
  change (fun v => negb (falsy (value v)) && isRequired v) with isFound.
  rewrite <- !list_sum_add. split; [|split].
  - rewrite <- (expected_keys geotechData (page :: pages)).
    rewrite <- (list_sum_filter (fun kv => expected geotechData (fst kv))). f_equal.
    apply map_ext. intros kv. apply (rowOf_tally geotechData (fst kv) (snd kv)).
  - apply list_sum_le. intros kv. apply (rowOf_tally geotechData (fst kv) (snd kv)).
  - rewrite <- (required_keys (page :: pages)). apply list_sum_le. intros kv.
    apply (rowOf_tally geotechData (fst kv) (snd kv)).
Qed.

(** The counts above the comparison table. The numbers of matches,
    mismatches and missing values add up to the number of required
    parameters for which the report has a value, when the drawing has
    pages, and to 0 otherwise. Matches and mismatches are among the
    required values found in the drawing, and these, together with the
    missing ones, are at most the six required parameters. Without a
    report there is no match, mismatch or missing value. *)
Theorem comparison_counts (geotechData : option GeotechData)
    (pdfPages : option (list TextPage.t)) :
  let rows := drawingValuesMap geotechData pdfPages in
  matchCount rows + mismatchCount rows + missingCount rows
  = (if hasDrawingValues pdfPages
     then length (List.filter (fun key => negb (falsy (geotechValueOf geotechData key)))
                              requiredComparisonParams)
     else 0)
  /\ matchCount rows + mismatchCount rows <= drawingFoundCount rows
  /\ drawingFoundCount rows + missingCount rows <= requiredTotal
  /\ requiredTotal = 6
  /\ (geotechData = None ->
      matchCount rows = 0 /\ mismatchCount rows = 0 /\ missingCount rows = 0).
Proof.
  intros rows. destruct (counts_of geotechData pdfPages) as (H1 & H2 & H3).
  fold rows in H1, H2, H3.
  split; [exact H1|]. split; [exact H2|]. split; [exact H3|]. split; [reflexivity|].
  intros ->.
  assert (E : List.filter (fun key => negb (falsy (geotechValueOf None key)))
                          requiredComparisonParams = []).
  { unfold requiredComparisonParams. cbn [List.filter]. rewrite !blank_value. reflexivity. }
  rewrite E in H1. destruct (hasDrawingValues pdfPages); simpl in H1; lia.
Qed.

Lemma rowAt_In (key : string) (rows : list (string * Row)) (row : Row) :
  rowAt key rows = Some row -> In (key, row) rows.
Proof.
  unfold rowAt. destruct (List.find _ rows) as [[k r]|] eqn:E; [|discriminate].
  intros [= <-]. apply find_some in E as [Hin Hk]. simpl in Hk.
  apply String.eqb_eq in Hk. now subst k.
Qed.

Lemma drawingValuesMap_In (geotechData : option GeotechData)
    (pdfPages : option (list TextPage.t)) (key : string) (row : Row) :
  In (key, row) (drawingValuesMap geotechData pdfPages) ->
  hasDrawingValues pdfPages = true
  /\ exists drawingData, rowOf geotechData key drawingData = Some row.
Proof.
  unfold drawingValuesMap, drawingValues, hasDrawingValues.
  destruct pdfPages as [[|page pages]|]; try (intros []).
  intros Hin. split; [reflexivity|].
  apply list_elem_of_In, list_elem_of_omap in Hin as ([k d] & _ & Hr).
  simpl in Hr. destruct (rowOf geotechData k d) as [r|] eqn:E; [|discriminate].
  injection Hr as <- <-. now exists d.
Qed.

Lemma rowOf_status (geotechData : option GeotechData) (key : string)
    (drawingData : Extracted.t) (row : Row) :
  rowOf geotechData key drawingData = Some row ->
  status row <> StatusDrawingOnly ->
  falsy (geotechValueOf geotechData key) = false.
Proof.
  unfold rowOf.
  destruct (falsy (geotechValueOf geotechData key)); [|reflexivity].
  destruct (negb (falsy (Extracted.value drawingData))); cbn [negb andb].
  - destruct (geotechValueOf geotechData key), (Extracted.value drawingData);
      cbn [andb]; intros [= <-]; cbn [status]; congruence.
  - discriminate.
Qed.

(** The status icon of a parameter and the class of its row agree, for the
    row [data] of the parameter in the table: with the icon of a match, a
    mismatch or a missing value the row has the class of that status; with
    no icon the row has the class [found] or [not-found], according to the
    value of the report. *)
Theorem status_agrees (geotechData : option GeotechData)
    (pdfPages : option (list TextPage.t)) (key : string) (data : Extracted.t) :
  valueOf key (extractedValuesOf geotechData) = Some data ->
  match getStatusIcon geotechData pdfPages key with
  | Some icon =>
      exists name,
        In name ["match"; "mismatch"; "missing"]%string
        /\ icon = ("status-icon " ++ name)%string
        /\ getRowClass geotechData pdfPages key data = ("status-" ++ name)%string
  | None =>
      getRowClass geotechData pdfPages key data
      = if falsy (Extracted.value data) then "not-found"%string else "found"%string
  end.
Proof.
  intros Hd. unfold getStatusIcon, getRowClass.
  destruct (rowAt key (drawingValuesMap geotechData pdfPages)) as [row|] eqn:Er.
  - apply rowAt_In, drawingValuesMap_In in Er as (-> & drawingData & Hr).
    assert (Hg : status row <> StatusDrawingOnly ->
                 falsy (Extracted.value data) = false).
    { intros Hs. pose proof (rowOf_status _ _ _ _ Hr Hs) as Hf.
      unfold geotechValueOf in Hf. rewrite Hd in Hf. exact Hf. }
    cbn [negb]. unfold hasStatus.
    destruct (isRequired row); cbn [negb].
    + destruct (status row); cbn.
      * rewrite Hg by discriminate. exists "match"%string. cbn. auto.
      * rewrite Hg by discriminate. exists "mismatch"%string. cbn. auto.
      * now destruct (falsy (Extracted.value data)).
      * rewrite Hg by discriminate. exists "missing"%string. cbn. auto.
    + now destruct (falsy (Extracted.value data)).
  - destruct (falsy (Extracted.value data)); [reflexivity|].
    now destruct (negb (hasDrawingValues pdfPages)).
Qed.

Lemma status_agrees_witness :
  let data := Extracted.mk "Sds" "" (Some "0.77"%string) (Some 1) (S754_zero false) "numeric" in
  let geotechData := Some (mkData (Some [("Sds"%string, data)])) in
  let pdfPages := Some [TextPage.mk 1 (Some []) "SDS = 0.77"] in
  valueOf "Sds" (extractedValuesOf geotechData) = Some data
  /\ match getStatusIcon geotechData pdfPages "Sds" with
     | Some icon =>
         exists name,
           In name ["match"; "mismatch"; "missing"]%string
           /\ icon = ("status-icon " ++ name)%string
           /\ getRowClass geotechData pdfPages "Sds" data = ("status-" ++ name)%string
     | None =>
         getRowClass geotechData pdfPages "Sds" data
         = if falsy (Extracted.value data) then "not-found"%string else "found"%string
     end.
Proof.
  intros data geotechData pdfPages.
  assert (H : valueOf "Sds" (extractedValuesOf geotechData) = Some data) by reflexivity.
  split; [exact H|].
  exact (status_agrees geotechData pdfPages "Sds" data H).
Defined.

End DisplayFacts.
